(** * FAQ matching engine of the photo assistant (src/faq/faq_handler.py)

    A shallow embedding of [FAQHandler]: the corpus store, the lexical
    fallback matcher, the embedding-backed answer selector and the
    top-k shortlist, followed by the properties checked against it.

    Modelling conventions.
    - Python [str] is [string]; the text is taken to be ASCII, so
      [str.lower] folds 'A'..'Z' and [str.split()] cuts at the ASCII
      white space characters Python recognises.
    - A Python [dict] that is iterated ([categories]) is an association
      list in insertion order; a key that the code reads with [.get(k, d)]
      is an optional field.
    - [try: ... except Exception] is an explicit [result] value that is
      inspected by the handler; in-place mutation is state passing.
    - A Python [float] is an IEEE 754 binary64 number: the scores of the
      lexical matcher are [spec_float] values, added, divided and compared
      as the Standard Library's [SpecFloat] does at precision 53.
    - The similarities that torch computes in float32 are exact rationals
      [Q].  A float32 similarity compares with the double literal 0.3
      exactly as the rational does with 3/10, since no float32 lies between
      them.
    - A value read from JSON whose type the code does not fix (a request
      field, the question counter) is a [JValue]. *)

From Stdlib Require Import String Ascii List ZArith QArith Lia Bool Arith.
From Stdlib Require Import Sorting.Sorted Sorting.Permutation.
From Stdlib Require Import SpecFloat.
Import ListNotations.
Close Scope Q_scope.
Open Scope nat_scope.
Open Scope list_scope.
Open Scope string_scope.

(** ** Exceptions *)

Inductive exn : Type :=
| KeyError
| ZeroDivisionError
| IndexError
| RuntimeError
| OSError
| JSONDecodeError
| TypeError
| AttributeError.

Inductive result (A : Type) : Type :=
| Ok (a : A)
| Raise (e : exn).
Arguments Ok {A} a.
Arguments Raise {A} e.

Definition bind {A B : Type} (m : result A) (k : A -> result B) : result B :=
  match m with
  | Ok a => k a
  | Raise e => Raise e
  end.

Notation "x <- m ;; k" := (bind m (fun x => k))
  (at level 61, m at next level, right associativity).

(** [try: body  except Exception: handler] *)
Definition try_except {A : Type} (body : result A) (handler : exn -> result A)
  : result A :=
  match body with
  | Ok a => Ok a
  | Raise e => handler e
  end.

(** ** Python string operations *)

Module Str.

Definition isspace (c : ascii) : bool :=
  let n := nat_of_ascii c in
  (Nat.leb 9 n && Nat.leb n 13) || (Nat.leb 28 n && Nat.leb n 32).

Definition lower_char (c : ascii) : ascii :=
  let n := nat_of_ascii c in
  if Nat.leb 65 n && Nat.leb n 90 then ascii_of_nat (n + 32) else c.

(** [s.lower()] *)
Fixpoint lower (s : string) : string :=
  match s with
  | EmptyString => EmptyString
  | String c s' => String (lower_char c) (lower s')
  end.

Definition flush (cur : string) (rest : list string) : list string :=
  match cur with
  | EmptyString => rest
  | _ => cur :: rest
  end.

Fixpoint split_from (cur : string) (s : string) : list string :=
  match s with
  | EmptyString => flush cur []
  | String c s' =>
      if isspace c then flush cur (split_from EmptyString s')
      else split_from (cur ++ String c EmptyString) s'
  end.

(** [s.split()] : maximal runs of non-space characters *)
Definition split (s : string) : list string := split_from EmptyString s.

Fixpoint startswith (p s : string) : bool :=
  match p, s with
  | EmptyString, _ => true
  | String a p', String b s' => Ascii.eqb a b && startswith p' s'
  | String _ _, EmptyString => false
  end.

(** [w in s] : substring test *)
Fixpoint contains (w s : string) : bool :=
  startswith w s ||
  match s with
  | EmptyString => false
  | String _ s' => contains w s'
  end.

(** truth value of a string: [bool(s)] *)
Definition truthy (s : string) : bool :=
  match s with
  | EmptyString => false
  | _ => true
  end.

End Str.

(** ** Python sets of words, as duplicate-free lists *)

Module WordSet.

Definition t := list string.

(** [set(l)] *)
Definition of_list (l : list string) : t := nodup string_dec l.

Definition mem (w : string) (s : t) : bool :=
  if in_dec string_dec w s then true else false.

(** [a.intersection(b)] *)
Definition intersection (a b : t) : t := filter (fun w => mem w b) a.

(** [len(s)] *)
Definition len (s : t) : Z := Z.of_nat (length s).

(** truth value of a set *)
Definition truthy (s : t) : bool :=
  match s with
  | [] => false
  | _ => true
  end.

End WordSet.

(** ** Python floats

    Binary64: precision 53, infinities at exponent 1024.  Every operation
    rounds the exact result to the nearest double, a tie to the even one. *)

Module F64.

Definition prec : Z := 53%Z.
Definition emax : Z := 1024%Z.

(** [x + y] *)
Definition add (x y : spec_float) : spec_float := SFadd prec emax x y.

(** [x / y] *)
Definition div (x y : spec_float) : spec_float := SFdiv prec emax x y.

(** [x < y] *)
Definition ltb (x y : spec_float) : bool := SFltb x y.

(** A Python [int] as the operand of a true division: the quotient of two
    integers is rounded once, whatever their size. *)
Definition of_int (z : Z) : spec_float :=
  match z with
  | Z0 => S754_zero false
  | Zpos p => S754_finite false p 0
  | Zneg p => S754_finite true p 0
  end.

(** The integer [0] that [score] and [best_score] start from compares and
    adds as the float zero does. *)
Definition zero : spec_float := S754_zero false.

(** The double that the decimal literal [num/den] denotes. *)
Definition literal (num den : Z) : spec_float := div (of_int num) (of_int den).

(** [0.5] is 4503599627370496 * 2^-53, [0.3] is 5404319552844595 * 2^-54,
    [0.2] is 7205759403792794 * 2^-55, [1.0] is 4503599627370496 * 2^-52. *)
Definition half : spec_float := Eval vm_compute in literal 1 2.
Definition three_tenths : spec_float := Eval vm_compute in literal 3 10.
Definition one_fifth : spec_float := Eval vm_compute in literal 1 5.
Definition one : spec_float := Eval vm_compute in literal 1 1.

(** Positive zero, a positive finite number or positive infinity. *)
Definition nonneg (x : spec_float) : Prop :=
  match x with
  | S754_zero false | S754_infinity false | S754_finite false _ _ => True
  | _ => False
  end.

(** The place of a number in the order: zero, the finite numbers by
    exponent and mantissa, infinity. *)
Definition key (x : spec_float) : Z * Z * Z :=
  match x with
  | S754_zero _ => (0, 0, 0)%Z
  | S754_finite _ m e => (1, e, Zpos m)%Z
  | S754_infinity _ => (2, 0, 0)%Z
  | S754_nan => (3, 0, 0)%Z
  end.

Definition key_lt (a b : Z * Z * Z) : Prop :=
  (fst (fst a) < fst (fst b)
   \/ (fst (fst a) = fst (fst b)
       /\ (snd (fst a) < snd (fst b)
           \/ (snd (fst a) = snd (fst b) /\ snd a < snd b))))%Z.

End F64.

(** ** JSON values

    What [json.load] and the request parser hand over where the code does
    not fix the type. *)

#[local] Unset Elimination Schemes.
Inductive JValue : Type :=
| JNull
| JBool (b : bool)
| JInt (z : Z)
| JFloat (f : spec_float)
| JString (s : string)
| JArray (items : list JValue)
| JObject (fields : list (string * JValue)).
#[local] Set Elimination Schemes.

(** truth value of a Python object: [bool(v)] *)
Definition py_truthy (v : JValue) : bool :=
  match v with
  | JNull => false
  | JBool b => b
  | JInt z => negb (z =? 0)%Z
  | JFloat f => match f with S754_zero _ => false | _ => true end
  | JString s => Str.truthy s
  | JArray items => match items with [] => false | _ => true end
  | JObject fields => match fields with [] => false | _ => true end
  end.

(** [v += 1]: defined on the numbers ([bool] is a kind of [int]); on any
    other value the addition raises [TypeError]. *)
Definition iadd_one (v : JValue) : result JValue :=
  match v with
  | JInt z => Ok (JInt (z + 1))
  | JBool b => Ok (JInt ((if b then 1 else 0) + 1))
  | JFloat f => Ok (JFloat (F64.add f F64.one))
  | JNull | JString _ | JArray _ | JObject _ => Raise TypeError
  end.

(** ** Data model *)

Record QA : Type := mkQA {
  question : string;
  answer : string
}.

Record Category : Type := mkCategory {
  name : string;
  questions : option (list QA)      (* read with [.get("questions", [])] *)
}.

Record Metadata : Type := mkMetadata {
  version : string;
  last_updated : string;
  total_questions : option JValue   (* a key that may be missing, of any type *)
}.

Record FaqData : Type := mkFaqData {
  categories : option (list (string * Category)); (* [.get("categories", {})] *)
  metadata : option Metadata
}.

(** [_get_default_faq_data] *)
Definition _get_default_faq_data : FaqData :=
  {| categories := Some
       [ ("general",
          {| name := "General Questions";
             questions := Some
               [ {| question := "What can this photo assistant do?";
                    answer := "This photo assistant can analyze images to detect objects, extract text, identify scenes, and answer questions about photos using AI-powered vision and language models." |};
                 {| question := "How do I upload a photo?";
                    answer := "You can upload photos through the web interface by clicking the upload button and selecting an image file from your device." |};
                 {| question := "What file formats are supported?";
                    answer := "The assistant supports common image formats including JPEG, PNG, GIF, and WebP files." |} ] |});
         ("analysis",
          {| name := "Photo Analysis";
             questions := Some
               [ {| question := "What information can you extract from photos?";
                    answer := "I can detect objects, recognize text (OCR), identify scenes and concepts, detect faces, and provide detailed descriptions of image content." |};
                 {| question := "How accurate is the analysis?";
                    answer := "The analysis uses state-of-the-art AI models with high accuracy, though results may vary depending on image quality and content complexity." |};
                 {| question := "Can you read text in images?";
                    answer := "Yes, I can extract and read text from images using optical character recognition (OCR) technology." |} ] |});
         ("usage",
          {| name := "Usage Tips";
             questions := Some
               [ {| question := "How do I ask questions about my photos?";
                    answer := "After uploading a photo, you can type questions in the chat interface. Ask about objects, colors, text, or any other aspects of the image." |};
                 {| question := "What types of questions work best?";
                    answer := "Specific questions work best, such as 'What objects do you see?', 'Is there text in this image?', or 'Describe the colors in this photo.'" |};
                 {| question := "Can you compare multiple photos?";
                    answer := "Currently, the assistant analyzes one photo at a time. You can upload different photos sequentially for comparison." |} ] |}) ];
     metadata := Some
       {| version := "1.0"; last_updated := "2024-01-01";
          total_questions := Some (JInt 9) |}
  |}.

(** [self.faq_data.get("categories", {})] *)
Definition get_categories_dict (d : FaqData) : list (string * Category) :=
  match categories d with
  | Some cs => cs
  | None => []
  end.

(** [category.get("questions", [])] *)
Definition get_questions (c : Category) : list QA :=
  match questions c with
  | Some qs => qs
  | None => []
  end.

(** [get_all_questions] : the flattened corpus, category by category *)
Definition get_all_questions (d : FaqData) : list QA :=
  flat_map (fun kc => get_questions (snd kc)) (get_categories_dict d).

(** [get_categories] *)
Definition get_categories (d : FaqData) : list string :=
  map fst (get_categories_dict d).

Definition uncertain_message : string :=
  "I couldn't find a specific answer to your question. Please try rephrasing or check the FAQ section for similar topics.".

(** ** Corpus store: persisted document, load and save *)

(** What lies at [self.faq_file]. *)
Inductive Stored : Type :=
| Missing                       (* [exists()] is false *)
| Unreadable                    (* [open] raises *)
| Malformed                     (* [json.load] raises *)
| Document (d : FaqData).

Record Storage : Type := mkStorage {
  stored : Stored;
  writable : bool                (* can the directory and file be written *)
}.

(** [open(self.faq_file, 'r')] followed by [json.load(f)] *)
Definition read_json (fs : Storage) : result FaqData :=
  match stored fs with
  | Missing => Raise OSError
  | Unreadable => Raise OSError
  | Malformed => Raise JSONDecodeError
  | Document d => Ok d
  end.

(** [self.faq_file.exists()] *)
Definition file_exists (fs : Storage) : bool :=
  match stored fs with
  | Missing => false
  | _ => true
  end.

(** [_load_faq_data] *)
Definition _load_faq_data (fs : Storage) : result FaqData :=
  try_except
    (if file_exists fs then read_json fs
     else Ok _get_default_faq_data)
    (fun _ => Ok _get_default_faq_data).

(** [mkdir], [open(..., 'w')] and [json.dump]: the write itself *)
Definition write_json (d : FaqData) (fs : Storage) : result unit * Storage :=
  if writable fs then (Ok tt, {| stored := Document d; writable := true |})
  else (Raise OSError, fs).

(** [_save_faq_data] : the write error is printed, not raised *)
Definition _save_faq_data (d : FaqData) (fs : Storage) : result unit * Storage :=
  let '(r, fs') := write_json d fs in
  (try_except r (fun _ => Ok tt), fs').

(** ** In-place updates of the corpus, with [KeyError] and [TypeError] *)

(** A computation over the mutable [faq_data]: the state survives a raise. *)
Definition Prog (A : Type) : Type := FaqData -> result A * FaqData.

Definition ret {A : Type} (a : A) : Prog A := fun d => (Ok a, d).
Definition raise {A : Type} (e : exn) : Prog A := fun d => (Raise e, d).
Definition get : Prog FaqData := fun d => (Ok d, d).
Definition put (d' : FaqData) : Prog unit := fun _ => (Ok tt, d').

Definition bindP {A B : Type} (m : Prog A) (k : A -> Prog B) : Prog B :=
  fun d =>
    match m d with
    | (Ok a, d') => k a d'
    | (Raise e, d') => (Raise e, d')
    end.

Notation "x <~ m ;; k" := (bindP m (fun x => k))
  (at level 61, m at next level, right associativity).
Notation "m ;;; k" := (bindP m (fun _ => k))
  (at level 61, right associativity).

(** [key in dict] *)
Definition has_key {V : Type} (k : string) (l : list (string * V)) : bool :=
  existsb (fun kv => String.eqb k (fst kv)) l.

(** [dict[key]] *)
Fixpoint lookup {V : Type} (k : string) (l : list (string * V)) : option V :=
  match l with
  | [] => None
  | (k', v) :: l' => if String.eqb k k' then Some v else lookup k l'
  end.

Fixpoint replace {V : Type} (k : string) (v : V) (l : list (string * V))
  : list (string * V) :=
  match l with
  | [] => []
  | (k', v') :: l' =>
      if String.eqb k k' then (k', v) :: l' else (k', v') :: replace k v l'
  end.

(** [dict[key] = v] : a new key goes last, an old key keeps its place *)
Definition assign {V : Type} (k : string) (v : V) (l : list (string * V))
  : list (string * V) :=
  if has_key k l then replace k v l else (l ++ [(k, v)])%list.

Definition is_upper (c : ascii) : bool :=
  let n := nat_of_ascii c in Nat.leb 65 n && Nat.leb n 90.
Definition is_lower (c : ascii) : bool :=
  let n := nat_of_ascii c in Nat.leb 97 n && Nat.leb n 122.
Definition upper_char (c : ascii) : ascii :=
  if is_lower c then ascii_of_nat (nat_of_ascii c - 32) else c.

Fixpoint title_from (prev_cased : bool) (s : string) : string :=
  match s with
  | EmptyString => EmptyString
  | String c s' =>
      let cased := is_upper c || is_lower c in
      String (if prev_cased then Str.lower_char c else upper_char c)
             (title_from cased s')
  end.

(** [s.title()] *)
Definition title (s : string) : string := title_from false s.

(** [self.faq_data["categories"][category] = c] *)
Definition set_category (category : string) (c : Category) : Prog unit :=
  d <~ get ;;
  match categories d with
  | None => raise KeyError
  | Some cs =>
      put {| categories := Some (assign category c cs); metadata := metadata d |}
  end.

(** [self.faq_data["categories"][category]["questions"].append(qa)] *)
Definition append_question (category : string) (qa : QA) : Prog unit :=
  d <~ get ;;
  match categories d with
  | None => raise KeyError
  | Some cs =>
      match lookup category cs with
      | None => raise KeyError
      | Some c =>
          match questions c with
          | None => raise KeyError
          | Some qs =>
              put {| categories :=
                       Some (replace category
                               {| name := name c; questions := Some (qs ++ [qa])%list |}
                               cs);
                     metadata := metadata d |}
          end
      end
  end.

(** [self.faq_data["metadata"]["total_questions"] += 1] *)
Definition incr_total_questions : Prog unit :=
  d <~ get ;;
  match metadata d with
  | None => raise KeyError
  | Some m =>
      match total_questions m with
      | None => raise KeyError
      | Some v =>
          match iadd_one v with
          | Ok v' =>
              put {| categories := categories d;
                     metadata := Some {| version := version m;
                                         last_updated := last_updated m;
                                         total_questions := Some v' |} |}
          | Raise e => raise e
          end
      end
  end.

(** The [try] block of [add_question] up to the save. *)
Definition add_question_update (category question answer : string) : Prog unit :=
  d <~ get ;;
  (if negb (has_key category (get_categories_dict d))
   then set_category category
          {| name := title category; questions := Some [] |}
   else ret tt) ;;;
  append_question category {| question := question; answer := answer |} ;;;
  incr_total_questions.

(** [add_question] on the corpus and the storage it is saved to: the
    boolean returned, the corpus afterwards and the storage afterwards. *)
Definition add_question_data (d : FaqData) (fs : Storage)
    (category question answer : string) : bool * FaqData * Storage :=
  match add_question_update category question answer d with
  | (Ok _, d') =>
      match _save_faq_data d' fs with
      | (Ok _, fs') => (true, d', fs')
      | (Raise _, fs') => (false, d', fs')
      end
  | (Raise _, d') => (false, d', fs)
  end.

(** ** Scores *)

Definition Qltb (a b : Q) : bool := negb (Qle_bool b a).

(** [a / b] on Python integers: the double nearest to the quotient *)
Definition truediv (a b : Z) : result spec_float :=
  if (b =? 0)%Z then Raise ZeroDivisionError
  else Ok (F64.div (F64.of_int a) (F64.of_int b)).

(** ** Lexical fallback matcher *)

(** [any(word in text for word in words)] *)
Definition any_word_in (words : list string) (text : string) : bool :=
  existsb (fun word => Str.contains word text) words.

(** The body of the inner loop of [_fallback_answer_question] up to the
    comparison with [best_score]: the score of one entry. *)
Definition fallback_score (question_lower : string) (qa : QA)
  : result spec_float :=
  let faq_question := Str.lower (question qa) in
  let faq_answer := Str.lower (answer qa) in
  let score := F64.zero in
  let question_words := WordSet.of_list (Str.split question_lower) in
  let faq_words := WordSet.of_list (Str.split faq_question) in
  let common_words := WordSet.intersection question_words faq_words in
  score <- (if WordSet.truthy common_words
            then r <- truediv (WordSet.len common_words)
                        (Z.max (WordSet.len question_words)
                               (WordSet.len faq_words)) ;;
                 Ok (F64.add score r)
            else Ok score) ;;
  let score := if any_word_in (Str.split faq_question) question_lower
               then F64.add score F64.half else score in
  let score := if any_word_in (Str.split faq_answer) question_lower
               then F64.add score F64.three_tenths else score in
  Ok score.

(** [best_match] and [best_score] *)
Definition Best : Type := (option string * spec_float)%type.

(** [for qa in category.get("questions", [])] *)
Fixpoint fallback_inner (question_lower : string) (qas : list QA) (best : Best)
  : result Best :=
  match qas with
  | [] => Ok best
  | qa :: rest =>
      score <- fallback_score question_lower qa ;;
      if F64.ltb (snd best) score
      then fallback_inner question_lower rest (Some (answer qa), score)
      else fallback_inner question_lower rest best
  end.

(** [for category in self.faq_data.get("categories", {}).values()] *)
Fixpoint fallback_outer (question_lower : string) (cats : list Category)
    (best : Best) : result Best :=
  match cats with
  | [] => Ok best
  | category :: rest =>
      best' <- fallback_inner question_lower (get_questions category) best ;;
      fallback_outer question_lower rest best'
  end.

(** [if best_match and best_score > 0.2] *)
Definition fallback_select (best : Best) : string :=
  match fst best with
  | Some best_match =>
      if Str.truthy best_match && F64.ltb F64.one_fifth (snd best)
      then best_match else uncertain_message
  | None => uncertain_message
  end.

(** [_fallback_answer_question] *)
Definition _fallback_answer_question (d : FaqData) (question : string)
  : result string :=
  let question_lower := Str.lower question in
  best <- fallback_outer question_lower (map snd (get_categories_dict d))
            (None, F64.zero) ;;
  Ok (fallback_select best).

(** ** The numeric backend: sentence_transformers and torch

    The embedding model and the tensor operations are outside the
    repository.  They enter as an interface: an embedding of one text
    (which may raise), the similarity of two embeddings as computed by
    [torch.cosine_similarity], and the index selection of [torch.topk]. *)

Record Backend : Type := mkBackend {
  Vec : Type;
  embed : string -> result Vec;
  cos : Vec -> Vec -> Q;
  topk_indices : list Q -> nat -> list nat
}.

(** The value a similarity tensor holds at an index. *)
Definition score_at (s : list Q) (i : nat) : Q := nth i s 0%Q.

(** What the torch documentation promises of [topk(values, k).indices] for
    [k <= len(values)]: [k] distinct positions holding the [k] largest
    values, listed by non-increasing value.  The order among equal values
    is not part of it. *)
Record topk_contract (topk : list Q -> nat -> list nat) : Prop := {
  topk_length : forall s k, k <= length s -> length (topk s k) = k;
  topk_range : forall s k i, k <= length s -> In i (topk s k) -> i < length s;
  topk_nodup : forall s k, k <= length s -> NoDup (topk s k);
  topk_sorted : forall s k, k <= length s ->
      StronglySorted (fun i j => (score_at s j <= score_at s i)%Q) (topk s k);
  topk_largest : forall s k i j, k <= length s ->
      In i (topk s k) -> j < length s -> ~ In j (topk s k) ->
      (score_at s j <= score_at s i)%Q
}.

Inductive SentenceTransformer : Type := all_MiniLM_L6_v2.

Section Handler.

Context (B : Backend).

Record FAQHandler : Type := mkFAQHandler {
  faq_data : FaqData;
  model : option SentenceTransformer;
  question_embeddings : option (list (Vec B));
  questions_list : list string
}.

(** [self.model.encode(texts, convert_to_tensor=True)] : row [i] embeds
    text [i]; any failure fails the batch. *)
Fixpoint encode (texts : list string) : result (list (Vec B)) :=
  match texts with
  | [] => Ok []
  | t :: rest =>
      v <- embed B t ;;
      vs <- encode rest ;;
      Ok (v :: vs)
  end.

(** [torch.cosine_similarity(question_embedding, self.question_embeddings)]:
    one score per cached row.  Against the empty tensor cached for an empty
    corpus the shapes do not broadcast and torch raises. *)
Definition cosine_similarity (qe : Vec B) (cache : list (Vec B))
  : result (list Q) :=
  match cache with
  | [] => Raise RuntimeError
  | _ => Ok (map (cos B qe) cache)
  end.

Fixpoint argmax_from (best_i : nat) (best : Q) (i : nat) (l : list Q) : nat :=
  match l with
  | [] => best_i
  | x :: l' =>
      if Qltb best x then argmax_from i x (S i) l'
      else argmax_from best_i best (S i) l'
  end.

(** [torch.argmax(t).item()] : the first position of the maximum *)
Definition argmax (l : list Q) : result nat :=
  match l with
  | [] => Raise IndexError
  | x :: l' => Ok (argmax_from 0 x 1 l')
  end.

(** [t[i].item()] *)
Definition item (l : list Q) (i : nat) : result Q :=
  match nth_error l i with
  | Some x => Ok x
  | None => Raise IndexError
  end.

(** [torch.topk(t, k).indices] *)
Definition torch_topk (l : list Q) (k : Z) : result (list nat) :=
  if ((k <? 0) || (Z.of_nat (length l) <? k))%Z then Raise RuntimeError
  else Ok (topk_indices B l (Z.to_nat k)).

(** [_initialize_embeddings] *)
Definition _initialize_embeddings (h : FAQHandler) : FAQHandler :=
  match model h with
  | None => h
  | Some _ =>
      let all_questions := get_all_questions (faq_data h) in
      let questions_text := map question all_questions in
      match encode questions_text with
      | Ok embeddings =>
          {| faq_data := faq_data h; model := model h;
             question_embeddings := Some embeddings;
             questions_list := questions_text |}
      | Raise _ =>
          {| faq_data := faq_data h; model := model h;
             question_embeddings := None;
             questions_list := [] |}
      end
  end.

(** [__init__] : [loaded] is the outcome of constructing the model. *)
Definition __init__ (fs : Storage) (loaded : result SentenceTransformer)
  : result FAQHandler :=
  d <- _load_faq_data fs ;;
  match loaded with
  | Ok m =>
      Ok (_initialize_embeddings
            {| faq_data := d; model := Some m;
               question_embeddings := None; questions_list := [] |})
  | Raise _ =>
      Ok {| faq_data := d; model := None;
            question_embeddings := None; questions_list := [] |}
  end.

(** The embedding path of [answer_question], inside the [try]. *)
Definition answer_with_embeddings (h : FAQHandler) (cache : list (Vec B))
    (question : string) : result string :=
  question_embedding <- embed B question ;;
  similarities <- cosine_similarity question_embedding cache ;;
  most_similar_idx <- argmax similarities ;;
  similarity_score <- item similarities most_similar_idx ;;
  let all_questions := get_all_questions (faq_data h) in
  match nth_error all_questions most_similar_idx with
  | Some qa =>
      if Qltb similarity_score (3 # 10) then Ok uncertain_message
      else Ok (answer qa)
  | None => _fallback_answer_question (faq_data h) question
  end.

(** [answer_question] *)
Definition answer_question (h : FAQHandler) (question : string)
  : result string :=
  try_except
    (match model h, question_embeddings h with
     | Some _, Some cache => answer_with_embeddings h cache question
     | _, _ => _fallback_answer_question (faq_data h) question
     end)
    (fun _ => _fallback_answer_question (faq_data h) question).

(** [for idx in top_indices] of [get_similar_questions] *)
Fixpoint collect_similar (all_questions : list QA) (similarities : list Q)
    (top_indices : list nat) : result (list (string * string * Q)) :=
  match top_indices with
  | [] => Ok []
  | idx_item :: rest =>
      match nth_error all_questions idx_item with
      | Some qa =>
          similarity <- item similarities idx_item ;;
          results <- collect_similar all_questions similarities rest ;;
          Ok ((question qa, answer qa, similarity) :: results)
      | None => collect_similar all_questions similarities rest
      end
  end.

(** [get_similar_questions] *)
Definition get_similar_questions (h : FAQHandler) (question : string)
    (top_k : Z) : result (list (string * string * Q)) :=
  try_except
    (match model h, question_embeddings h with
     | Some _, Some cache =>
         question_embedding <- embed B question ;;
         similarities <- cosine_similarity question_embedding cache ;;
         top_indices <- torch_topk similarities
                          (Z.min top_k (Z.of_nat (length similarities))) ;;
         collect_similar (get_all_questions (faq_data h)) similarities
           top_indices
     | _, _ => Ok []
     end)
    (fun _ => Ok []).

(** [add_question] : the embeddings are left as they are. *)
Definition add_question (h : FAQHandler) (fs : Storage)
    (category question answer : string) : bool * FAQHandler * Storage :=
  let '(ok, d', fs') := add_question_data (faq_data h) fs category question answer in
  (ok,
   {| faq_data := d'; model := model h;
      question_embeddings := question_embeddings h;
      questions_list := questions_list h |},
   fs').

End Handler.

Arguments faq_data {B} _.
Arguments model {B} _.
Arguments question_embeddings {B} _.
Arguments questions_list {B} _.
Arguments mkFAQHandler {B} _ _ _ _.

(** ** The lexical score as the specification words it *)

Module LexicalSpec.

(** whitespace-tokenized lowercase words, as a set *)
Definition words (text : string) : WordSet.t :=
  WordSet.of_list (Str.split (Str.lower text)).

Definition common_words (query : string) (qa : QA) : WordSet.t :=
  WordSet.intersection (words query) (words (question qa)).

(** |common words| / max(|query words|, |question words|), rounded to a
    double; zero when no word is common *)
Definition overlap_ratio (query : string) (qa : QA) : spec_float :=
  if WordSet.truthy (common_words query qa)
  then F64.div (F64.of_int (WordSet.len (common_words query qa)))
         (F64.of_int (Z.max (WordSet.len (words query))
                            (WordSet.len (words (question qa)))))
  else F64.zero.

(** does any token of [text] occur in the lowercase query text *)
Definition token_occurs (text query : string) : bool :=
  any_word_in (Str.split (Str.lower text)) (Str.lower query).

(** [x] plus [bonus] when [b] holds *)
Definition plus_if (b : bool) (x bonus : spec_float) : spec_float :=
  if b then F64.add x bonus else x.

Definition score (query : string) (qa : QA) : spec_float :=
  plus_if (token_occurs (answer qa) query)
    (plus_if (token_occurs (question qa) query)
       (overlap_ratio query qa) F64.half)
    F64.three_tenths.

End LexicalSpec.

(** ** Two selections that meet the [topk] contract

    Both sort the positions by non-increasing score and keep the first
    [k]; they differ only in the order of positions with equal scores. *)

Module TopK.

Definition indexed (s : list Q) : list (nat * Q) :=
  combine (seq 0 (length s)) s.

(** [a] may stand before [b] *)
Definition before (low_first : bool) (a b : nat * Q) : bool :=
  Qltb (snd b) (snd a)
  || (Qle_bool (snd b) (snd a)
      && (if low_first then Nat.leb (fst a) (fst b)
          else Nat.leb (fst b) (fst a))).

Fixpoint insert (leb : nat * Q -> nat * Q -> bool) (x : nat * Q)
    (l : list (nat * Q)) : list (nat * Q) :=
  match l with
  | [] => [x]
  | y :: l' => if leb x y then x :: y :: l' else y :: insert leb x l'
  end.

Fixpoint sort (leb : nat * Q -> nat * Q -> bool) (l : list (nat * Q))
  : list (nat * Q) :=
  match l with
  | [] => []
  | x :: l' => insert leb x (sort leb l')
  end.

Definition select (low_first : bool) (s : list Q) (k : nat) : list nat :=
  map fst (firstn k (sort (before low_first) (indexed s))).

End TopK.

(** ** Sample backends and handlers *)

Module Sample.

(** An embedding that keeps the lowercase text; two embeddings are at
    similarity 1 when equal and 0 otherwise. *)
Definition exact_cos (a b : string) : Q :=
  if String.eqb a b then 1%Q else 0%Q.

Definition exact_low : Backend :=
  {| Vec := string;
     embed := fun t => Ok (Str.lower t);
     cos := exact_cos;
     topk_indices := TopK.select true |}.

(** A backend whose model cannot embed anything. *)
Definition broken : Backend :=
  {| Vec := unit;
     embed := fun _ => Raise RuntimeError;
     cos := fun _ _ => 0%Q;
     topk_indices := TopK.select true |}.

Definition no_file : Storage := {| stored := Missing; writable := true |}.
Definition read_only : Storage := {| stored := Missing; writable := false |}.

Definition handler_of (B : Backend) (fs : Storage)
    (loaded : result SentenceTransformer) : FAQHandler B :=
  match __init__ B fs loaded with
  | Ok h => h
  | Raise _ => mkFAQHandler _get_default_faq_data None None []
  end.

(** the handler a fresh installation starts with *)
Definition default_handler : FAQHandler exact_low :=
  handler_of exact_low no_file (Ok all_MiniLM_L6_v2).

(** the same without a model *)
Definition fallback_handler : FAQHandler exact_low :=
  handler_of exact_low no_file (Raise RuntimeError).

Definition corpus_of (qas : list QA) : FaqData :=
  {| categories := Some [("general", {| name := "General"; questions := Some qas |})];
     metadata := Some {| version := "1.0"; last_updated := "2024-01-01";
                         total_questions :=
                           Some (JInt (Z.of_nat (length qas))) |} |}.

(** one entry whose answer is the empty string *)
Definition blank_answer_corpus : FaqData :=
  corpus_of [ {| question := "Is there a manual?"; answer := "" |} ].

Definition blank_answer_handler : FAQHandler exact_low :=
  handler_of exact_low
    {| stored := Document blank_answer_corpus; writable := true |}
    (Ok all_MiniLM_L6_v2).

(** two entries whose scores for "alpha bravo" differ in the last bit:
    0.1 + 0.5 + 0.3 for the first, 0.4 + 0.5 for the second *)
Definition rounding_corpus : FaqData :=
  corpus_of [ {| question := "bravo c1 c2 c3 c4 c5 c6 c7 c8 c9";
                 answer := "alpha first" |};
              {| question := "bravo alpha c3 c4 c5"; answer := "second" |} ].

(** the default handler after one more entry went into the first category *)
Definition stale_handler : FAQHandler exact_low :=
  snd (fst (add_question exact_low default_handler no_file
              "general" "Is there a manual?" "See the help page.")).

(** the default handler after one more entry went into the last category *)
Definition stale_last_handler : FAQHandler exact_low :=
  snd (fst (add_question exact_low default_handler no_file
              "usage" "Is there a manual?" "See the help page.")).

End Sample.

(** ** Properties stated over the model *)

(** The cached embeddings never outnumber the corpus. *)
Definition cache_fits {B : Backend} (h : FAQHandler B) : Prop :=
  match question_embeddings h with
  | Some cache => length cache <= length (get_all_questions (faq_data h))
  | None => True
  end.

(** The triple the shortlist holds for the position [i]. *)
Definition similar_entry (all_questions : list QA) (similarities : list Q)
    (i : nat) : string * string * Q :=
  let qa := nth i all_questions {| question := ""; answer := "" |} in
  (question qa, answer qa, score_at similarities i).

Definition scores_of (results : list (string * string * Q)) : list Q :=
  map snd results.

(** non-increasing *)
Definition descending (l : list Q) : Prop :=
  StronglySorted (fun a b => (b <= a)%Q) l.

(** The score the loop body computes, as a value. *)
Definition score_value (question_lower : string) (qa : QA) : spec_float :=
  match fallback_score question_lower qa with
  | Ok s => s
  | Raise _ => F64.zero
  end.

(** One turn of the loop on [best_match] and [best_score]. *)
Definition fallback_step (question_lower : string) (best : Best) (qa : QA)
  : Best :=
  if F64.ltb (snd best) (score_value question_lower qa)
  then (Some (answer qa), score_value question_lower qa)
  else best.

(** What [best_match] and [best_score] hold once the entries [l] have been
    visited: nothing while no entry scored above zero, otherwise the answer
    and score of the first entry that reaches the highest score. *)
Definition best_of (question_lower : string) (l : list QA) (best : Best)
  : Prop :=
  match fst best with
  | None =>
      snd best = F64.zero
      /\ forall qa, In qa l ->
           F64.ltb F64.zero (score_value question_lower qa) = false
  | Some a =>
      exists i qa,
        nth_error l i = Some qa
        /\ a = answer qa
        /\ snd best = score_value question_lower qa
        /\ F64.ltb F64.zero (snd best) = true
        /\ (forall qa', In qa' l ->
              F64.ltb (snd best) (score_value question_lower qa') = false)
        /\ (forall j qa', j < i -> nth_error l j = Some qa' ->
              F64.ltb (score_value question_lower qa') (snd best) = true)
  end.

(** The number of entries of the flattened corpus, and the computations
    that never lower it. *)
Definition flat_size (cs : list (string * Category)) : nat :=
  length (flat_map (fun kc => get_questions (snd kc)) cs).

Definition corpus_size (d : FaqData) : nat := length (get_all_questions d).

Definition growing {A : Type} (m : Prog A) : Prop :=
  forall d, corpus_size d <= corpus_size (snd (m d)).

(** ** The remaining operations of [FAQHandler] *)

(** One element of the list [search_questions] returns. *)
Record SearchMatch : Type := mkSearchMatch {
  m_question : string;
  m_answer : string;
  m_category : string;
  relevance_score : Z
}.

(** The relevance of one entry: 3 for the question, 1 for the answer. *)
Definition search_score (query_lower : string) (qa : QA) : Z :=
  let question := Str.lower (question qa) in
  let answer := Str.lower (answer qa) in
  let score := 0%Z in
  let score := if Str.contains query_lower question then (score + 3)%Z
               else score in
  let score := if Str.contains query_lower answer then (score + 1)%Z
               else score in
  score.

(** [for qa in category.get("questions", [])] of [search_questions] *)
Definition search_category (query_lower : string) (category : Category)
  : list SearchMatch :=
  flat_map
    (fun qa =>
       let score := search_score query_lower qa in
       if (0 <? score)%Z
       then [ {| m_question := question qa; m_answer := answer qa;
                 m_category := name category; relevance_score := score |} ]
       else [])
    (get_questions category).

(** the list [matches] before it is sorted *)
Definition search_matches (query_lower : string) (d : FaqData)
  : list SearchMatch :=
  flat_map (fun kc => search_category query_lower (snd kc))
    (get_categories_dict d).

Fixpoint insert_match (x : SearchMatch) (l : list SearchMatch)
  : list SearchMatch :=
  match l with
  | [] => [x]
  | y :: l' =>
      if (relevance_score x <? relevance_score y)%Z
      then y :: insert_match x l'
      else x :: y :: l'
  end.

(** [matches.sort(key=lambda x: x["relevance_score"], reverse=True)]:
    Python's sort is stable, also in reverse. *)
Fixpoint sort_matches (l : list SearchMatch) : list SearchMatch :=
  match l with
  | [] => []
  | x :: l' => insert_match x (sort_matches l')
  end.

(** [search_questions] *)
Definition search_questions (d : FaqData) (query : string)
  : list SearchMatch :=
  let query_lower := Str.lower query in
  sort_matches (search_matches query_lower d).

(** [for qa in category.get("questions", [])] of [get_question_answer],
    with its early return *)
Fixpoint find_answer (question_lower : string) (qas : list QA)
  : option string :=
  match qas with
  | [] => None
  | qa :: rest =>
      if String.eqb (Str.lower (question qa)) question_lower
      then Some (answer qa)
      else find_answer question_lower rest
  end.

Fixpoint find_in_categories (question_lower : string) (cats : list Category)
  : option string :=
  match cats with
  | [] => None
  | category :: rest =>
      match find_answer question_lower (get_questions category) with
      | Some a => Some a
      | None => find_in_categories question_lower rest
      end
  end.

(** [get_question_answer] *)
Definition get_question_answer (d : FaqData) (question : string)
  : option string :=
  let question_lower := Str.lower question in
  find_in_categories question_lower (map snd (get_categories_dict d)).

(** The handler states a program can reach: construction, then any number
    of [add_question] calls. *)
Inductive reachable (B : Backend) : FAQHandler B -> Prop :=
| reach_init (fs : Storage) (loaded : result SentenceTransformer)
    (h : FAQHandler B) :
    __init__ B fs loaded = Ok h -> reachable B h
| reach_add (h : FAQHandler B) (fs : Storage)
    (category question answer : string) :
    reachable B h ->
    reachable B (snd (fst (add_question B h fs category question answer))).

(** a string of white space only (the empty string included) *)
Fixpoint blank (s : string) : bool :=
  match s with
  | EmptyString => true
  | String c s' => Str.isspace c && blank s'
  end.

(** The entry [add_question] appends. *)
Definition new_entry (question answer : string) : QA :=
  {| question := question; answer := answer |}.

(** The corpus can take an entry for [category]: the keys [add_question]
    subscripts are there, and the counter is a number. *)
Definition accepts (d : FaqData) (category : string) : Prop :=
  exists cs m v v',
    categories d = Some cs /\ metadata d = Some m
    /\ total_questions m = Some v /\ iadd_one v = Ok v'
    /\ (lookup category cs = None
        \/ exists c qs, lookup category cs = Some c /\ questions c = Some qs).

(** The metadata once [total_questions] holds [v']. *)
Definition bump (m : Metadata) (v' : JValue) : Metadata :=
  {| version := version m; last_updated := last_updated m;
     total_questions := Some v' |}.

(** What [total_questions += 1] makes of the metadata block, or the
    exception it raises. *)
Definition counted (md : option Metadata) : result Metadata :=
  match md with
  | None => Raise KeyError
  | Some m =>
      match total_questions m with
      | None => Raise KeyError
      | Some v =>
          match iadd_one v with
          | Ok v' => Ok (bump m v')
          | Raise e => Raise e
          end
      end
  end.

(** the matches of one relevance, in their order *)
Definition with_score (k : Z) (l : list SearchMatch) : list SearchMatch :=
  filter (fun m => (relevance_score m =? k)%Z) l.

(** the first character exists and is no white space *)
Definition starts_nonspace (t : string) : Prop :=
  match t with
  | EmptyString => False
  | String c _ => Str.isspace c = false
  end.

(** ** The HTTP resources that serve the handler (src/api_docs.py) *)

From Stdlib Require Import Qround.

(** What the body of a resource method ends in: a response, the exception
    of [api.abort(code)], or another exception. *)
Inductive outcome (A : Type) : Type :=
| Respond (a : A)
| Abort (code : Z)
| Fails.
Arguments Respond {A} a.
Arguments Abort {A} code.
Arguments Fails {A}.

(** [try: body  except Exception as e: api.abort(500, ...)]: the exception
    of an abort inside the body is caught like any other. *)
Definition abort_500_on_error {A : Type} (body : outcome A) : outcome A :=
  match body with
  | Respond a => Respond a
  | Abort _ => Abort 500
  | Fails => Abort 500
  end.

(** a handler call inside a resource method *)
Definition call {A C : Type} (r : result A) (k : A -> outcome C) : outcome C :=
  match r with
  | Ok a => k a
  | Raise _ => Fails
  end.

(** A subscript of a stored entry: its keys are the two strings. *)
Inductive subscript : Type :=
| by_key (k : string)
| by_position (n : Z).

(** [qa[k]] on the dictionary of one entry *)
Definition entry_getitem (qa : QA) (k : subscript) : result string :=
  match k with
  | by_key k =>
      if String.eqb k "question" then Ok (question qa)
      else if String.eqb k "answer" then Ok (answer qa)
      else Raise KeyError
  | by_position _ => Raise KeyError
  end.

(** [[{'question': qa[0], 'answer': qa[1]} for qa in all_questions]] *)
Fixpoint list_entries (all_questions : list QA)
  : result (list (string * string)) :=
  match all_questions with
  | [] => Ok []
  | qa :: rest =>
      q <- entry_getitem qa (by_position 0) ;;
      a <- entry_getitem qa (by_position 1) ;;
      rows <- list_entries rest ;;
      Ok ((q, a) :: rows)
  end.

(** [FAQList.get] *)
Definition FAQList_get (d : FaqData) : outcome (list (string * string)) :=
  abort_500_on_error
    (call (list_entries (get_all_questions d)) (fun rows => Respond rows)).

(** The body of the JSON responses of the two question resources. *)
Record FAQResponse : Type := mkFAQResponse {
  success : bool;
  r_answer : string;
  similar_questions : list (string * string * Q);
  confidence : Q
}.

(** [round(x, 3)]: to the nearest multiple of 1/1000, a tie to the even
    one *)
Definition round3 (x : Q) : Q :=
  let y := (x * 1000)%Q in
  let n := Qfloor y in
  let f := (y - inject_Z n)%Q in
  let up := if Qltb (1 # 2) f then true
            else if Qltb f (1 # 2) then false
            else Z.odd n in
  (inject_Z (if up then n + 1 else n) / 1000)%Q.

(** [api.payload]: the parsed JSON body of the request, [JNull] when
    there is none *)
Definition Payload : Type := JValue.

(** [data.get(key, '')]: only a JSON object is a [dict] and has [get] *)
Definition payload_get (data : Payload) (key : string) : result JValue :=
  match data with
  | JObject fields =>
      Ok (match lookup key fields with
          | Some v => v
          | None => JString ""
          end)
  | _ => Raise AttributeError
  end.

Section Resources.

Context (B : Backend).

(** [self.model.encode([v], convert_to_tensor=True)] for a question [v]
    that is not a [str]: what the library makes of such an input is left
    open. *)
Variable encode_value : JValue -> result (Vec B).

(** The embedding path of [answer_question] for a question that is not a
    [str]; the fallback it ends in calls [question.lower()], which such a
    value does not have. *)
Definition answer_with_embeddings_value (h : FAQHandler B)
    (cache : list (Vec B)) (v : JValue) : result string :=
  question_embedding <- encode_value v ;;
  similarities <- cosine_similarity B question_embedding cache ;;
  most_similar_idx <- argmax similarities ;;
  similarity_score <- item similarities most_similar_idx ;;
  let all_questions := get_all_questions (faq_data h) in
  match nth_error all_questions most_similar_idx with
  | Some qa =>
      if Qltb similarity_score (3 # 10) then Ok uncertain_message
      else Ok (answer qa)
  | None => Raise AttributeError
  end.

(** [faq_handler.answer_question(question)] on the value of the request *)
Definition answer_question_of (h : FAQHandler B) (v : JValue)
  : result string :=
  match v with
  | JString question => answer_question B h question
  | _ =>
      try_except
        (match model h, question_embeddings h with
         | Some _, Some cache => answer_with_embeddings_value h cache v
         | _, _ => Raise AttributeError
         end)
        (fun _ => Raise AttributeError)
  end.

(** [faq_handler.get_similar_questions(question, top_k)] on the value of
    the request *)
Definition get_similar_questions_of (h : FAQHandler B) (v : JValue)
    (top_k : Z) : result (list (string * string * Q)) :=
  match v with
  | JString question => get_similar_questions B h question top_k
  | _ =>
      try_except
        (match model h, question_embeddings h with
         | Some _, Some cache =>
             question_embedding <- encode_value v ;;
             similarities <- cosine_similarity B question_embedding cache ;;
             top_indices <- torch_topk B similarities
                              (Z.min top_k (Z.of_nat (length similarities))) ;;
             collect_similar (get_all_questions (faq_data h)) similarities
               top_indices
         | _, _ => Ok []
         end)
        (fun _ => Ok [])
  end.

(** the part of both [post] methods after the checks *)
Definition respond_with (h : FAQHandler B) (question : JValue) (top_k : Z)
    (conf : Q) : outcome FAQResponse :=
  call (answer_question_of h question) (fun answer =>
  call (get_similar_questions_of h question top_k) (fun similar =>
  Respond {| success := true;
             r_answer := answer;
             similar_questions :=
               map (fun qa => (fst (fst qa), snd (fst qa), round3 (snd qa)))
                 similar;
             confidence := conf |})).

(** [FAQSearch.post] *)
Definition FAQSearch_post (h : FAQHandler B) (payload : Payload)
  : outcome FAQResponse :=
  abort_500_on_error
    (call (payload_get payload "question") (fun question =>
       if negb (py_truthy question) then Abort 400
       else respond_with h question 5 (9 # 10))).

(** [ImageQuestion.post] *)
Definition ImageQuestion_post (h : FAQHandler B) (payload : Payload)
  : outcome FAQResponse :=
  abort_500_on_error
    (call (payload_get payload "question") (fun question =>
     call (payload_get payload "filename") (fun filename =>
       if negb (py_truthy question) || negb (py_truthy filename)
       then Abort 400
       else respond_with h question 3 (85 # 100)))).

End Resources.

(** * Proofs *)

(** ** Comparison of scores *)

Lemma Qltb_true (a b : Q) : Qltb a b = true <-> (a < b)%Q.
Proof.
  unfold Qltb. rewrite negb_true_iff. split; intro H.
  - apply Qnot_le_lt. intro Hle. apply Qle_bool_iff in Hle. congruence.
  - destruct (Qle_bool b a) eqn:E; [|reflexivity].
    apply Qle_bool_iff in E. exfalso. exact (Qlt_not_le _ _ H E).
Qed.

Lemma Qltb_false (a b : Q) : Qltb a b = false <-> (b <= a)%Q.
Proof.
  unfold Qltb. rewrite negb_false_iff. apply Qle_bool_iff.
Qed.

(** ** Binary64 arithmetic *)

Section Binary64.

Local Open Scope Z_scope.

Lemma shr_1_nonneg (mrs : shr_record) :
  0 <= shr_m mrs -> 0 <= shr_m (shr_1 mrs).
Proof. destruct mrs as [m r s]. destruct m as [|[p|p|]|p]; simpl; lia. Qed.

Lemma iter_shr_1_nonneg (p : positive) : forall mrs,
  0 <= shr_m mrs -> 0 <= shr_m (iter_pos shr_1 p mrs).
Proof.
  induction p as [p IH|p IH|]; intros mrs H; simpl.
  - apply IH, IH, shr_1_nonneg, H.
  - apply IH, IH, H.
  - apply shr_1_nonneg, H.
Qed.

(** One step to the right halves the mantissa. *)
Lemma shr_1_half (mrs : shr_record) :
  0 <= shr_m mrs -> shr_m (shr_1 mrs) = shr_m mrs / 2.
Proof.
  destruct mrs as [m r s]. destruct m as [|[p|p|]|p]; simpl shr_m; intro H;
    try lia; try reflexivity.
  - apply Z.div_unique with 1; lia.
  - apply Z.div_unique with 0; lia.
Qed.

Lemma iter_shr_1_div (p : positive) : forall mrs,
  0 <= shr_m mrs -> shr_m (iter_pos shr_1 p mrs) = shr_m mrs / 2 ^ Zpos p.
Proof.
  induction p as [p IH|p IH|]; intros mrs H; simpl iter_pos.
  - rewrite IH by (apply iter_shr_1_nonneg, shr_1_nonneg, H).
    rewrite IH by (apply shr_1_nonneg, H).
    rewrite shr_1_half by exact H.
    assert (P : 0 < 2 ^ Zpos p) by (apply Z.pow_pos_nonneg; lia).
    rewrite !Z.div_div by lia.
    f_equal.
    replace (Zpos p~1) with (1 + Zpos p + Zpos p) by lia.
    rewrite !Z.pow_add_r by lia. rewrite Z.pow_1_r. lia.
  - rewrite IH by (apply iter_shr_1_nonneg, H).
    rewrite IH by exact H.
    assert (P : 0 < 2 ^ Zpos p) by (apply Z.pow_pos_nonneg; lia).
    rewrite !Z.div_div by lia.
    f_equal.
    replace (Zpos p~0) with (Zpos p + Zpos p) by lia.
    rewrite !Z.pow_add_r by lia. lia.
  - rewrite shr_1_half by exact H. reflexivity.
Qed.

(** A number of [d] binary digits lies between [2^(d-1)] and [2^d]. *)
Lemma digits2_pos_bounds (p : positive) :
  2 ^ (Zpos (digits2_pos p) - 1) <= Zpos p < 2 ^ Zpos (digits2_pos p).
Proof.
  induction p as [p IH|p IH|]; cbn [digits2_pos].
  - rewrite Pos2Z.inj_succ.
    replace (Z.succ (Zpos (digits2_pos p)) - 1)
      with (Z.succ (Zpos (digits2_pos p) - 1)) by lia.
    rewrite !Z.pow_succ_r by lia. lia.
  - rewrite Pos2Z.inj_succ.
    replace (Z.succ (Zpos (digits2_pos p)) - 1)
      with (Z.succ (Zpos (digits2_pos p) - 1)) by lia.
    rewrite !Z.pow_succ_r by lia. lia.
  - simpl. lia.
Qed.

Lemma digits2_pos_mono (p q : positive) :
  (p <= q)%positive -> Zpos (digits2_pos p) <= Zpos (digits2_pos q).
Proof.
  intro H.
  destruct (Z_le_gt_dec (Zpos (digits2_pos p)) (Zpos (digits2_pos q)))
    as [L|G]; [exact L|exfalso].
  pose proof (digits2_pos_bounds p) as [Hp _].
  pose proof (digits2_pos_bounds q) as [_ Hq].
  assert (2 ^ Zpos (digits2_pos q) <= 2 ^ (Zpos (digits2_pos p) - 1))
    by (apply Z.pow_le_mono_r; lia).
  lia.
Qed.

Lemma iter_xO_digits (m d : positive) :
  Zpos (digits2_pos (Pos.iter xO m d)) = Zpos (digits2_pos m) + Zpos d.
Proof.
  induction d as [|d IH] using Pos.peano_ind.
  - simpl. lia.
  - rewrite Pos.iter_succ. cbn [digits2_pos]. lia.
Qed.

(** Shifting out fewer digits than a number has leaves it positive. *)
Lemma shifted_positive (q p : positive) :
  Zpos p <= Zpos (digits2_pos q) - 1 -> 1 <= Zpos q / 2 ^ Zpos p.
Proof.
  intro H. apply Z.div_le_lower_bound; [apply Z.pow_pos_nonneg; lia|].
  pose proof (digits2_pos_bounds q) as [Hq _].
  assert (2 ^ Zpos p <= 2 ^ (Zpos (digits2_pos q) - 1))
    by (apply Z.pow_le_mono_r; lia).
  lia.
Qed.

Section Rounding.

Variables prec emax : Z.

Lemma round_nearest_even_ge (m : Z) (l : location) :
  m <= round_nearest_even m l.
Proof. destruct l as [|[]]; simpl; try destruct (Z.even m); lia. Qed.

Lemma shr_record_of_loc_m (m : Z) (l : location) :
  shr_m (shr_record_of_loc m l) = m.
Proof. destruct l as [|[]]; reflexivity. Qed.

Lemma shr_nonneg (mrs : shr_record) (e n : Z) :
  0 <= shr_m mrs -> 0 <= shr_m (fst (shr mrs e n)).
Proof.
  destruct n; simpl; auto. apply iter_shr_1_nonneg.
Qed.

(** Rounding a non-negative number gives no NaN and no negative number. *)
Lemma binary_round_aux_nonneg (mx ex : Z) (lx : location) :
  0 <= mx -> F64.nonneg (binary_round_aux prec emax false mx ex lx).
Proof.
  intro H. unfold binary_round_aux, shr_fexp.
  destruct (shr (shr_record_of_loc mx lx) ex _) as [mrs' e'] eqn:E1.
  assert (H1 : 0 <= shr_m mrs').
  { change mrs' with (fst (mrs', e')). rewrite <- E1. apply shr_nonneg.
    rewrite shr_record_of_loc_m. exact H. }
  destruct (shr _ e' _) as [mrs'' e''] eqn:E2.
  assert (H2 : 0 <= shr_m mrs'').
  { change mrs'' with (fst (mrs'', e'')). rewrite <- E2. apply shr_nonneg.
    rewrite shr_record_of_loc_m.
    pose proof (round_nearest_even_ge (shr_m mrs') (loc_of_shr_record mrs')).
    lia. }
  destruct (shr_m mrs'') as [|m|m]; [exact I| |lia].
  destruct (Z.leb _ _); exact I.
Qed.

Lemma binary_round_nonneg (mx : positive) (ex : Z) :
  F64.nonneg (binary_round prec emax false mx ex).
Proof.
  unfold binary_round. destruct (shl_align _ _ _) as [mz ez].
  apply binary_round_aux_nonneg. lia.
Qed.

Lemma SFadd_nonneg (x y : spec_float) :
  F64.nonneg x -> F64.nonneg y -> F64.nonneg (SFadd prec emax x y).
Proof.
  destruct x as [[]|[]| |[] mx ex], y as [[]|[]| |[] my ey];
    cbn [F64.nonneg]; intros Hx Hy; try contradiction; try exact I.
  unfold SFadd, cond_Zopp.
  change (Zpos ?a + Zpos ?b) with (Zpos (a + b)).
  apply binary_round_nonneg.
Qed.

Lemma SFdiv_nonneg (mx : positive) (ex : Z) (my : positive) (ey : Z) :
  F64.nonneg
    (SFdiv prec emax (S754_finite false mx ex) (S754_finite false my ey)).
Proof.
  unfold SFdiv, SFdiv_core_binary.
  set (m' := match _ - _ with Zpos _ => _ | Z0 => _ | Zneg _ => _ end).
  assert (Hm : 0 <= m').
  { subst m'. destruct (_ - _); try lia. apply Z.shiftl_nonneg. lia. }
  destruct (Z.div_eucl m' (Zpos my)) as [q r] eqn:E.
  assert (Hq : q = m' / Zpos my) by (unfold Z.div; rewrite E; reflexivity).
  apply binary_round_aux_nonneg. rewrite Hq. apply Z.div_pos; lia.
Qed.

(** The exponent of a rounded positive number is at least the one its
    magnitude calls for, as long as that is a normal exponent. *)
Lemma binary_round_aux_exponent (mz : positive) (e1 : Z) :
  emin prec emax <= Zpos (digits2_pos mz) + e1 - prec ->
  0 < prec ->
  binary_round_aux prec emax false (Zpos mz) e1 loc_Exact
  = S754_infinity false
  \/ exists m e,
       binary_round_aux prec emax false (Zpos mz) e1 loc_Exact
       = S754_finite false m e
       /\ Zpos (digits2_pos mz) + e1 - prec <= e.
Proof.
  intros Hmin prec_pos.
  pose (d := Zpos (digits2_pos mz)).
  assert (Hd : Zpos (digits2_pos mz) = d) by reflexivity.
  unfold binary_round_aux, shr_fexp.
  cbn [Zdigits2 shr_record_of_loc]. rewrite !Hd in *. clearbody d.
  assert (HF : fexp prec emax (d + e1) = d + e1 - prec)
    by (unfold fexp; lia).
  rewrite HF.
  assert (S1 : exists mrs' e',
             shr {| shr_m := Zpos mz; shr_r := false; shr_s := false |} e1
               (d + e1 - prec - e1) = (mrs', e')
             /\ d + e1 - prec <= e' /\ 1 <= shr_m mrs').
  { unfold shr. destruct (d + e1 - prec - e1) as [|p|p] eqn:Hn.
    - eexists _, _. split; [reflexivity|]. cbn [shr_m]. lia.
    - eexists _, _. split; [reflexivity|]. split; [lia|].
      rewrite iter_shr_1_div by (cbn [shr_m]; lia). cbn [shr_m].
      apply shifted_positive. lia.
    - eexists _, _. split; [reflexivity|]. cbn [shr_m]. lia. }
  destruct S1 as (mrs' & e' & -> & He' & Hm').
  pose proof (round_nearest_even_ge (shr_m mrs') (loc_of_shr_record mrs'))
    as Hr.
  destruct (round_nearest_even (shr_m mrs') (loc_of_shr_record mrs'))
    as [|q|q]; try lia.
  cbn [Zdigits2]. unfold shr.
  destruct (fexp prec emax (Zpos (digits2_pos q) + e') - e') as [|p|p] eqn:Hn.
  - cbn [shr_m]. destruct (Z.leb _ _);
      [right; eexists _, _; split; [reflexivity|lia] | left; reflexivity].
  - rewrite iter_shr_1_div by (cbn [shr_m]; lia). cbn [shr_m].
    assert (Hp : Zpos p <= Zpos (digits2_pos q) - 1).
    { unfold fexp, emin in *. lia. }
    pose proof (shifted_positive q p Hp) as Hq.
    destruct (Zpos q / 2 ^ Zpos p) as [|m|m]; try lia.
    destruct (Z.leb _ _);
      [right; eexists _, _; split; [reflexivity|lia] | left; reflexivity].
  - cbn [shr_m]. destruct (Z.leb _ _);
      [right; eexists _, _; split; [reflexivity|lia] | left; reflexivity].
Qed.

Lemma binary_round_exponent (M : positive) (ez : Z) :
  emin prec emax <= Zpos (digits2_pos M) + ez - prec ->
  0 < prec ->
  binary_round prec emax false M ez = S754_infinity false
  \/ exists m e,
       binary_round prec emax false M ez = S754_finite false m e
       /\ Zpos (digits2_pos M) + ez - prec <= e.
Proof.
  intros Hmin prec_pos. unfold binary_round, shl_align.
  destruct (fexp prec emax (Zpos (digits2_pos M) + ez) - ez) as [|p|p] eqn:Hn.
  - apply binary_round_aux_exponent; assumption.
  - apply binary_round_aux_exponent; assumption.
  - assert (HF : fexp prec emax (Zpos (digits2_pos M) + ez)
                 = Zpos (digits2_pos M) + ez - prec) by (unfold fexp; lia).
    rewrite HF in *.
    pose proof (iter_xO_digits M p) as Hd.
    destruct (binary_round_aux_exponent (Pos.iter xO M p)
                (Zpos (digits2_pos M) + ez - prec))
      as [E|(m & e & E & He)].
    + lia.
    + exact prec_pos.
    + left. exact E.
    + right. exists m, e. split; [exact E|lia].
Qed.

(** A non-negative number added to a positive normal number: the sum has
    at least the exponent that the latter's magnitude calls for. *)
Lemma SFadd_exponent (x : spec_float) (mc : positive) (ec : Z) :
  F64.nonneg x ->
  0 < prec ->
  Zpos (digits2_pos mc) <= prec ->
  emin prec emax <= Zpos (digits2_pos mc) + ec - prec ->
  SFadd prec emax x (S754_finite false mc ec) = S754_infinity false
  \/ exists m e,
       SFadd prec emax x (S754_finite false mc ec) = S754_finite false m e
       /\ Zpos (digits2_pos mc) + ec - prec <= e.
Proof.
  intros Hx prec_pos Hd Hmin.
  destruct x as [[]|[]| |[] mx ex]; cbn [F64.nonneg] in Hx; try contradiction.
  - right. exists mc, ec. split; [reflexivity|lia].
  - left. reflexivity.
  - unfold SFadd, cond_Zopp, binary_normalize.
    change (Zpos ?a + Zpos ?b) with (Zpos (a + b)). cbv iota beta.
    set (ez := Z.min ex ec).
    set (mx' := fst (shl_align mx ex ez)).
    set (mc' := fst (shl_align mc ec ez)).
    assert (Hc : Zpos (digits2_pos mc) + ec <= Zpos (digits2_pos mc') + ez).
    { subst mc'. unfold shl_align.
      destruct (ez - ec) as [|p|p] eqn:Hn; cbn [fst].
      - lia.
      - lia.
      - rewrite iter_xO_digits. lia. }
    assert (Hs : Zpos (digits2_pos mc') <= Zpos (digits2_pos (mx' + mc'))).
    { apply digits2_pos_mono. lia. }
    destruct (binary_round_exponent (mx' + mc') ez) as [E|(m & e & E & He)].
    + lia.
    + exact prec_pos.
    + left. exact E.
    + right. exists m, e. split; [exact E|lia].
Qed.

End Rounding.

(** The comparison of two numbers that are not NaN is the comparison of
    their places in the order. *)
Lemma ltb_key (x y : spec_float) :
  F64.nonneg x -> F64.nonneg y ->
  (F64.ltb x y = true <-> F64.key_lt (F64.key x) (F64.key y)).
Proof.
  destruct x as [[]|[]| |[] mx ex], y as [[]|[]| |[] my ey];
    cbn [F64.nonneg]; intros Hx Hy; try contradiction;
    unfold F64.ltb, SFltb, SFcompare, F64.key_lt; cbn [F64.key fst snd];
    try (split; [intro; try discriminate; lia | intro; try reflexivity; lia]).
  change (Pos.compare_cont Eq mx my) with (Pos.compare mx my).
  destruct (Z.compare_spec ex ey); [destruct (Pos.compare_spec mx my)| |];
    (split; [intro; try discriminate; lia | intro; try reflexivity; lia]).
Qed.

Lemma ltb_false_key (x y : spec_float) :
  F64.nonneg x -> F64.nonneg y ->
  (F64.ltb x y = false <-> ~ F64.key_lt (F64.key x) (F64.key y)).
Proof.
  intros Hx Hy. rewrite <- ltb_key by assumption.
  destruct (F64.ltb x y); split; congruence.
Qed.

Ltac float_order :=
  repeat match goal with
  | H : F64.ltb ?a ?b = true |- _ =>
      apply ltb_key in H; [|assumption|assumption]
  | H : F64.ltb ?a ?b = false |- _ =>
      apply ltb_false_key in H; [|assumption|assumption]
  | |- F64.ltb ?a ?b = true => apply ltb_key; [assumption|assumption|]
  | |- F64.ltb ?a ?b = false => apply ltb_false_key; [assumption|assumption|]
  end;
  unfold F64.key_lt in *;
  repeat match goal with
  | |- context [F64.key ?x] => destruct (F64.key x) as [[? ?] ?]
  | H : context [F64.key ?x] |- _ => destruct (F64.key x) as [[? ?] ?]
  end; cbn [fst snd] in *; lia.

Lemma ltb_irrefl (x : spec_float) : F64.nonneg x -> F64.ltb x x = false.
Proof. intro Hx. float_order. Qed.

Lemma ltb_trans (x y z : spec_float) :
  F64.nonneg x -> F64.nonneg y -> F64.nonneg z ->
  F64.ltb x y = true -> F64.ltb y z = true -> F64.ltb x z = true.
Proof. intros Hx Hy Hz H1 H2. float_order. Qed.

(** [x <= y] is [F64.ltb y x = false]. *)
Lemma le_ltb_trans (x y z : spec_float) :
  F64.nonneg x -> F64.nonneg y -> F64.nonneg z ->
  F64.ltb y x = false -> F64.ltb y z = true -> F64.ltb x z = true.
Proof. intros Hx Hy Hz H1 H2. float_order. Qed.

Lemma ltb_le_trans (x y z : spec_float) :
  F64.nonneg x -> F64.nonneg y -> F64.nonneg z ->
  F64.ltb x y = true -> F64.ltb z y = false -> F64.ltb x z = true.
Proof. intros Hx Hy Hz H1 H2. float_order. Qed.

Lemma ltb_asym (x y : spec_float) :
  F64.nonneg x -> F64.nonneg y ->
  F64.ltb x y = true -> F64.ltb y x = false.
Proof. intros Hx Hy H1. float_order. Qed.

End Binary64.

Lemma add_nonneg (x y : spec_float) :
  F64.nonneg x -> F64.nonneg y -> F64.nonneg (F64.add x y).
Proof. apply SFadd_nonneg. Qed.

(** Adding to the integer zero changes nothing. *)
Lemma add_zero_l (x : spec_float) : F64.nonneg x -> F64.add F64.zero x = x.
Proof.
  destruct x as [[]|[]| |[] m e]; cbn [F64.nonneg]; intro H;
    try contradiction; reflexivity.
Qed.

(** The quotient of two positive integers is a number, not below zero. *)
Lemma div_of_int_nonneg (a b : Z) :
  (0 < a)%Z -> (0 < b)%Z -> F64.nonneg (F64.div (F64.of_int a) (F64.of_int b)).
Proof.
  intros Ha Hb. destruct a as [|a|a]; try lia. destruct b as [|b|b]; try lia.
  apply SFdiv_nonneg.
Qed.

(** Whatever stood there before, once 0.5 or 0.3 has been added the score
    passes the test [> 0.2]: the sum is a double of exponent -54 at least,
    and 0.2 has exponent -55. *)
Lemma bonus_passes (x : spec_float) :
  F64.nonneg x ->
  F64.ltb F64.one_fifth (F64.add x F64.half) = true
  /\ F64.ltb F64.one_fifth (F64.add x F64.three_tenths) = true.
Proof.
  intro Hx.
  assert (Hp : (0 < F64.prec)%Z) by reflexivity.
  assert (Hlt : forall e, (-54 <= e)%Z -> (-55 ?= e)%Z = Lt)
    by (intros e He; apply Z.compare_lt_iff; lia).
  split.
  - assert (Hd : (Zpos (digits2_pos 4503599627370496) <= F64.prec)%Z)
      by (vm_compute; discriminate).
    assert (Hm : (emin F64.prec F64.emax
                  <= Zpos (digits2_pos 4503599627370496) + -53 - F64.prec)%Z)
      by (vm_compute; discriminate).
    destruct (SFadd_exponent F64.prec F64.emax x 4503599627370496 (-53)
                Hx Hp Hd Hm) as [E|(m & e & E & He)];
      unfold F64.add, F64.half; rewrite E; [reflexivity|].
    unfold F64.ltb, SFltb, SFcompare, F64.one_fifth.
    rewrite Hlt; [reflexivity|].
    change (Zpos (digits2_pos 4503599627370496) + -53 - F64.prec)%Z
      with (-53)%Z in He. lia.
  - assert (Hd : (Zpos (digits2_pos 5404319552844595) <= F64.prec)%Z)
      by (vm_compute; discriminate).
    assert (Hm : (emin F64.prec F64.emax
                  <= Zpos (digits2_pos 5404319552844595) + -54 - F64.prec)%Z)
      by (vm_compute; discriminate).
    destruct (SFadd_exponent F64.prec F64.emax x 5404319552844595 (-54)
                Hx Hp Hd Hm) as [E|(m & e & E & He)];
      unfold F64.add, F64.three_tenths; rewrite E; [reflexivity|].
    unfold F64.ltb, SFltb, SFcompare, F64.one_fifth.
    rewrite Hlt; [reflexivity|].
    change (Zpos (digits2_pos 5404319552844595) + -54 - F64.prec)%Z
      with (-54)%Z in He. lia.
Qed.

(** ** The lexical fallback *)

Lemma intersection_truthy_left (a b : WordSet.t) :
  WordSet.truthy (WordSet.intersection a b) = true -> (0 < WordSet.len a)%Z.
Proof.
  unfold WordSet.intersection, WordSet.len.
  destruct a as [|w a]; simpl; [discriminate | lia].
Qed.

Lemma truthy_len (s : WordSet.t) :
  WordSet.truthy s = true -> (0 < WordSet.len s)%Z.
Proof. unfold WordSet.len. destruct s; simpl; [discriminate | lia]. Qed.

Lemma str_app_assoc (a b c : string) :
  ((a ++ b) ++ c = a ++ (b ++ c))%string.
Proof. induction a as [|x a IH]; simpl; [reflexivity | f_equal; exact IH]. Qed.

Lemma str_app_nil_r (a : string) : (a ++ "" = a)%string.
Proof. induction a as [|x a IH]; simpl; [reflexivity | f_equal; exact IH]. Qed.

Lemma startswith_app (w b : string) : Str.startswith w (w ++ b)%string = true.
Proof.
  induction w as [|c w IH]; simpl; [reflexivity|].
  rewrite Ascii.eqb_refl. exact IH.
Qed.

Lemma contains_app (a w b : string) :
  Str.contains w (a ++ w ++ b)%string = true.
Proof.
  induction a as [|c a IH]; simpl.
  - destruct (w ++ b)%string eqn:E; simpl.
    + rewrite <- E, startswith_app. reflexivity.
    + rewrite <- E, startswith_app. reflexivity.
  - rewrite IH. apply orb_true_r.
Qed.

Lemma split_from_substring (s cur t : string) :
  In t (Str.split_from cur s) ->
  exists a b, (cur ++ s = a ++ t ++ b)%string.
Proof.
  revert cur. induction s as [|c s IH]; intros cur Hin; simpl in Hin.
  - destruct cur; simpl in Hin; [destruct Hin|].
    destruct Hin as [<-|[]]. exists ""%string, ""%string.
    simpl. rewrite !str_app_nil_r. reflexivity.
  - destruct (Str.isspace c).
    + assert (Hrest : In t (Str.split_from "" s) ->
                      exists a b, (cur ++ String c s = a ++ t ++ b)%string).
      { intro H. destruct (IH _ H) as (a & b & E). simpl in E.
        exists (cur ++ String c a)%string, b.
        rewrite str_app_assoc. simpl. rewrite E. reflexivity. }
      destruct cur; simpl in Hin; [apply Hrest, Hin|].
      destruct Hin as [<-|Hin]; [|apply Hrest, Hin].
      exists ""%string, (String c s). reflexivity.
    + destruct (IH _ Hin) as (a & b & E).
      exists a, b. rewrite <- E, str_app_assoc. reflexivity.
Qed.

(** A token of a text occurs in the text. *)
Lemma split_token_contained (s t : string) :
  In t (Str.split s) -> Str.contains t s = true.
Proof.
  intro H. destruct (split_from_substring s "" t H) as (a & b & E).
  simpl in E. rewrite E. apply contains_app.
Qed.

(** A common word is a token of the question that occurs in the query. *)
Lemma common_word_occurs (ql fq : string) :
  WordSet.truthy
    (WordSet.intersection (WordSet.of_list (Str.split ql))
       (WordSet.of_list (Str.split fq))) = true ->
  any_word_in (Str.split fq) ql = true.
Proof.
  intro H.
  destruct (WordSet.intersection _ _) as [|w ws] eqn:E; [discriminate|].
  assert (Hin : In w (WordSet.intersection (WordSet.of_list (Str.split ql))
                        (WordSet.of_list (Str.split fq))))
    by (rewrite E; left; reflexivity).
  unfold WordSet.intersection in Hin. apply filter_In in Hin.
  destruct Hin as [Hq Hf]. unfold WordSet.of_list in *.
  apply nodup_In in Hq. unfold WordSet.mem in Hf.
  destruct (in_dec string_dec w (nodup string_dec (Str.split fq)))
    as [Hw|]; [|discriminate].
  apply nodup_In in Hw.
  unfold any_word_in. apply existsb_exists. exists w.
  split; [exact Hw | apply split_token_contained, Hq].
Qed.

(** The division of the loop body is guarded, so the score is always
    defined: it is the ratio, a number not below zero, with 0.5 and 0.3
    added in this order; a ratio other than zero brings the 0.5 with it. *)
Lemma fallback_score_parts (ql : string) (qa : QA) :
  let b1 := any_word_in (Str.split (Str.lower (question qa))) ql in
  let b2 := any_word_in (Str.split (Str.lower (answer qa))) ql in
  exists r,
    fallback_score ql qa
    = Ok (LexicalSpec.plus_if b2 (LexicalSpec.plus_if b1 r F64.half)
            F64.three_tenths)
    /\ F64.nonneg r
    /\ (r = F64.zero \/ b1 = true)
    /\ r = (let qw := WordSet.of_list (Str.split ql) in
            let fw := WordSet.of_list (Str.split (Str.lower (question qa))) in
            let common := WordSet.intersection qw fw in
            if WordSet.truthy common
            then F64.div (F64.of_int (WordSet.len common))
                   (F64.of_int (Z.max (WordSet.len qw) (WordSet.len fw)))
            else F64.zero).
Proof.
  intros b1 b2. unfold fallback_score. fold b1 b2. cbv zeta.
  set (qw := WordSet.of_list (Str.split ql)).
  set (fw := WordSet.of_list (Str.split (Str.lower (question qa)))).
  destruct (WordSet.truthy (WordSet.intersection qw fw)) eqn:Hc.
  - assert (Hb1 : b1 = true) by (apply common_word_occurs, Hc).
    pose proof (intersection_truthy_left _ _ Hc) as Hpos.
    pose proof (truthy_len _ Hc) as Hlen.
    unfold truediv.
    destruct (Z.max (WordSet.len qw) (WordSet.len fw) =? 0)%Z eqn:Hz;
      [apply Z.eqb_eq in Hz; lia|].
    apply Z.eqb_neq in Hz.
    assert (Hr : F64.nonneg
                   (F64.div (F64.of_int (WordSet.len (WordSet.intersection qw fw)))
                      (F64.of_int (Z.max (WordSet.len qw) (WordSet.len fw)))))
      by (apply div_of_int_nonneg; lia).
    cbn [bind]. rewrite (add_zero_l _ Hr).
    eexists. split; [reflexivity|]. split; [exact Hr|].
    split; [right; exact Hb1 | reflexivity].
  - cbn [bind]. exists F64.zero. split; [reflexivity|].
    split; [exact I|]. split; [left; reflexivity | reflexivity].
Qed.

(** The score of the loop body is the sum the specification gives. *)
Lemma fallback_score_defined (query : string) (qa : QA) :
  exists s, fallback_score (Str.lower query) qa = Ok s
            /\ s = LexicalSpec.score query qa.
Proof.
  destruct (fallback_score_parts (Str.lower query) qa)
    as (r & Hs & _ & _ & Hr).
  cbv zeta in Hs, Hr. eexists. split; [exact Hs|].
  unfold LexicalSpec.score, LexicalSpec.overlap_ratio,
    LexicalSpec.common_words, LexicalSpec.token_occurs, LexicalSpec.words.
  rewrite <- Hr. reflexivity.
Qed.

Lemma fallback_score_ok (question_lower : string) (qa : QA) :
  fallback_score question_lower qa = Ok (score_value question_lower qa).
Proof.
  unfold score_value.
  destruct (fallback_score_parts question_lower qa) as (r & Hs & _).
  cbv zeta in Hs. rewrite Hs. reflexivity.
Qed.

Lemma score_value_spec (query : string) (qa : QA) :
  score_value (Str.lower query) qa = LexicalSpec.score query qa.
Proof.
  destruct (fallback_score_defined query qa) as [s [Hs Heq]].
  unfold score_value. rewrite Hs. exact Heq.
Qed.

Lemma plus_if_nonneg (b : bool) (x c : spec_float) :
  F64.nonneg x -> F64.nonneg c -> F64.nonneg (LexicalSpec.plus_if b x c).
Proof.
  intros Hx Hc. unfold LexicalSpec.plus_if.
  destruct b; [apply add_nonneg; assumption | exact Hx].
Qed.

(** A score is never NaN and never below zero. *)
Lemma score_value_nonneg (ql : string) (qa : QA) :
  F64.nonneg (score_value ql qa).
Proof.
  unfold score_value.
  destruct (fallback_score_parts ql qa) as (r & Hs & Hr & _).
  cbv zeta in Hs. rewrite Hs.
  apply plus_if_nonneg; [apply plus_if_nonneg|]; try exact I. exact Hr.
Qed.

(** A score is exactly zero when no token of the entry occurs in the query
    text, and above 0.2 otherwise. *)
Lemma score_value_range (ql : string) (qa : QA) :
  (any_word_in (Str.split (Str.lower (question qa))) ql = false ->
   any_word_in (Str.split (Str.lower (answer qa))) ql = false ->
   score_value ql qa = F64.zero)
  /\ (any_word_in (Str.split (Str.lower (question qa))) ql = true
      \/ any_word_in (Str.split (Str.lower (answer qa))) ql = true ->
      F64.ltb F64.one_fifth (score_value ql qa) = true).
Proof.
  unfold score_value.
  destruct (fallback_score_parts ql qa) as (r & Hs & Hr & Hb & _).
  cbv zeta in Hs, Hb. rewrite Hs. unfold LexicalSpec.plus_if. split.
  - intros E1 E2. rewrite E1, E2.
    destruct Hb as [Hb|Hb]; [exact Hb | congruence].
  - intro Htok.
    destruct (any_word_in (Str.split (Str.lower (answer qa))) ql).
    + apply bonus_passes.
      destruct (any_word_in (Str.split (Str.lower (question qa))) ql);
        [apply add_nonneg; [exact Hr | exact I] | exact Hr].
    + destruct (any_word_in (Str.split (Str.lower (question qa))) ql).
      * apply bonus_passes, Hr.
      * destruct Htok; discriminate.
Qed.

Lemma fallback_inner_fold (ql : string) (qas : list QA) (best : Best) :
  fallback_inner ql qas best = Ok (fold_left (fallback_step ql) qas best).
Proof.
  revert best. induction qas as [|qa rest IH]; intro best; simpl.
  - reflexivity.
  - rewrite fallback_score_ok. simpl. unfold fallback_step at 2.
    destruct (F64.ltb (snd best) (score_value ql qa)); apply IH.
Qed.

Lemma fallback_outer_fold (ql : string) (cats : list (string * Category))
    (best : Best) :
  fallback_outer ql (map snd cats) best
  = Ok (fold_left (fallback_step ql)
          (flat_map (fun kc => get_questions (snd kc)) cats) best).
Proof.
  revert best. induction cats as [|[k c] rest IH]; intro best; simpl.
  - reflexivity.
  - rewrite fallback_inner_fold. simpl. rewrite IH.
    rewrite fold_left_app. reflexivity.
Qed.

(** The fallback is a fold of the loop step over the flattened corpus. *)
Lemma fallback_answer_fold (d : FaqData) (query : string) :
  _fallback_answer_question d query
  = Ok (fallback_select
          (fold_left (fallback_step (Str.lower query)) (get_all_questions d)
             (None, F64.zero))).
Proof.
  unfold _fallback_answer_question, get_all_questions.
  rewrite fallback_outer_fold. reflexivity.
Qed.

Lemma best_of_nonneg (ql : string) (l : list QA) (best : Best) :
  best_of ql l best ->
  F64.nonneg (snd best) /\ F64.ltb (snd best) F64.zero = false.
Proof.
  unfold best_of. intro H. destruct (fst best) as [a|].
  - destruct H as (i & qa & _ & _ & Hs & Hp & _).
    assert (Hn : F64.nonneg (snd best))
      by (rewrite Hs; apply score_value_nonneg).
    split; [exact Hn|]. apply ltb_asym; [exact I | exact Hn | exact Hp].
  - destruct H as [H0 _]. rewrite H0. split; [exact I | reflexivity].
Qed.

Lemma best_of_step (ql : string) (l : list QA) (best : Best) (x : QA) :
  best_of ql l best -> best_of ql (l ++ [x]) (fallback_step ql best x).
Proof.
  intro H. destruct (best_of_nonneg _ _ _ H) as [Hn H0].
  pose proof (score_value_nonneg ql x) as Hx.
  revert H. unfold best_of, fallback_step. intro H.
  destruct (F64.ltb (snd best) (score_value ql x)) eqn:Hcmp.
  - (* the new entry takes over *)
    cbn [fst snd].
    exists (length l), x.
    assert (Hall : forall qa', In qa' l ->
                     F64.ltb (snd best) (score_value ql qa') = false).
    { destruct (fst best) as [a|].
      - destruct H as (i & qa & _ & _ & _ & _ & Hmax & _). exact Hmax.
      - destruct H as [Hz Hmax]. intros qa' Hin. rewrite Hz.
        apply Hmax, Hin. }
    repeat split.
    + rewrite nth_error_app2 by lia. rewrite Nat.sub_diag. reflexivity.
    + apply (le_ltb_trans F64.zero (snd best)); try assumption. exact I.
    + intros qa' Hin. apply in_app_or in Hin. destruct Hin as [Hin|[<-|[]]].
      * apply ltb_asym; [apply score_value_nonneg | exact Hx |].
        apply (le_ltb_trans _ (snd best));
          [apply score_value_nonneg | exact Hn | exact Hx
          | apply Hall, Hin | exact Hcmp].
      * apply ltb_irrefl, Hx.
    + intros j qa' Hj Hnth. rewrite nth_error_app1 in Hnth by lia.
      apply nth_error_In in Hnth.
      apply (le_ltb_trans _ (snd best));
        [apply score_value_nonneg | exact Hn | exact Hx
        | apply Hall, Hnth | exact Hcmp].
  - (* the earlier best stays *)
    destruct (fst best) as [a|].
    + destruct H as (i & qa & Hnth & Ha & Hs & Hp & Hmax & Hfirst).
      exists i, qa.
      assert (Hi : i < length l) by (apply nth_error_Some; congruence).
      repeat split; try assumption.
      * rewrite nth_error_app1 by lia. exact Hnth.
      * intros qa' Hin. apply in_app_or in Hin. destruct Hin as [Hin|[<-|[]]].
        -- apply Hmax, Hin.
        -- exact Hcmp.
      * intros j qa' Hj Hnth'. rewrite nth_error_app1 in Hnth' by lia.
        eapply Hfirst; eassumption.
    + destruct H as [Hz Hmax]. split; [exact Hz|].
      intros qa' Hin. apply in_app_or in Hin. destruct Hin as [Hin|[<-|[]]].
      * apply Hmax, Hin.
      * rewrite <- Hz. exact Hcmp.
Qed.

(** The loop ends with the first entry of highest score, if any scored. *)
Lemma fallback_loop_best (ql : string) (l : list QA) :
  best_of ql l (fold_left (fallback_step ql) l (None, F64.zero)).
Proof.
  induction l as [|x l IH] using rev_ind.
  - simpl. split; [reflexivity | intros qa []].
  - rewrite fold_left_app. simpl. apply best_of_step, IH.
Qed.

Lemma fallback_select_low (best : Best) :
  F64.ltb F64.one_fifth (snd best) = false ->
  fallback_select best = uncertain_message.
Proof.
  intro Hle. unfold fallback_select.
  destruct (fst best) as [a|]; [|reflexivity].
  rewrite Hle, andb_false_r. reflexivity.
Qed.

(** C4, as the code has it.  In fallback mode the score of every entry is
    defined and equals, in double arithmetic, the word-overlap ratio plus
    0.5 when a question token occurs in the query text plus 0.3 when an
    answer token does.  The answer operation returns the uncertain-answer
    message when the corpus is empty or no entry scores above 0.2.  An
    entry that scores above 0.2, at least as high as every entry and
    strictly higher than every entry before it, is the winner: its answer
    text is returned when it is not the empty string, and the
    uncertain-answer message when it is. *)
Theorem fallback_scoring_and_selection (d : FaqData) (query : string) :
  (forall qa, exists s,
      fallback_score (Str.lower query) qa = Ok s
      /\ s = LexicalSpec.score query qa)
  /\ exists out,
      _fallback_answer_question d query = Ok out
      /\ (get_all_questions d = [] -> out = uncertain_message)
      /\ ((forall qa, In qa (get_all_questions d) ->
             F64.ltb F64.one_fifth (LexicalSpec.score query qa) = false) ->
          out = uncertain_message)
      /\ (forall i qa,
             nth_error (get_all_questions d) i = Some qa ->
             F64.ltb F64.one_fifth (LexicalSpec.score query qa) = true ->
             (forall qa', In qa' (get_all_questions d) ->
                F64.ltb (LexicalSpec.score query qa)
                  (LexicalSpec.score query qa') = false) ->
             (forall j qa', j < i ->
                nth_error (get_all_questions d) j = Some qa' ->
                F64.ltb (LexicalSpec.score query qa')
                  (LexicalSpec.score query qa) = true) ->
             out = if Str.truthy (answer qa) then answer qa
                   else uncertain_message).
Proof.
  split; [intro qa; apply fallback_score_defined|].
  rewrite fallback_answer_fold.
  set (ql := Str.lower query).
  set (all := get_all_questions d).
  pose proof (fallback_loop_best ql all) as Hbest.
  set (best := fold_left (fallback_step ql) all (None, F64.zero)) in *.
  eexists. split; [reflexivity|]. split; [|split].
  - intro Hnil. subst best. rewrite Hnil. reflexivity.
  - intro Hlow. unfold best_of in Hbest.
    destruct (fst best) as [a|] eqn:Hf.
    + destruct Hbest as (i & qa & Hnth & _ & Hs & _).
      apply fallback_select_low. rewrite Hs. subst ql.
      rewrite score_value_spec. apply Hlow.
      eapply nth_error_In, Hnth.
    + unfold fallback_select. rewrite Hf. reflexivity.
  - intros i qa Hnth Hhigh Hmax Hfirst. unfold best_of in Hbest.
    destruct (fst best) as [a|] eqn:Hf.
    + destruct Hbest as (i' & qa' & Hnth' & Ha & Hs & _ & Hmax' & Hfirst').
      assert (Hii : i' = i).
      { destruct (Nat.lt_trichotomy i' i) as [Hlt|[Heq|Hgt]];
          [exfalso | exact Heq | exfalso].
        - pose proof (Hfirst _ _ Hlt Hnth') as H1.
          pose proof (Hmax' qa (nth_error_In _ _ Hnth)) as H2.
          rewrite Hs in H2. subst ql.
          rewrite !score_value_spec in H2. congruence.
        - pose proof (Hfirst' _ _ Hgt Hnth) as H1.
          pose proof (Hmax qa' (nth_error_In _ _ Hnth')) as H2.
          rewrite Hs in H1. subst ql.
          rewrite !score_value_spec in H1. congruence. }
      subst i'. assert (qa' = qa) by congruence. subst qa'.
      unfold fallback_select. rewrite Hf. subst a.
      assert (Hc : F64.ltb F64.one_fifth (snd best) = true).
      { rewrite Hs. subst ql. rewrite score_value_spec. exact Hhigh. }
      rewrite Hc, andb_true_r. reflexivity.
    + exfalso. destruct Hbest as [_ Hle].
      pose proof (Hle qa (nth_error_In _ _ Hnth)) as H1.
      pose proof (score_value_nonneg ql qa) as Hn. subst ql.
      rewrite score_value_spec in H1, Hn.
      assert (H2 : F64.ltb F64.zero (LexicalSpec.score query qa) = true).
      { apply (ltb_trans _ F64.one_fifth); try exact I; try assumption.
        reflexivity. }
      congruence.
Qed.

(** Two runs without a model.  On the default corpus "upload image" is
    answered by the entry "How do I upload a photo?".  On a corpus whose
    two entries score 0.1 + 0.5 + 0.3 = 0.8999999999999999 and
    0.4 + 0.5 = 0.9 for "alpha bravo", the second entry is the winner. *)
Lemma fallback_upload_image :
  _fallback_answer_question _get_default_faq_data "upload image"
  = Ok "You can upload photos through the web interface by clicking the upload button and selecting an image file from your device."
  /\ _fallback_answer_question Sample.rounding_corpus "alpha bravo"
     = Ok "second".
Proof.
  split.
  - destruct (fallback_scoring_and_selection _get_default_faq_data
                "upload image") as [_ [out [Hout [_ [_ Hwin]]]]].
    rewrite Hout. f_equal.
    apply (Hwin 1
             {| question := "How do I upload a photo?";
                answer := "You can upload photos through the web interface by clicking the upload button and selecting an image file from your device." |}).
    + reflexivity.
    + vm_compute. reflexivity.
    + apply Forall_forall. unfold get_all_questions.
      cbn [get_categories_dict categories _get_default_faq_data flat_map
           get_questions questions snd app].
      repeat constructor; vm_compute; reflexivity.
    + intros j qa' Hj Hnth.
      destruct j as [|[|j]]; [|lia|lia].
      cbv in Hnth. injection Hnth as <-. vm_compute. reflexivity.
  - destruct (fallback_scoring_and_selection Sample.rounding_corpus
                "alpha bravo") as [_ [out [Hout [_ [_ Hwin]]]]].
    rewrite Hout. f_equal.
    apply (Hwin 1 {| question := "bravo alpha c3 c4 c5"; answer := "second" |}).
    + reflexivity.
    + vm_compute. reflexivity.
    + apply Forall_forall. unfold get_all_questions.
      cbn [get_categories_dict categories Sample.rounding_corpus
           Sample.corpus_of flat_map get_questions questions snd app].
      repeat constructor; vm_compute; reflexivity.
    + intros j qa' Hj Hnth.
      destruct j as [|[|j]]; [|lia|lia].
      cbv in Hnth. injection Hnth as <-. vm_compute. reflexivity.
Defined.

(** C4 as stated fails: the only entry of the corpus scores 1.8 for its
    own question, above 0.2 and above every other entry, and its answer is
    the empty string; the fallback returns the uncertain-answer message
    and not the winner's answer. *)
Lemma fallback_winner_with_empty_answer :
  let qa := {| question := "Is there a manual?"; answer := "" |} in
  get_all_questions Sample.blank_answer_corpus = [qa]
  /\ F64.ltb F64.one_fifth (LexicalSpec.score "Is there a manual?" qa) = true
  /\ _fallback_answer_question Sample.blank_answer_corpus "Is there a manual?"
     = Ok uncertain_message
  /\ ~ (forall (d : FaqData) (query : string) (i : nat) (qa : QA),
          nth_error (get_all_questions d) i = Some qa ->
          F64.ltb F64.one_fifth (LexicalSpec.score query qa) = true ->
          (forall qa', In qa' (get_all_questions d) ->
             F64.ltb (LexicalSpec.score query qa)
               (LexicalSpec.score query qa') = false) ->
          (forall j qa', j < i ->
             nth_error (get_all_questions d) j = Some qa' ->
             F64.ltb (LexicalSpec.score query qa')
               (LexicalSpec.score query qa) = true) ->
          _fallback_answer_question d query = Ok (answer qa)).
Proof.
  cbv zeta.
  assert (E : _fallback_answer_question Sample.blank_answer_corpus
                "Is there a manual?" = Ok uncertain_message)
    by (vm_compute; reflexivity).
  split; [reflexivity|]. split; [vm_compute; reflexivity|].
  split; [exact E|].
  intro H.
  specialize (H Sample.blank_answer_corpus "Is there a manual?" 0
                {| question := "Is there a manual?"; answer := "" |}).
  rewrite E in H.
  assert (Hbad : Ok uncertain_message = Ok (answer {| question := "Is there a manual?"; answer := "" |})).
  { apply H.
    - reflexivity.
    - vm_compute. reflexivity.
    - intros qa' [<-|[]]. vm_compute. reflexivity.
    - intros j qa' Hj. lia. }
  discriminate Hbad.
Qed.

Lemma uncertain_message_truthy : uncertain_message <> "".
Proof. discriminate. Qed.

(** What the fallback hands back is the fixed message or a stored answer
    that passed the truth test. *)
Lemma fallback_select_cases (ql : string) (l : list QA) (best : Best) :
  best_of ql l best ->
  fallback_select best = uncertain_message
  \/ (In (fallback_select best) (map answer l)
      /\ fallback_select best <> "").
Proof.
  unfold best_of, fallback_select. intro H.
  destruct (fst best) as [a|]; [|left; reflexivity].
  destruct H as (i & qa & Hnth & Ha & _).
  destruct (Str.truthy a) eqn:Ht; simpl; [|left; reflexivity].
  destruct (F64.ltb F64.one_fifth (snd best)); [|left; reflexivity].
  right. split.
  - subst a. apply in_map. eapply nth_error_In, Hnth.
  - intro E. rewrite E in Ht. discriminate.
Qed.

Lemma fallback_answer_cases (d : FaqData) (query : string) :
  exists out,
    _fallback_answer_question d query = Ok out
    /\ out <> ""
    /\ (out = uncertain_message \/ In out (map answer (get_all_questions d))).
Proof.
  rewrite fallback_answer_fold. eexists. split; [reflexivity|].
  destruct (fallback_select_cases _ _ _
              (fallback_loop_best (Str.lower query) (get_all_questions d)))
    as [E|[Hin Hne]].
  - rewrite E. split; [apply uncertain_message_truthy | left; reflexivity].
  - split; [exact Hne | right; exact Hin].
Qed.

Section AnswerPath.

Context (B : Backend).

(** Every way through [answer_question]: the fallback, or the thresholded
    answer of the entry that stands at the matched position now. *)
Lemma answer_question_cases (h : FAQHandler B) (q : string) :
  answer_question B h q = _fallback_answer_question (faq_data h) q
  \/ exists idx qa,
       nth_error (get_all_questions (faq_data h)) idx = Some qa
       /\ (answer_question B h q = Ok uncertain_message
           \/ answer_question B h q = Ok (answer qa)).
Proof.
  destruct (fallback_answer_cases (faq_data h) q) as (out & Hout & _).
  unfold answer_question.
  destruct (model h) as [m|]; [|left; rewrite Hout; reflexivity].
  destruct (question_embeddings h) as [cache|];
    [|left; rewrite Hout; reflexivity].
  unfold answer_with_embeddings.
  destruct (embed B q) as [qe|e]; simpl; [|left; reflexivity].
  destruct (cosine_similarity B qe cache) as [sims|e]; simpl;
    [|left; reflexivity].
  destruct (argmax sims) as [idx|e]; simpl; [|left; reflexivity].
  destruct (item sims idx) as [s|e]; simpl; [|left; reflexivity].
  destruct (nth_error (get_all_questions (faq_data h)) idx) as [qa|] eqn:Hnth.
  - right. exists idx, qa. split; [exact Hnth|].
    destruct (Qltb s (3 # 10)); simpl; [left | right]; reflexivity.
  - left. rewrite Hout. reflexivity.
Qed.

(** C10. The string returned by [answer_question] is the answer field of
    an entry of the corpus as it is now, or the fixed message; this holds
    for every backend, handler state and query, on the embedding path and
    on the fallback path, and a result is always returned. *)
Theorem answer_is_stored_or_fixed (h : FAQHandler B) (q : string) :
  exists out,
    answer_question B h q = Ok out
    /\ (out = uncertain_message
        \/ In out (map answer (get_all_questions (faq_data h)))).
Proof.
  destruct (answer_question_cases h q) as [E|(idx & qa & Hnth & [E|E])].
  - destruct (fallback_answer_cases (faq_data h) q) as (out & Hout & _ & Hc).
    exists out. rewrite E. split; assumption.
  - exists uncertain_message. split; [exact E | left; reflexivity].
  - exists (answer qa). split; [exact E|]. right.
    apply in_map. eapply nth_error_In, Hnth.
Qed.


End AnswerPath.


(** C1, evaluated at a failing input.  The corpus holds one entry whose
    answer is the empty string, and the query is that entry's question.
    With the model loaded the embedding path matches the entry at
    similarity 1 and returns its answer as it is: the empty string.  The
    fallback path, given the same corpus and the same query, selects the
    same entry with a score above 0.2 and returns the fixed message, which
    is not empty, because it tests the answer for truth before returning
    it. *)
Theorem embedding_path_returns_empty_answer :
  let h := Sample.blank_answer_handler in
  let q := "Is there a manual?" in
  model h = Some all_MiniLM_L6_v2
  /\ get_all_questions (faq_data h) = [ {| question := q; answer := "" |} ]
  /\ answer_question Sample.exact_low h q = Ok ""
  /\ F64.ltb F64.one_fifth
       (LexicalSpec.score q {| question := q; answer := "" |}) = true
  /\ _fallback_answer_question (faq_data h) q = Ok uncertain_message
  /\ uncertain_message <> "".
Proof.
  cbv zeta. repeat split; try (vm_compute; reflexivity). discriminate.
Qed.

(** C7. Without a model, or without cached embeddings,
    [get_similar_questions] returns the empty list for every query and
    every [top_k]: it does not raise and does not consult the lexical
    fallback. *)
Theorem similar_unavailable_empty (B : Backend) (h : FAQHandler B)
    (q : string) (top_k : Z) :
  model h = None \/ question_embeddings h = None ->
  get_similar_questions B h q top_k = Ok [].
Proof.
  unfold get_similar_questions. intros [Hm|He].
  - rewrite Hm. reflexivity.
  - rewrite He. destruct (model h); reflexivity.
Qed.

Lemma similar_unavailable_empty_default :
  get_similar_questions Sample.exact_low Sample.fallback_handler
    "How do I upload a photo?" 3 = Ok [].
Proof.
  apply similar_unavailable_empty. left. reflexivity.
Defined.

(** ** The corpus store *)

(** C8. [_load_faq_data] returns a corpus whatever lies at the file path;
    when the file is missing, or reading or parsing it raises, the corpus
    returned is the built-in default, which has three categories, nine
    entries and [total_questions] 9. *)
Theorem load_never_fails (fs : Storage) :
  (exists d, _load_faq_data fs = Ok d)
  /\ (stored fs = Missing \/ (exists e, read_json fs = Raise e) ->
      _load_faq_data fs = Ok _get_default_faq_data)
  /\ length (get_categories _get_default_faq_data) = 3
  /\ length (get_all_questions _get_default_faq_data) = 9
  /\ option_map total_questions (metadata _get_default_faq_data)
     = Some (Some (JInt 9)).
Proof.
  split; [|split; [|repeat split]].
  - unfold _load_faq_data, file_exists, read_json.
    destruct (stored fs); simpl; eexists; reflexivity.
  - unfold _load_faq_data, file_exists, read_json.
    intros [Hm|[e He]].
    + rewrite Hm. reflexivity.
    + revert He. unfold read_json.
      destruct (stored fs); simpl; intro He; try reflexivity; discriminate.
Qed.

Lemma load_never_fails_malformed :
  _load_faq_data {| stored := Malformed; writable := true |}
  = Ok _get_default_faq_data
  /\ _load_faq_data Sample.no_file = Ok _get_default_faq_data.
Proof.
  split.
  - apply (load_never_fails {| stored := Malformed; writable := true |}).
    right. exists JSONDecodeError. reflexivity.
  - apply (load_never_fails Sample.no_file). left. reflexivity.
Defined.

(** A write error never reaches [add_question]: once the corpus has been
    updated in memory the operation answers [True], and the storage is as
    it was. *)
Lemma add_question_save_swallowed (d d' : FaqData) (fs : Storage)
    (category question answer : string) :
  add_question_update category question answer d = (Ok tt, d') ->
  writable fs = false ->
  add_question_data d fs category question answer = (true, d', fs).
Proof.
  intros Hupd Hw. unfold add_question_data. rewrite Hupd.
  unfold _save_faq_data, write_json. rewrite Hw. reflexivity.
Qed.

(** C2, evaluated at a failing input: the default corpus, a storage that
    cannot be written, one new entry.  The write raises inside
    [_save_faq_data], which prints and returns; [add_question] answers
    [True], the entry is in memory and nothing is stored. *)
Theorem add_question_reports_success_on_save_failure :
  let '(ok, d', fs') :=
    add_question_data _get_default_faq_data Sample.read_only
      "general" "Is there a manual?" "See the help page." in
  fst (write_json d' Sample.read_only) = Raise OSError
  /\ ok = true
  /\ fs' = Sample.read_only
  /\ In {| question := "Is there a manual?"; answer := "See the help page." |}
        (get_all_questions d')
  /\ option_map total_questions (metadata d') = Some (Some (JInt 10)).
Proof.
  vm_compute. repeat split; auto.
Qed.

(** C3, evaluated at a failing input.  The default handler has cached the
    nine default questions; the fourth of them (position 3) is asked
    verbatim.  Before the append the answer is that entry's.  After one
    entry is appended to the first category the cache is unchanged, the
    match is still position 3, and the answer returned is the new entry's,
    which now stands at position 3 of the flattened corpus.  An append to
    the last category moves no entry and leaves the answer as it was. *)
Theorem stale_cache_answers_with_shifted_entry :
  let q := "What information can you extract from photos?" in
  question_embeddings Sample.stale_handler
  = question_embeddings Sample.default_handler
  /\ answer_question Sample.exact_low Sample.default_handler q
     = Ok "I can detect objects, recognize text (OCR), identify scenes and concepts, detect faces, and provide detailed descriptions of image content."
  /\ answer_question Sample.exact_low Sample.stale_handler q
     = Ok "See the help page."
  /\ nth_error (get_all_questions (faq_data Sample.stale_handler)) 3
     = Some {| question := "Is there a manual?";
               answer := "See the help page." |}
  /\ answer_question Sample.exact_low Sample.stale_last_handler q
     = answer_question Sample.exact_low Sample.default_handler q.
Proof.
  vm_compute. repeat split; reflexivity.
Qed.

(** ** The answer selector *)

Lemma score_at_app_l (p l : list Q) (j : nat) :
  j < length p -> score_at (p ++ l) j = score_at p j.
Proof. intro H. unfold score_at. apply app_nth1, H. Qed.

Lemma score_at_snoc (p : list Q) (x : Q) :
  score_at (p ++ [x]) (length p) = x.
Proof.
  unfold score_at. rewrite app_nth2 by lia. rewrite Nat.sub_diag. reflexivity.
Qed.

Lemma argmax_from_spec (l p : list Q) (best_i : nat) :
  best_i < length p ->
  (forall j, j < length p -> (score_at p j <= score_at p best_i)%Q) ->
  (forall j, j < best_i -> (score_at p j < score_at p best_i)%Q) ->
  let r := argmax_from best_i (score_at p best_i) (length p) l in
  r < length (p ++ l)
  /\ (forall j, j < length (p ++ l) ->
        (score_at (p ++ l) j <= score_at (p ++ l) r)%Q)
  /\ (forall j, j < r -> (score_at (p ++ l) j < score_at (p ++ l) r)%Q).
Proof.
  revert p best_i. induction l as [|x l IH]; intros p best_i Hb Hmax Hfirst.
  - simpl. rewrite app_nil_r. auto.
  - cbn [argmax_from].
    assert (Hassoc : (p ++ x :: l = (p ++ [x]) ++ l)%list)
      by (rewrite <- app_assoc; reflexivity).
    assert (Hlen : length (p ++ [x]) = S (length p))
      by (rewrite length_app; simpl; lia).
    destruct (Qltb (score_at p best_i) x) eqn:Hcmp.
    + apply Qltb_true in Hcmp.
      assert (IH' := IH (p ++ [x])%list (length p)).
      cbv zeta in IH'. rewrite score_at_snoc, Hlen, <- Hassoc in IH'.
      apply IH'.
      * lia.
      * intros j Hj.
        destruct (Nat.eq_dec j (length p)) as [->|Hne].
        -- rewrite score_at_snoc. apply Qle_refl.
        -- rewrite score_at_app_l by lia. apply Qlt_le_weak.
           eapply Qle_lt_trans; [apply Hmax; lia | exact Hcmp].
      * intros j Hj. rewrite score_at_app_l by lia.
        eapply Qle_lt_trans; [apply Hmax; lia | exact Hcmp].
    + apply Qltb_false in Hcmp.
      assert (IH' := IH (p ++ [x])%list best_i).
      cbv zeta in IH'.
      rewrite (score_at_app_l p [x] best_i Hb), Hlen, <- Hassoc in IH'.
      apply IH'.
      * lia.
      * intros j Hj.
        destruct (Nat.eq_dec j (length p)) as [->|Hne].
        -- rewrite score_at_snoc. exact Hcmp.
        -- rewrite score_at_app_l by lia. apply Hmax. lia.
      * intros j Hj. rewrite score_at_app_l by lia. apply Hfirst, Hj.
Qed.

(** [argmax] finds the first position of the highest score. *)
Lemma argmax_spec (s : list Q) :
  s <> [] ->
  exists idx,
    argmax s = Ok idx
    /\ idx < length s
    /\ (forall j, j < length s -> (score_at s j <= score_at s idx)%Q)
    /\ (forall j, j < idx -> (score_at s j < score_at s idx)%Q).
Proof.
  destruct s as [|x l]; [congruence|]. intros _.
  exists (argmax_from 0 x 1 l). split; [reflexivity|].
  apply (argmax_from_spec l [x] 0).
  - simpl. lia.
  - intros j Hj. simpl in Hj. assert (j = 0) by lia. subst j. apply Qle_refl.
  - intros j Hj. lia.
Qed.

Lemma item_score_at (s : list Q) (i : nat) :
  i < length s -> item s i = Ok (score_at s i).
Proof.
  intro H. unfold item, score_at.
  destruct (nth_error s i) as [x|] eqn:E.
  - rewrite (nth_error_nth _ _ _ E). reflexivity.
  - apply nth_error_None in E. lia.
Qed.

Lemma cosine_similarity_ok (B : Backend) (qe : Vec B) (cache : list (Vec B)) :
  cache <> [] -> cosine_similarity B qe cache = Ok (map (cos B qe) cache).
Proof. destruct cache; [congruence | reflexivity]. Qed.

(** The embedding path on a handler with a cache: the position that
    [argmax] finds, and the thresholded answer of the entry that stands
    there now. *)
Lemma answer_with_cache_run (B : Backend) (h : FAQHandler B)
    (m : SentenceTransformer) (cache : list (Vec B)) (q : string)
    (qe : Vec B) :
  model h = Some m ->
  question_embeddings h = Some cache ->
  cache <> [] ->
  cache_fits h ->
  embed B q = Ok qe ->
  let similarities := map (cos B qe) cache in
  exists idx qa,
    argmax similarities = Ok idx
    /\ idx < length cache
    /\ nth_error (get_all_questions (faq_data h)) idx = Some qa
    /\ (forall j, j < length cache ->
          (score_at similarities j <= score_at similarities idx)%Q)
    /\ (forall j, j < idx ->
          (score_at similarities j < score_at similarities idx)%Q)
    /\ answer_question B h q
       = Ok (if Qltb (score_at similarities idx) (3 # 10)
             then uncertain_message else answer qa).
Proof.
  intros Hm He Hne Hfit Hq sims.
  assert (Hsne : sims <> []).
  { subst sims. destruct cache; [congruence | simpl; discriminate]. }
  destruct (argmax_spec sims Hsne) as (idx & Harg & Hidx & Hmax & Hfirst).
  assert (Hlen : length sims = length cache) by apply length_map.
  unfold cache_fits in Hfit. rewrite He in Hfit.
  destruct (nth_error (get_all_questions (faq_data h)) idx) as [qa|] eqn:Hnth;
    [|apply nth_error_None in Hnth; lia].
  exists idx, qa. split; [exact Harg|]. split; [lia|]. split; [exact Hnth|].
  split; [intros j Hj; apply Hmax; lia|]. split; [exact Hfirst|].
  unfold answer_question. rewrite Hm, He.
  unfold answer_with_embeddings. rewrite Hq. simpl.
  rewrite (cosine_similarity_ok B qe cache Hne). fold sims.
  simpl. rewrite Harg. simpl.
  rewrite (item_score_at sims idx Hidx). simpl.
  rewrite Hnth.
  destruct (Qltb (score_at sims idx) (3 # 10)); reflexivity.
Qed.

(** C5, evaluated at a failing input.  The default handler has cached the
    nine default questions, and one entry has since been appended to the
    first category.  The fourth cached question is asked verbatim: it is
    the match, at position 3 with similarity 1, which is not below 0.3.
    The matched entry is still in the corpus with its answer, but
    [answer_question] returns the answer of the appended entry, which now
    stands at position 3. *)
Theorem threshold_answers_with_other_entry :
  let h := Sample.stale_handler in
  let q := "What information can you extract from photos?" in
  let matched :=
    "I can detect objects, recognize text (OCR), identify scenes and concepts, detect faces, and provide detailed descriptions of image content." in
  nth_error (questions_list h) 3 = Some q
  /\ (exists qe cache similarities,
        embed Sample.exact_low q = Ok qe
        /\ question_embeddings h = Some cache
        /\ cosine_similarity Sample.exact_low qe cache = Ok similarities
        /\ argmax similarities = Ok 3
        /\ item similarities 3 = Ok 1%Q
        /\ Qltb 1 (3 # 10) = false)
  /\ get_question_answer (faq_data h) q = Some matched
  /\ answer_question Sample.exact_low h q = Ok "See the help page."
  /\ "See the help page." <> matched.
Proof.
  cbv zeta. split; [vm_compute; reflexivity|]. split.
  - eexists _, _, _.
    repeat split; try (vm_compute; reflexivity).
  - repeat split; try (vm_compute; reflexivity). discriminate.
Qed.

(** ** The cache never outgrows the corpus *)

Lemma encode_length (B : Backend) (texts : list string) (vs : list (Vec B)) :
  encode B texts = Ok vs -> length vs = length texts.
Proof.
  revert vs. induction texts as [|t rest IH]; intros vs H; simpl in H.
  - injection H as <-. reflexivity.
  - destruct (embed B t) as [v|e]; simpl in H; [|discriminate].
    destruct (encode B rest) as [vs'|e]; simpl in H; [|discriminate].
    injection H as <-. simpl. f_equal. apply IH. reflexivity.
Qed.

Lemma init_cache_fits (B : Backend) (fs : Storage)
    (loaded : result SentenceTransformer) (h : FAQHandler B) :
  __init__ B fs loaded = Ok h -> cache_fits h.
Proof.
  unfold __init__. destruct (_load_faq_data fs) as [d|e]; simpl;
    [|discriminate].
  destruct loaded as [m|e]; intro H; injection H as <-; unfold cache_fits.
  - unfold _initialize_embeddings. simpl.
    destruct (encode B (map question (get_all_questions d))) as [vs|e] eqn:E;
      simpl; [|exact I].
    rewrite (encode_length _ _ _ E), length_map. apply Nat.le_refl.
  - exact I.
Qed.

Lemma corpus_size_flat (cs : list (string * Category)) (md : option Metadata) :
  corpus_size {| categories := Some cs; metadata := md |} = flat_size cs.
Proof. reflexivity. Qed.

Lemma flat_size_app (a b : list (string * Category)) :
  flat_size (a ++ b) = flat_size a + flat_size b.
Proof. unfold flat_size. rewrite flat_map_app, length_app. reflexivity. Qed.

Lemma flat_size_replace (k : string) (c c' : Category)
    (cs : list (string * Category)) :
  lookup k cs = Some c ->
  flat_size (replace k c' cs) + length (get_questions c)
  = flat_size cs + length (get_questions c').
Proof.
  unfold flat_size. induction cs as [|[k' v] cs IH]; simpl; [discriminate|].
  destruct (String.eqb k k'); intro H.
  - injection H as ->. simpl. rewrite !length_app. lia.
  - simpl. rewrite !length_app. specialize (IH H). lia.
Qed.

Lemma growing_bind {A C : Type} (m : Prog A) (k : A -> Prog C) :
  growing m -> (forall a, growing (k a)) -> growing (bindP m k).
Proof.
  intros Hm Hk d. unfold bindP. specialize (Hm d).
  destruct (m d) as [[a|e] d']; simpl in *.
  - etransitivity; [exact Hm | apply Hk].
  - exact Hm.
Qed.

Lemma growing_get_then {C : Type} (k : FaqData -> Prog C) :
  (forall d, corpus_size d <= corpus_size (snd (k d d))) ->
  growing (bindP get k).
Proof. intros H d. unfold bindP, get. apply H. Qed.

Lemma growing_ret {A : Type} (a : A) : growing (ret a).
Proof. intro d. apply Nat.le_refl. Qed.

Lemma append_question_growing (category : string) (qa : QA) :
  growing (append_question category qa).
Proof.
  apply growing_get_then. intro d. unfold raise, put.
  destruct d as [[cs|] md]; simpl; [|apply Nat.le_refl].
  destruct (lookup category cs) as [c|] eqn:Hl; simpl; [|apply Nat.le_refl].
  destruct (questions c) as [qs|] eqn:Hq; simpl; [|apply Nat.le_refl].
  rewrite !corpus_size_flat.
  pose proof (flat_size_replace category c
                {| name := name c; questions := Some (qs ++ [qa])%list |}
                cs Hl) as Hr.
  unfold get_questions in Hr. rewrite Hq in Hr. simpl in Hr.
  rewrite length_app in Hr. simpl in Hr. lia.
Qed.

Lemma incr_total_questions_growing : growing incr_total_questions.
Proof.
  apply growing_get_then. intro d. unfold raise, put.
  destruct d as [cs [m|]]; simpl; [|apply Nat.le_refl].
  destruct (total_questions m) as [v|]; [|apply Nat.le_refl].
  destruct (iadd_one v); apply Nat.le_refl.
Qed.

(** Whatever happens inside [add_question], also when it raises half way,
    the flattened corpus does not shrink. *)
Lemma add_question_update_growing (category question answer : string) :
  growing (add_question_update category question answer).
Proof.
  unfold add_question_update.
  apply growing_get_then. intro d.
  assert (Hrest : growing
            (append_question category
               {| question := question; answer := answer |} ;;;
             incr_total_questions)).
  { apply growing_bind; [apply append_question_growing|].
    intros _. apply incr_total_questions_growing. }
  destruct (has_key category (get_categories_dict d)) eqn:Hk; simpl.
  - apply (growing_bind (ret tt)); [apply growing_ret | intros _; exact Hrest].
  - unfold bindP at 1. unfold set_category, bindP, get, raise, put.
    destruct d as [[cs|] md]; simpl in *; [|apply Nat.le_refl].
    unfold get_categories_dict in Hk. simpl in Hk.
    unfold assign. rewrite Hk.
    etransitivity; [|apply Hrest].
    rewrite !corpus_size_flat, flat_size_app. lia.
Qed.

Lemma add_question_cache_fits (B : Backend) (h : FAQHandler B) (fs : Storage)
    (category question answer : string) :
  cache_fits h ->
  cache_fits (snd (fst (add_question B h fs category question answer))).
Proof.
  unfold cache_fits, add_question, add_question_data.
  pose proof (add_question_update_growing category question answer
                (faq_data h)) as Hg.
  unfold corpus_size in Hg.
  destruct (add_question_update category question answer (faq_data h))
    as [[u|e] d']; simpl in *.
  - destruct (_save_faq_data d' fs) as [[u'|e'] fs']; simpl;
      destruct (question_embeddings h); auto; lia.
  - destruct (question_embeddings h); auto; lia.
Qed.

(** ** The two selections meet the [topk] contract *)

Section InsertionSort.

Variable leb : nat * Q -> nat * Q -> bool.
Hypothesis leb_total : forall a b, leb a b = true \/ leb b a = true.
Hypothesis leb_trans :
  forall a b c, leb a b = true -> leb b c = true -> leb a c = true.

Let R (a b : nat * Q) : Prop := leb a b = true.

Lemma insert_perm (x : nat * Q) (l : list (nat * Q)) :
  Permutation (TopK.insert leb x l) (x :: l).
Proof.
  induction l as [|y l IH]; simpl.
  - apply Permutation_refl.
  - destruct (leb x y).
    + apply Permutation_refl.
    + eapply perm_trans; [apply perm_skip, IH | apply perm_swap].
Qed.

Lemma sort_perm (l : list (nat * Q)) : Permutation (TopK.sort leb l) l.
Proof.
  induction l as [|x l IH]; simpl.
  - apply perm_nil.
  - eapply perm_trans; [apply insert_perm | apply perm_skip, IH].
Qed.

Lemma insert_sorted (x : nat * Q) (l : list (nat * Q)) :
  StronglySorted R l -> StronglySorted R (TopK.insert leb x l).
Proof.
  induction l as [|y l IH]; simpl; intro Hs.
  - constructor; constructor.
  - inversion Hs as [|? ? Hs' Hall]; subst.
    destruct (leb x y) eqn:Hxy.
    + constructor; [exact Hs|]. constructor; [exact Hxy|].
      eapply Forall_impl; [|exact Hall].
      intros z Hz. eapply leb_trans; eassumption.
    + constructor; [apply IH, Hs'|].
      apply (Permutation_Forall (Permutation_sym (insert_perm x l))).
      constructor; [|exact Hall].
      destruct (leb_total x y) as [H|H]; [congruence | exact H].
Qed.

Lemma sort_sorted (l : list (nat * Q)) : StronglySorted R (TopK.sort leb l).
Proof.
  induction l as [|x l IH]; simpl.
  - constructor.
  - apply insert_sorted, IH.
Qed.

End InsertionSort.

Lemma sorted_app_l {A : Type} (R : A -> A -> Prop) (l1 l2 : list A) :
  StronglySorted R (l1 ++ l2) -> StronglySorted R l1.
Proof.
  induction l1 as [|a l1 IH]; simpl; intro H.
  - constructor.
  - inversion H as [|? ? Hs Hall]; subst. constructor; [apply IH, Hs|].
    apply Forall_app in Hall. apply Hall.
Qed.

Lemma sorted_app_cross {A : Type} (R : A -> A -> Prop) (l1 l2 : list A)
    (a b : A) :
  StronglySorted R (l1 ++ l2) -> In a l1 -> In b l2 -> R a b.
Proof.
  induction l1 as [|c l1 IH]; simpl; intros H Ha Hb; [contradiction|].
  inversion H as [|? ? Hs Hall]; subst.
  destruct Ha as [->|Ha].
  - rewrite Forall_forall in Hall. apply Hall, in_or_app. right. exact Hb.
  - apply IH; assumption.
Qed.

Lemma sorted_map {A C : Type} (R : A -> A -> Prop) (R' : C -> C -> Prop)
    (f : A -> C) (l : list A) :
  (forall a b, In a l -> In b l -> R a b -> R' (f a) (f b)) ->
  StronglySorted R l -> StronglySorted R' (map f l).
Proof.
  induction l as [|a l IH]; simpl; intros Hf Hs.
  - constructor.
  - inversion Hs as [|? ? Hs' Hall]; subst. constructor.
    + apply IH; [|exact Hs']. intros x y Hx Hy. apply Hf; right; assumption.
    + rewrite Forall_forall in *. intros c Hc.
      apply in_map_iff in Hc. destruct Hc as (b & <- & Hb).
      apply Hf; [left; reflexivity | right; exact Hb | apply Hall, Hb].
Qed.

Lemma before_iff (low_first : bool) (a b : nat * Q) :
  TopK.before low_first a b = true <->
  (snd b < snd a)%Q
  \/ ((snd b <= snd a)%Q
      /\ if low_first then fst a <= fst b else fst b <= fst a).
Proof.
  unfold TopK.before. rewrite orb_true_iff, andb_true_iff, Qltb_true,
    Qle_bool_iff.
  destruct low_first; rewrite Nat.leb_le; reflexivity.
Qed.

Lemma before_total (low_first : bool) (a b : nat * Q) :
  TopK.before low_first a b = true \/ TopK.before low_first b a = true.
Proof.
  rewrite !before_iff.
  destruct (Qlt_le_dec (snd b) (snd a)) as [H|H]; [left; left; exact H|].
  destruct (Qlt_le_dec (snd a) (snd b)) as [H'|H']; [right; left; exact H'|].
  destruct (Nat.le_ge_cases (fst a) (fst b)) as [Hi|Hi];
    destruct low_first; auto.
Qed.

Lemma before_trans (low_first : bool) (a b c : nat * Q) :
  TopK.before low_first a b = true -> TopK.before low_first b c = true ->
  TopK.before low_first a c = true.
Proof.
  rewrite !before_iff. intros [H1|[H1 I1]] [H2|[H2 I2]].
  - left. eapply Qlt_trans; eassumption.
  - left. eapply Qle_lt_trans; eassumption.
  - left. eapply Qlt_le_trans; eassumption.
  - right. split; [eapply Qle_trans; eassumption|].
    destruct low_first; lia.
Qed.

Lemma before_score (low_first : bool) (a b : nat * Q) :
  TopK.before low_first a b = true -> (snd b <= snd a)%Q.
Proof.
  rewrite before_iff. intros [H|[H _]]; [apply Qlt_le_weak, H | exact H].
Qed.

Lemma combine_seq_in (s : list Q) (a i : nat) (x : Q) :
  In (i, x) (combine (seq a (length s)) s)
  <-> a <= i /\ nth_error s (i - a) = Some x.
Proof.
  revert a. induction s as [|y s IH]; intro a; simpl.
  - split; [intros [] | intros [_ H]]. destruct (i - a); discriminate.
  - rewrite IH. split.
    + intros [H|[Hle Hn]].
      * injection H as -> ->. rewrite Nat.sub_diag. split; [lia|reflexivity].
      * split; [lia|]. replace (i - a) with (S (i - S a)) by lia. exact Hn.
    + intros [Hle Hn]. destruct (i - a) as [|n] eqn:E.
      * left. injection Hn as ->. f_equal. lia.
      * right. split; [lia|]. replace (i - S a) with n by lia. exact Hn.
Qed.

Lemma indexed_in (s : list Q) (i : nat) (x : Q) :
  In (i, x) (TopK.indexed s) <-> nth_error s i = Some x.
Proof.
  unfold TopK.indexed. rewrite combine_seq_in, Nat.sub_0_r.
  split; [intros [_ H]; exact H | intro H; split; [lia | exact H]].
Qed.

Lemma indexed_fst (s : list Q) :
  map fst (TopK.indexed s) = seq 0 (length s).
Proof.
  unfold TopK.indexed. generalize 0.
  induction s as [|y s IH]; intro a; simpl; [reflexivity|].
  f_equal. apply IH.
Qed.

Lemma indexed_score (s : list Q) (p : nat * Q) :
  In p (TopK.indexed s) -> fst p < length s /\ score_at s (fst p) = snd p.
Proof.
  destruct p as [i x]. rewrite indexed_in. intro H. simpl. split.
  - apply nth_error_Some. congruence.
  - unfold score_at. apply nth_error_nth, H.
Qed.

Section SelectContract.

Variable low_first : bool.
Variable s : list Q.
Variable k : nat.
Hypothesis k_le : k <= length s.

Let sorted : list (nat * Q) :=
  TopK.sort (TopK.before low_first) (TopK.indexed s).

Lemma select_sorted_perm : Permutation sorted (TopK.indexed s).
Proof. apply sort_perm. Qed.

Lemma select_sorted_length : length sorted = length s.
Proof.
  rewrite (Permutation_length select_sorted_perm).
  rewrite <- (length_map fst), indexed_fst. apply length_seq.
Qed.

Lemma select_sorted_strongly :
  StronglySorted (fun a b => TopK.before low_first a b = true) sorted.
Proof.
  apply sort_sorted; [apply before_total | apply before_trans].
Qed.

Lemma select_in_firstn (i : nat) :
  In i (TopK.select low_first s k) ->
  exists x, In (i, x) (firstn k sorted) /\ nth_error s i = Some x.
Proof.
  unfold TopK.select. fold sorted. intro H.
  apply in_map_iff in H. destruct H as ([i' x] & Hi & Hin). simpl in Hi.
  subst i'. exists x. split; [exact Hin|].
  apply indexed_in. apply (Permutation_in _ select_sorted_perm).
  rewrite <- (firstn_skipn k sorted). apply in_or_app. left. exact Hin.
Qed.

Lemma select_length : length (TopK.select low_first s k) = k.
Proof.
  unfold TopK.select. fold sorted.
  rewrite length_map, length_firstn, select_sorted_length. lia.
Qed.

Lemma select_range (i : nat) :
  In i (TopK.select low_first s k) -> i < length s.
Proof.
  intro H. destruct (select_in_firstn i H) as (x & _ & Hn).
  apply nth_error_Some. congruence.
Qed.

Lemma select_nodup : NoDup (TopK.select low_first s k).
Proof.
  unfold TopK.select. fold sorted. rewrite <- firstn_map.
  assert (Hnd : NoDup (map fst sorted)).
  { apply (Permutation_NoDup
             (Permutation_sym (Permutation_map fst select_sorted_perm))).
    rewrite indexed_fst. apply seq_NoDup. }
  rewrite <- (firstn_skipn k (map fst sorted)) in Hnd.
  apply NoDup_app_remove_r in Hnd. exact Hnd.
Qed.

Lemma select_descending :
  StronglySorted (fun i j => (score_at s j <= score_at s i)%Q)
    (TopK.select low_first s k).
Proof.
  unfold TopK.select. fold sorted.
  assert (Hs : StronglySorted
                 (fun a b => TopK.before low_first a b = true)
                 (firstn k sorted)).
  { apply (sorted_app_l _ _ (skipn k sorted)).
    rewrite firstn_skipn. apply select_sorted_strongly. }
  revert Hs. apply sorted_map. intros a b Ha Hb Hab.
  assert (Hin : forall p, In p (firstn k sorted) -> In p (TopK.indexed s)).
  { intros p Hp. apply (Permutation_in _ select_sorted_perm).
    rewrite <- (firstn_skipn k sorted). apply in_or_app. left. exact Hp. }
  destruct (indexed_score s a (Hin a Ha)) as [_ ->].
  destruct (indexed_score s b (Hin b Hb)) as [_ ->].
  eapply before_score, Hab.
Qed.

Lemma select_largest (i j : nat) :
  In i (TopK.select low_first s k) -> j < length s ->
  ~ In j (TopK.select low_first s k) ->
  (score_at s j <= score_at s i)%Q.
Proof.
  intros Hi Hj Hnj.
  destruct (select_in_firstn i Hi) as (xi & Hin_i & Hn_i).
  destruct (nth_error s j) as [xj|] eqn:Hn_j;
    [|apply nth_error_None in Hn_j; lia].
  assert (Hin_j : In (j, xj) (skipn k sorted)).
  { assert (H : In (j, xj) sorted).
    { apply (Permutation_in _ (Permutation_sym select_sorted_perm)).
      apply indexed_in, Hn_j. }
    rewrite <- (firstn_skipn k sorted) in H. apply in_app_or in H.
    destruct H as [H|H]; [|exact H].
    exfalso. apply Hnj. unfold TopK.select. fold sorted.
    apply in_map_iff. exists (j, xj). split; [reflexivity | exact H]. }
  pose proof select_sorted_strongly as Hs.
  rewrite <- (firstn_skipn k sorted) in Hs.
  pose proof (sorted_app_cross _ _ _ _ _ Hs Hin_i Hin_j) as Hb.
  apply before_score in Hb. simpl in Hb.
  unfold score_at. rewrite (nth_error_nth _ _ _ Hn_i),
    (nth_error_nth _ _ _ Hn_j). exact Hb.
Qed.

End SelectContract.

(** Both orders of equal scores are selections that [torch.topk] may
    return. *)
Lemma select_contract (low_first : bool) :
  topk_contract (TopK.select low_first).
Proof.
  constructor.
  - intros s k Hk. exact (select_length low_first s k Hk).
  - intros s k i Hk. exact (select_range low_first s k i).
  - intros s k Hk. exact (select_nodup low_first s k).
  - intros s k Hk. exact (select_descending low_first s k).
  - intros s k i j Hk. exact (select_largest low_first s k Hk i j).
Qed.

(** ** The shortlist *)

Lemma collect_similar_ok (all_questions : list QA) (sims : list Q)
    (idxs : list nat) :
  (forall i, In i idxs -> i < length sims) ->
  collect_similar all_questions sims idxs
  = Ok (map (similar_entry all_questions sims)
          (filter (fun i => Nat.ltb i (length all_questions)) idxs)).
Proof.
  induction idxs as [|i idxs IH]; intro Hr; simpl; [reflexivity|].
  assert (IH' := IH (fun j Hj => Hr j (or_intror Hj))).
  destruct (nth_error all_questions i) as [qa|] eqn:Hn.
  - assert (Hi : i < length all_questions)
      by (apply nth_error_Some; congruence).
    apply Nat.ltb_lt in Hi. rewrite Hi.
    rewrite (item_score_at sims i (Hr i (or_introl eq_refl))). simpl.
    rewrite IH'. simpl. unfold similar_entry at 2.
    rewrite (nth_error_nth _ _ _ Hn). reflexivity.
  - apply nth_error_None in Hn.
    assert (Hi : Nat.ltb i (length all_questions) = false)
      by (apply Nat.ltb_ge; exact Hn).
    rewrite Hi. exact IH'.
Qed.

Lemma sorted_filter {A : Type} (R : A -> A -> Prop) (f : A -> bool)
    (l : list A) :
  StronglySorted R l -> StronglySorted R (filter f l).
Proof.
  induction l as [|a l IH]; simpl; intro H; [constructor|].
  inversion H as [|? ? Hs Hall]; subst.
  destruct (f a); [|apply IH, Hs].
  constructor; [apply IH, Hs|].
  rewrite Forall_forall in *. intros x Hx.
  apply filter_In in Hx. apply Hall, Hx.
Qed.

Lemma kept_length_le (n : nat) (idxs : list nat) :
  NoDup idxs -> length (filter (fun i => Nat.ltb i n) idxs) <= n.
Proof.
  intro Hnd.
  assert (H : length (filter (fun i => Nat.ltb i n) idxs)
              <= length (seq 0 n)).
  { apply NoDup_incl_length; [apply NoDup_filter, Hnd|].
    intros i Hi. apply filter_In in Hi. destruct Hi as [_ Hi].
    apply Nat.ltb_lt in Hi. apply in_seq. lia. }
  rewrite length_seq in H. exact H.
Qed.

(** X22. For every backend whose [topk] keeps the torch contract, every
    handler state, query and [top_k],
    [get_similar_questions] returns a list: of at most min(top_k, N)
    triples, N the number of corpus entries (none when [top_k] is
    negative or the corpus is empty); each triple the question and answer
    of a corpus entry; the scores non-increasing.  The order of entries
    with equal scores is the one [torch.topk] chose. *)
Theorem similar_questions_bounded_descending (B : Backend)
    (h : FAQHandler B) (q : string) (top_k : Z) :
  topk_contract (topk_indices B) ->
  exists results,
    get_similar_questions B h q top_k = Ok results
    /\ length results
       <= Z.to_nat (Z.min top_k
                      (Z.of_nat (length (get_all_questions (faq_data h)))))
    /\ descending (scores_of results)
    /\ (forall r, In r results ->
          exists qa, In qa (get_all_questions (faq_data h))
                     /\ fst r = (question qa, answer qa))
    /\ (get_all_questions (faq_data h) = [] -> results = []).
Proof.
  intro Hc.
  set (all := get_all_questions (faq_data h)).
  assert (Hnil : forall body,
             body = Ok [] \/ (exists e, body = Raise e) ->
             exists results : list (string * string * Q),
               try_except body (fun _ => Ok []) = Ok results
               /\ length results
                  <= Z.to_nat (Z.min top_k (Z.of_nat (length all)))
               /\ descending (scores_of results)
               /\ (forall r, In r results ->
                     exists qa, In qa all /\ fst r = (question qa, answer qa))
               /\ (all = [] -> results = [])).
  { intros body Hb. exists [].
    split; [destruct Hb as [->|[e ->]]; reflexivity|].
    split; [simpl; lia|]. split; [constructor|].
    split; [intros r []|reflexivity]. }
  assert (Hraise : forall e, _) by
    (exact (fun e => Hnil (Raise e) (or_intror (ex_intro _ e eq_refl)))).
  assert (Hstop := Hnil (Ok []) (or_introl eq_refl)).
  unfold get_similar_questions. fold all.
  destruct (model h) as [m|]; [|exact Hstop].
  destruct (question_embeddings h) as [cache|]; [|exact Hstop].
  destruct (embed B q) as [qe|e]; [|exact (Hraise e)]. cbn [bind].
  destruct (cosine_similarity B qe cache) as [sims|e]; [|exact (Hraise e)].
  cbn [bind]. unfold torch_topk.
  set (k := Z.min top_k (Z.of_nat (length sims))).
  destruct ((k <? 0)%Z || (Z.of_nat (length sims) <? k)%Z) eqn:Hk;
    [exact (Hraise RuntimeError)|]. cbn [bind].
  apply orb_false_iff in Hk. destruct Hk as [Hk0 Hk1].
  apply Z.ltb_ge in Hk0. apply Z.ltb_ge in Hk1.
  assert (Hle : Z.to_nat k <= length sims) by lia.
  set (idxs := topk_indices B sims (Z.to_nat k)).
  rewrite (collect_similar_ok all sims idxs
             (fun i Hi => topk_range _ Hc sims (Z.to_nat k) i Hle Hi)).
  set (kept := filter (fun i => Nat.ltb i (length all)) idxs).
  exists (map (similar_entry all sims) kept).
  split; [reflexivity|].
  assert (Hlen : length kept <= Z.to_nat (Z.min top_k (Z.of_nat (length all)))).
  { pose proof (kept_length_le (length all) idxs
                  (topk_nodup _ Hc sims (Z.to_nat k) Hle)) as H1.
    pose proof (filter_length_le (fun i => Nat.ltb i (length all)) idxs) as H2.
    fold kept in H1, H2.
    unfold idxs in H2. rewrite (topk_length _ Hc sims (Z.to_nat k) Hle) in H2.
    lia. }
  split; [rewrite length_map; exact Hlen|].
  split; [|split].
  - unfold descending, scores_of. rewrite map_map.
    apply (sorted_map (fun i j => (score_at sims j <= score_at sims i)%Q)).
    + intros a b _ _ H. exact H.
    + apply sorted_filter. exact (topk_sorted _ Hc sims (Z.to_nat k) Hle).
  - intros r Hr. apply in_map_iff in Hr. destruct Hr as (i & <- & Hi).
    apply filter_In in Hi. destruct Hi as [_ Hi]. apply Nat.ltb_lt in Hi.
    exists (nth i all {| question := ""; answer := "" |}).
    split; [apply nth_In, Hi | reflexivity].
  - intro Hall. rewrite Hall in Hlen. simpl in Hlen.
    destruct kept; [reflexivity|]. simpl in Hlen. lia.
Qed.

(** The shortlist of the default handler for a stored question and
    [top_k] 3, with the selection that lists equal scores by position. *)
Lemma similar_questions_default :
  exists results,
    get_similar_questions Sample.exact_low Sample.default_handler
      "How do I upload a photo?" 3 = Ok results
    /\ length results <= 3
    /\ descending (scores_of results).
Proof.
  destruct (similar_questions_bounded_descending Sample.exact_low
              Sample.default_handler "How do I upload a photo?" 3
              (select_contract true))
    as (results & Hrun & Hlen & Hdesc & _).
  exists results. split; [exact Hrun|]. split; [|exact Hdesc].
  revert Hlen.
  generalize (length (get_all_questions (faq_data Sample.default_handler))).
  intros n Hlen. lia.
Defined.

(** * Further properties of the handler *)

Open Scope list_scope.

(** ** Dictionaries as association lists *)

Lemma has_key_lookup {V : Type} (k : string) (l : list (string * V)) :
  has_key k l = false <-> lookup k l = None.
Proof.
  induction l as [|[k' v] l IH]; simpl; [tauto|].
  destruct (String.eqb k k'); simpl; [split; discriminate | exact IH].
Qed.

Lemma lookup_app_none {V : Type} (k : string) (l l' : list (string * V)) :
  lookup k l = None -> lookup k (l ++ l') = lookup k l'.
Proof.
  induction l as [|[k' v] l IH]; simpl; [reflexivity|].
  destruct (String.eqb k k'); [discriminate | exact IH].
Qed.

Lemma lookup_split {V : Type} (k : string) (v : V) (l : list (string * V)) :
  lookup k l = Some v ->
  exists pre post, l = pre ++ (k, v) :: post /\ lookup k pre = None.
Proof.
  induction l as [|[k' v'] l IH]; simpl; [discriminate|].
  destruct (String.eqb k k') eqn:E; intro H.
  - apply String.eqb_eq in E. subst k'. injection H as ->.
    exists [], l. split; reflexivity.
  - destruct (IH H) as (pre & post & -> & Hpre).
    exists ((k', v') :: pre), post. split; [reflexivity|].
    simpl. rewrite E. exact Hpre.
Qed.

Lemma replace_split {V : Type} (k : string) (v v' : V)
    (pre post : list (string * V)) :
  lookup k pre = None ->
  replace k v' (pre ++ (k, v) :: post) = pre ++ (k, v') :: post.
Proof.
  induction pre as [|[k' w] pre IH]; simpl; intro H.
  - rewrite String.eqb_refl. reflexivity.
  - destruct (String.eqb k k'); [discriminate|]. f_equal. apply IH, H.
Qed.

Lemma replace_keys {V : Type} (k : string) (v : V) (l : list (string * V)) :
  map fst (replace k v l) = map fst l.
Proof.
  induction l as [|[k' w] l IH]; simpl; [reflexivity|].
  destruct (String.eqb k k'); simpl; [reflexivity | f_equal; exact IH].
Qed.

Lemma lookup_replace_same {V : Type} (k : string) (v v' : V)
    (l : list (string * V)) :
  lookup k l = Some v -> lookup k (replace k v' l) = Some v'.
Proof.
  induction l as [|[k' w] l IH]; simpl; [discriminate|].
  destruct (String.eqb k k') eqn:E; simpl; rewrite E; [reflexivity | exact IH].
Qed.

Lemma lookup_replace_other {V : Type} (k k2 : string) (v : V)
    (l : list (string * V)) :
  k2 <> k -> lookup k2 (replace k v l) = lookup k2 l.
Proof.
  intro Hne. induction l as [|[k' w] l IH]; simpl; [reflexivity|].
  destruct (String.eqb k k') eqn:E; simpl.
  - destruct (String.eqb k2 k') eqn:E2; [|reflexivity].
    apply String.eqb_eq in E, E2. congruence.
  - destruct (String.eqb k2 k'); [reflexivity | exact IH].
Qed.

Lemma lookup_snoc_other {V : Type} (k k2 : string) (v : V)
    (l : list (string * V)) :
  k2 <> k -> lookup k2 (l ++ [(k, v)]) = lookup k2 l.
Proof.
  intro Hne. induction l as [|[k' w] l IH]; simpl.
  - destruct (String.eqb k2 k) eqn:E; [|reflexivity].
    apply String.eqb_eq in E. congruence.
  - destruct (String.eqb k2 k'); [reflexivity | exact IH].
Qed.

(** ** What [add_question] does to the corpus *)

Lemma counted_ok (md : option Metadata) (m' : Metadata) :
  counted md = Ok m'
  <-> exists m v v',
        md = Some m /\ total_questions m = Some v /\ iadd_one v = Ok v'
        /\ m' = bump m v'.
Proof.
  unfold counted. split.
  - destruct md as [m|]; [|discriminate].
    destruct (total_questions m) as [v|] eqn:Hv; [|discriminate].
    destruct (iadd_one v) as [v'|e] eqn:Hi; [|discriminate].
    intro H. injection H as <-. exists m, v, v'. auto.
  - intros (m & v & v' & -> & -> & -> & ->). reflexivity.
Qed.

Lemma add_update_existing (category q a : string)
    (cs : list (string * Category)) (md : option Metadata) (c : Category)
    (qs : list QA) :
  lookup category cs = Some c -> questions c = Some qs ->
  let cs' := replace category
               {| name := name c;
                  questions := Some (qs ++ [new_entry q a])%list |} cs in
  add_question_update category q a {| categories := Some cs; metadata := md |}
  = match counted md with
    | Ok m' => (Ok tt, {| categories := Some cs'; metadata := Some m' |})
    | Raise e => (Raise e, {| categories := Some cs'; metadata := md |})
    end.
Proof.
  intros Hl Hq cs'.
  assert (Hk : has_key category cs = true).
  { destruct (has_key category cs) eqn:E; [reflexivity|].
    apply has_key_lookup in E. congruence. }
  unfold add_question_update, set_category, append_question,
    incr_total_questions, bindP, get, put, raise, ret, get_categories_dict,
    counted.
  simpl. rewrite Hk. simpl. rewrite Hl, Hq. simpl.
  destruct md as [m|]; [|reflexivity].
  destruct (total_questions m) as [v|]; [|reflexivity].
  destruct (iadd_one v); reflexivity.
Qed.

Lemma add_update_new (category q a : string)
    (cs : list (string * Category)) (md : option Metadata) :
  lookup category cs = None ->
  let cs' := (cs ++ [(category,
                      {| name := title category;
                         questions := Some [new_entry q a] |})])%list in
  add_question_update category q a {| categories := Some cs; metadata := md |}
  = match counted md with
    | Ok m' => (Ok tt, {| categories := Some cs'; metadata := Some m' |})
    | Raise e => (Raise e, {| categories := Some cs'; metadata := md |})
    end.
Proof.
  intros Hl cs'.
  assert (Hk : has_key category cs = false) by (apply has_key_lookup, Hl).
  unfold add_question_update, set_category, append_question,
    incr_total_questions, bindP, get, put, raise, ret, get_categories_dict,
    assign, counted.
  assert (Hr : forall (v v' : Category),
             replace category v' (cs ++ [(category, v)]) = cs ++ [(category, v')])
    by (intros v v'; apply replace_split, Hl).
  simpl. repeat (rewrite Hk; simpl).
  rewrite (lookup_app_none _ _ _ Hl). simpl. rewrite String.eqb_refl. simpl.
  rewrite Hr.
  destruct md as [m|]; [|reflexivity].
  destruct (total_questions m) as [v|]; [|reflexivity].
  destruct (iadd_one v); reflexivity.
Qed.

Lemma add_update_no_questions (category q a : string)
    (cs : list (string * Category)) (md : option Metadata) (c : Category) :
  lookup category cs = Some c -> questions c = None ->
  add_question_update category q a {| categories := Some cs; metadata := md |}
  = (Raise KeyError, {| categories := Some cs; metadata := md |}).
Proof.
  intros Hl Hq.
  assert (Hk : has_key category cs = true).
  { destruct (has_key category cs) eqn:E; [reflexivity|].
    apply has_key_lookup in E. congruence. }
  unfold add_question_update, set_category, append_question,
    incr_total_questions, bindP, get, put, raise, ret, get_categories_dict.
  simpl. rewrite Hk. simpl. rewrite Hl, Hq. reflexivity.
Qed.

Lemma add_update_no_categories (category q a : string)
    (md : option Metadata) :
  add_question_update category q a {| categories := None; metadata := md |}
  = (Raise KeyError, {| categories := None; metadata := md |}).
Proof. reflexivity. Qed.

Lemma flat_split (pre post : list (string * Category)) (k : string)
    (c : Category) (md : option Metadata) :
  get_all_questions
    {| categories := Some (pre ++ (k, c) :: post); metadata := md |}
  = flat_map (fun kc => get_questions (snd kc)) pre
    ++ get_questions c
    ++ flat_map (fun kc => get_questions (snd kc)) post.
Proof.
  unfold get_all_questions, get_categories_dict. simpl.
  rewrite flat_map_app. reflexivity.
Qed.

Lemma save_after_update (d d' : FaqData) (fs : Storage)
    (category q a : string) :
  add_question_update category q a d = (Ok tt, d') ->
  add_question_data d fs category q a
  = (true, d', snd (_save_faq_data d' fs)).
Proof.
  intro Hu. unfold add_question_data. rewrite Hu.
  unfold _save_faq_data, write_json. destruct (writable fs); reflexivity.
Qed.

(** Which ever way an accepted entry goes in, it is inserted at one place
    of the flattened corpus and the corpus is handed to the save. *)
Lemma add_question_inserts (d : FaqData) (fs : Storage)
    (category q a : string) :
  accepts d category ->
  exists d' l1 l2,
    add_question_data d fs category q a
    = (true, d', snd (_save_faq_data d' fs))
    /\ get_all_questions d = l1 ++ l2
    /\ get_all_questions d' = l1 ++ new_entry q a :: l2.
Proof.
  destruct d as [cats md].
  intros (cs & m & v & v' & Hc & Hm & Hv & Hi & Hcase).
  simpl in Hc, Hm. subst cats md.
  assert (Hcount : counted (Some m) = Ok (bump m v'))
    by (apply counted_ok; exists m, v, v'; auto).
  destruct Hcase as [Hn|(c & qs & Hl & Hq)].
  - pose proof (add_update_new category q a cs (Some m) Hn) as Hu.
    cbv zeta in Hu. rewrite Hcount in Hu.
    eexists _, (get_all_questions
                  {| categories := Some cs; metadata := Some m |}), [].
    split; [apply save_after_update, Hu|]. rewrite app_nil_r.
    split; [reflexivity|].
    unfold get_all_questions, get_categories_dict. simpl.
    rewrite flat_map_app. reflexivity.
  - pose proof (add_update_existing category q a cs (Some m) c qs Hl Hq)
      as Hu.
    cbv zeta in Hu. rewrite Hcount in Hu.
    destruct (lookup_split _ _ _ Hl) as (pre & post & -> & Hpre).
    rewrite (replace_split _ c _ pre post Hpre) in Hu.
    eexists _, (flat_map (fun kc => get_questions (snd kc)) pre ++ qs),
      (flat_map (fun kc => get_questions (snd kc)) post).
    split; [apply save_after_update, Hu|].
    rewrite !flat_split.
    assert (Hc : get_questions c = qs)
      by (unfold get_questions; rewrite Hq; reflexivity).
    assert (Hc' : get_questions
                    {| name := name c;
                       questions := Some (qs ++ [new_entry q a]) |}
                  = qs ++ [new_entry q a]) by reflexivity.
    rewrite Hc, Hc', <- !app_assoc. split; reflexivity.
Qed.

(** X1. [add_question] into a category that exists, on a corpus whose
    metadata counts its questions with an integer: the operation answers
    [True]; the entry becomes the last one of its category, directly behind
    the entries the category had; no other category, and no key, changes;
    [total_questions] grows by one; the corpus is handed to the save. *)
Theorem add_question_appends_to_category (d : FaqData) (fs : Storage)
    (category q a : string) (cs : list (string * Category)) (m : Metadata)
    (n : Z) (c : Category) (qs : list QA) :
  categories d = Some cs -> metadata d = Some m ->
  total_questions m = Some (JInt n) ->
  lookup category cs = Some c -> questions c = Some qs ->
  exists d' cs',
    add_question_data d fs category q a
    = (true, d', snd (_save_faq_data d' fs))
    /\ categories d' = Some cs'
    /\ get_categories d' = get_categories d
    /\ lookup category cs'
       = Some {| name := name c; questions := Some (qs ++ [new_entry q a]) |}
    /\ (forall k, k <> category -> lookup k cs' = lookup k cs)
    /\ metadata d' = Some (bump m (JInt (n + 1)))
    /\ exists l1 l2,
         get_all_questions d = l1 ++ qs ++ l2
         /\ get_all_questions d' = l1 ++ qs ++ new_entry q a :: l2.
Proof.
  destruct d as [cats md]. simpl. intros -> -> Hn Hl Hq.
  pose proof (add_update_existing category q a cs (Some m) c qs Hl Hq) as Hu.
  cbv zeta in Hu. unfold counted in Hu. rewrite Hn in Hu. cbn [iadd_one] in Hu.
  set (c' := {| name := name c; questions := Some (qs ++ [new_entry q a]) |})
    in *.
  exists {| categories := Some (replace category c' cs);
            metadata := Some (bump m (JInt (n + 1))) |},
    (replace category c' cs).
  split; [apply save_after_update, Hu|].
  split; [reflexivity|].
  split; [unfold get_categories, get_categories_dict; simpl;
          apply replace_keys|].
  split; [apply (lookup_replace_same _ c), Hl|].
  split; [intros k Hk; apply lookup_replace_other, Hk|].
  split; [reflexivity|].
  destruct (lookup_split _ _ _ Hl) as (pre & post & -> & Hpre).
  rewrite (replace_split _ c c' pre post Hpre).
  exists (flat_map (fun kc => get_questions (snd kc)) pre),
    (flat_map (fun kc => get_questions (snd kc)) post).
  rewrite !flat_split.
  assert (Hc : get_questions c = qs) by (unfold get_questions; rewrite Hq; reflexivity).
  assert (Hc' : get_questions c' = qs ++ [new_entry q a]) by reflexivity.
  rewrite Hc, Hc'. split; [reflexivity|].
  rewrite <- app_assoc. reflexivity.
Qed.

(** X2. [add_question] under a category name that is not yet a key, on a
    corpus whose metadata counts its questions with an integer: the
    operation answers [True]; the category is created as the last key, its
    display name the title-cased key, its only entry the new one; the
    flattened corpus is the old one followed by the new entry, so every
    entry keeps its position; [total_questions] grows by one. *)
Theorem add_question_creates_category (d : FaqData) (fs : Storage)
    (category q a : string) (cs : list (string * Category)) (m : Metadata)
    (n : Z) :
  categories d = Some cs -> metadata d = Some m ->
  total_questions m = Some (JInt n) ->
  lookup category cs = None ->
  exists d' cs',
    add_question_data d fs category q a
    = (true, d', snd (_save_faq_data d' fs))
    /\ categories d' = Some cs'
    /\ get_categories d' = get_categories d ++ [category]
    /\ lookup category cs'
       = Some {| name := title category;
                 questions := Some [new_entry q a] |}
    /\ (forall k, k <> category -> lookup k cs' = lookup k cs)
    /\ metadata d' = Some (bump m (JInt (n + 1)))
    /\ get_all_questions d' = get_all_questions d ++ [new_entry q a].
Proof.
  destruct d as [cats md]. simpl. intros -> -> Hn Hl.
  pose proof (add_update_new category q a cs (Some m) Hl) as Hu.
  cbv zeta in Hu. unfold counted in Hu. rewrite Hn in Hu. cbn [iadd_one] in Hu.
  set (c' := {| name := title category; questions := Some [new_entry q a] |})
    in *.
  exists {| categories := Some (cs ++ [(category, c')]);
            metadata := Some (bump m (JInt (n + 1))) |},
    (cs ++ [(category, c')]).
  split; [apply save_after_update, Hu|].
  split; [reflexivity|].
  split; [unfold get_categories, get_categories_dict; simpl;
          rewrite map_app; reflexivity|].
  split; [rewrite (lookup_app_none _ _ _ Hl); simpl;
          rewrite String.eqb_refl; reflexivity|].
  split; [intros k Hk; apply lookup_snoc_other, Hk|].
  split; [reflexivity|].
  unfold get_all_questions, get_categories_dict. simpl.
  rewrite flat_map_app. reflexivity.
Qed.

Lemma accepts_counted (cs : list (string * Category)) (md : option Metadata)
    (category : string) :
  accepts {| categories := Some cs; metadata := md |} category
  <-> (exists m', counted md = Ok m')
      /\ (lookup category cs = None
          \/ exists c qs, lookup category cs = Some c /\ questions c = Some qs).
Proof.
  unfold accepts. cbn [categories metadata]. split.
  - intros (cs0 & m & v & v' & Hc & Hm & Hv & Hi & Hcase).
    injection Hc as <-. split; [|exact Hcase].
    exists (bump m v'). apply counted_ok. exists m, v, v'. auto.
  - intros [[m' Hm'] Hcase]. apply counted_ok in Hm'.
    destruct Hm' as (m & v & v' & Hm & Hv & Hi & _).
    exists cs, m, v, v'. auto.
Qed.

(** X3. On a corpus whose "categories", categories, "questions" lists and
    "metadata" are containers of the expected kind wherever they are
    present, [add_question] answers [True] exactly when every subscript and
    the increment succeed: "categories" and "metadata" exist, the metadata
    has a "total_questions" that is a number (an int, a bool or a float),
    and a category that is already there has its "questions".  When it
    answers [False] nothing is written. *)
Theorem add_question_succeeds_iff (d : FaqData) (fs : Storage)
    (category q a : string) :
  (fst (fst (add_question_data d fs category q a)) = true
   <-> accepts d category)
  /\ (fst (fst (add_question_data d fs category q a)) = false ->
      snd (add_question_data d fs category q a) = fs).
Proof.
  destruct d as [[cs|] md].
  - rewrite accepts_counted.
    assert (Hfin : forall cs',
      add_question_update category q a
        {| categories := Some cs; metadata := md |}
      = match counted md with
        | Ok m' => (Ok tt, {| categories := Some cs'; metadata := Some m' |})
        | Raise e => (Raise e, {| categories := Some cs'; metadata := md |})
        end ->
      (fst (fst (add_question_data {| categories := Some cs; metadata := md |}
                   fs category q a)) = true
       <-> (exists m', counted md = Ok m'))
      /\ (fst (fst (add_question_data
                      {| categories := Some cs; metadata := md |}
                      fs category q a)) = false ->
          snd (add_question_data {| categories := Some cs; metadata := md |}
                 fs category q a) = fs)).
    { intros cs' Hu. unfold add_question_data. rewrite Hu.
      destruct (counted md) as [m'|e].
      - unfold _save_faq_data, write_json.
        destruct (writable fs); simpl;
          (split; [|discriminate]); (split; [intros _|reflexivity]);
          exists m'; reflexivity.
      - simpl. split; [|reflexivity]. split; [discriminate|].
        intros [m' Hm']. discriminate. }
    destruct (lookup category cs) as [c|] eqn:Hl.
    + destruct (questions c) as [qs|] eqn:Hq.
      * destruct (Hfin _ (add_update_existing category q a cs md c qs Hl Hq))
          as [Hiff Hfs].
        split; [|exact Hfs]. rewrite Hiff. split.
        -- intro H. split; [exact H|]. right. exists c, qs. auto.
        -- intros [H _]. exact H.
      * unfold add_question_data.
        rewrite (add_update_no_questions category q a cs md c Hl Hq).
        simpl. split; [|reflexivity]. split; [discriminate|].
        intros [_ [Hn|(c0 & qs & Hl0 & Hq0)]]; congruence.
    + destruct (Hfin _ (add_update_new category q a cs md Hl)) as [Hiff Hfs].
      split; [|exact Hfs]. rewrite Hiff. split.
      * intro H. split; [exact H|]. left. reflexivity.
      * intros [H _]. exact H.
  - unfold add_question_data. rewrite add_update_no_categories. simpl.
    split; [|reflexivity]. split; [discriminate|].
    intros (cs0 & m & v & v' & Hc & _). discriminate.
Qed.

(** X4. No rollback: when only the "metadata" key is missing, [add_question]
    answers [False] and saves nothing, yet the entry has been appended to
    its category in memory. *)
Theorem add_question_failure_keeps_append (d : FaqData) (fs : Storage)
    (category q a : string) (cs : list (string * Category)) (c : Category)
    (qs : list QA) :
  categories d = Some cs -> metadata d = None ->
  lookup category cs = Some c -> questions c = Some qs ->
  exists d',
    add_question_data d fs category q a = (false, d', fs)
    /\ exists l1 l2,
         get_all_questions d = l1 ++ qs ++ l2
         /\ get_all_questions d' = l1 ++ qs ++ new_entry q a :: l2.
Proof.
  destruct d as [cats md]. simpl. intros -> -> Hl Hq.
  pose proof (add_update_existing category q a cs None c qs Hl Hq) as Hu.
  cbv zeta in Hu. cbn [counted] in Hu.
  set (c' := {| name := name c; questions := Some (qs ++ [new_entry q a]) |})
    in *.
  exists {| categories := Some (replace category c' cs); metadata := None |}.
  split; [unfold add_question_data; rewrite Hu; reflexivity|].
  destruct (lookup_split _ _ _ Hl) as (pre & post & -> & Hpre).
  rewrite (replace_split _ c c' pre post Hpre).
  exists (flat_map (fun kc => get_questions (snd kc)) pre),
    (flat_map (fun kc => get_questions (snd kc)) post).
  rewrite !flat_split.
  assert (Hc : get_questions c = qs) by (unfold get_questions; rewrite Hq; reflexivity).
  assert (Hc' : get_questions c' = qs ++ [new_entry q a]) by reflexivity.
  rewrite Hc, Hc'. split; [reflexivity|].
  rewrite <- app_assoc. reflexivity.
Qed.

Lemma add_question_appends_to_category_default :
  exists d',
    add_question_data _get_default_faq_data Sample.no_file
      "general" "Is there a manual?" "See the help page."
    = (true, d', snd (_save_faq_data d' Sample.no_file))
    /\ length (get_all_questions d') = 10
    /\ option_map total_questions (metadata d') = Some (Some (JInt 10)).
Proof.
  destruct (add_question_appends_to_category _get_default_faq_data
              Sample.no_file "general" "Is there a manual?"
              "See the help page." _ _ 9%Z _ _
              eq_refl eq_refl eq_refl eq_refl eq_refl)
    as (d' & cs' & Hrun & _ & _ & _ & _ & Hmeta & l1 & l2 & H1 & H2).
  exists d'. split; [exact Hrun|]. split.
  - apply (f_equal (@length QA)) in H1. rewrite H2.
    rewrite !length_app in *. simpl in *. lia.
  - rewrite Hmeta. reflexivity.
Defined.

Lemma add_question_creates_category_default :
  exists d',
    add_question_data _get_default_faq_data Sample.no_file
      "privacy policy" "Are my photos stored?" "No."
    = (true, d', snd (_save_faq_data d' Sample.no_file))
    /\ get_categories d' = ["general"; "analysis"; "usage"; "privacy policy"]
    /\ nth_error (get_all_questions d') 9
       = Some (new_entry "Are my photos stored?" "No.").
Proof.
  destruct (add_question_creates_category _get_default_faq_data
              Sample.no_file "privacy policy" "Are my photos stored?" "No."
              _ _ 9%Z eq_refl eq_refl eq_refl eq_refl)
    as (d' & cs' & Hrun & _ & Hkeys & _ & _ & _ & Hall).
  exists d'. split; [exact Hrun|]. split; [exact Hkeys|].
  rewrite Hall. reflexivity.
Defined.

(** Three refusals: no "categories"; a metadata block without
    "total_questions"; a counter that is a string. *)
Lemma add_question_succeeds_iff_refusals :
  fst (fst (add_question_data {| categories := None; metadata := None |}
              Sample.no_file "general" "Is there a manual?" "See the help page."))
  = false
  /\ fst (fst (add_question_data
                 {| categories := categories _get_default_faq_data;
                    metadata := Some {| version := "1.0";
                                        last_updated := "2024-01-01";
                                        total_questions := None |} |}
                 Sample.no_file "general" "Is there a manual?"
                 "See the help page."))
     = false
  /\ fst (fst (add_question_data
                 {| categories := categories _get_default_faq_data;
                    metadata := Some {| version := "1.0";
                                        last_updated := "2024-01-01";
                                        total_questions := Some (JString "9") |} |}
                 Sample.no_file "general" "Is there a manual?"
                 "See the help page."))
     = false.
Proof.
  split; [|split].
  - destruct (add_question_succeeds_iff
                {| categories := None; metadata := None |}
                Sample.no_file "general" "Is there a manual?"
                "See the help page.") as [[Hto _] _].
    destruct (fst (fst (add_question_data _ _ _ _ _))); [|reflexivity].
    destruct (Hto eq_refl) as (cs & m & v & v' & Hc & _). discriminate.
  - destruct (add_question_succeeds_iff
                {| categories := categories _get_default_faq_data;
                   metadata := Some {| version := "1.0";
                                       last_updated := "2024-01-01";
                                       total_questions := None |} |}
                Sample.no_file "general" "Is there a manual?"
                "See the help page.") as [[Hto _] _].
    destruct (fst (fst (add_question_data _ _ _ _ _))); [|reflexivity].
    destruct (Hto eq_refl) as (cs & m & v & v' & _ & Hm & Hv & _).
    cbn [metadata] in Hm. injection Hm as <-. discriminate.
  - destruct (add_question_succeeds_iff
                {| categories := categories _get_default_faq_data;
                   metadata := Some {| version := "1.0";
                                       last_updated := "2024-01-01";
                                       total_questions := Some (JString "9") |} |}
                Sample.no_file "general" "Is there a manual?"
                "See the help page.") as [[Hto _] _].
    destruct (fst (fst (add_question_data _ _ _ _ _))); [|reflexivity].
    destruct (Hto eq_refl) as (cs & m & v & v' & _ & Hm & Hv & Hi & _).
    cbn [metadata] in Hm. injection Hm as <-.
    cbn [total_questions] in Hv. injection Hv as <-. discriminate.
Defined.

Lemma add_question_failure_keeps_append_sample :
  exists d',
    add_question_data
      {| categories := categories _get_default_faq_data; metadata := None |}
      Sample.no_file "usage" "Is there a manual?" "See the help page."
    = (false, d', Sample.no_file)
    /\ length (get_all_questions d') = 10.
Proof.
  destruct (add_question_failure_keeps_append
              {| categories := categories _get_default_faq_data;
                 metadata := None |}
              Sample.no_file "usage" "Is there a manual?"
              "See the help page." _ _ _ eq_refl eq_refl eq_refl eq_refl)
    as (d' & Hrun & l1 & l2 & H1 & H2).
  exists d'. split; [exact Hrun|].
  apply (f_equal (@length QA)) in H1. rewrite H2.
  rewrite !length_app in *. simpl in *. lia.
Defined.

(** ** Persistence *)




(** ** Exact lookup: [get_question_answer] *)

Lemma find_answer_app (ql : string) (l1 l2 : list QA) :
  find_answer ql (l1 ++ l2)
  = match find_answer ql l1 with
    | Some a => Some a
    | None => find_answer ql l2
    end.
Proof.
  induction l1 as [|qa l1 IH]; simpl; [reflexivity|].
  destruct (String.eqb (Str.lower (question qa)) ql); [reflexivity | exact IH].
Qed.

Lemma get_question_answer_flat (d : FaqData) (q : string) :
  get_question_answer d q
  = find_answer (Str.lower q) (get_all_questions d).
Proof.
  unfold get_question_answer, get_all_questions.
  induction (get_categories_dict d) as [|[k c] cs IH]; simpl; [reflexivity|].
  rewrite find_answer_app, IH. reflexivity.
Qed.

Lemma find_answer_first (ql : string) (l : list QA) :
  match find_answer ql l with
  | None => forall qa, In qa l -> Str.lower (question qa) <> ql
  | Some a =>
      exists i qa,
        nth_error l i = Some qa /\ answer qa = a
        /\ Str.lower (question qa) = ql
        /\ forall j qa', j < i -> nth_error l j = Some qa' ->
             Str.lower (question qa') <> ql
  end.
Proof.
  induction l as [|qa l IH]; simpl; [intros qa []|].
  destruct (String.eqb (Str.lower (question qa)) ql) eqn:E.
  - apply String.eqb_eq in E. exists 0, qa. repeat split; auto.
    intros j qa' Hj. lia.
  - apply String.eqb_neq in E.
    destruct (find_answer ql l) as [a|].
    + destruct IH as (i & qa0 & Hn & Ha & Hq & Hfirst).
      exists (S i), qa0. repeat split; auto.
      intros [|j] qa' Hj Hn'; simpl in Hn'.
      * injection Hn' as <-. exact E.
      * apply (Hfirst j); [lia | exact Hn'].
    + intros qa' [<-|Hin]; [exact E | apply IH, Hin].
Qed.

(** X6. [get_question_answer] compares lowercase questions: it returns the
    answer of the first entry, in corpus order, whose question equals the
    query up to case, and [None] exactly when there is no such entry. *)
Theorem get_question_answer_first_match (d : FaqData) (q : string) :
  match get_question_answer d q with
  | None =>
      forall qa, In qa (get_all_questions d) ->
        Str.lower (question qa) <> Str.lower q
  | Some a =>
      exists i qa,
        nth_error (get_all_questions d) i = Some qa /\ answer qa = a
        /\ Str.lower (question qa) = Str.lower q
        /\ forall j qa', j < i -> nth_error (get_all_questions d) j = Some qa' ->
             Str.lower (question qa') <> Str.lower q
  end.
Proof.
  rewrite get_question_answer_flat. apply find_answer_first.
Qed.

(** X7. Insert, then look up: after [add_question] has taken an entry, its
    question is found by [get_question_answer], in any letter case; the
    answer found is the new one whenever the question was not in the
    corpus before. *)
Theorem add_then_get_question_answer (d : FaqData) (fs : Storage)
    (category q a q' : string) :
  accepts d category ->
  Str.lower q' = Str.lower q ->
  let d' := snd (fst (add_question_data d fs category q a)) in
  (exists a', get_question_answer d' q' = Some a')
  /\ (get_question_answer d q' = None -> get_question_answer d' q' = Some a).
Proof.
  intros Hacc Hq d'.
  destruct (add_question_inserts d fs category q a Hacc)
    as (d1 & l1 & l2 & Hrun & H1 & H2).
  subst d'. rewrite Hrun. simpl.
  rewrite !get_question_answer_flat, H1, H2, !find_answer_app. simpl.
  rewrite Hq, String.eqb_refl.
  destruct (find_answer (Str.lower q) l1) as [a1|].
  - split; [eauto | discriminate].
  - split; [eauto | reflexivity].
Qed.

Lemma add_then_get_question_answer_default :
  get_question_answer
    (snd (fst (add_question_data _get_default_faq_data Sample.no_file
                 "general" "Is there a manual?" "See the help page.")))
    "IS THERE A MANUAL?"
  = Some "See the help page.".
Proof.
  apply (add_then_get_question_answer _get_default_faq_data Sample.no_file
           "general" "Is there a manual?" "See the help page."
           "IS THERE A MANUAL?").
  - exists (get_categories_dict _get_default_faq_data),
      {| version := "1.0"; last_updated := "2024-01-01";
         total_questions := Some (JInt 9) |}, (JInt 9), (JInt 10).
    split; [reflexivity|]. split; [reflexivity|].
    split; [reflexivity|]. split; [reflexivity|]. right.
    eexists _, _. split; reflexivity.
  - reflexivity.
  - vm_compute. reflexivity.
Defined.

(** ** Substring search: [search_questions] *)

Lemma search_score_cases (ql : string) (qa : QA) :
  search_score ql qa
  = ((if Str.contains ql (Str.lower (question qa)) then 3 else 0)
     + (if Str.contains ql (Str.lower (answer qa)) then 1 else 0))%Z.
Proof.
  unfold search_score.
  destruct (Str.contains ql (Str.lower (question qa)));
    destruct (Str.contains ql (Str.lower (answer qa))); reflexivity.
Qed.

Lemma search_matches_in (ql : string) (d : FaqData) (m : SearchMatch) :
  In m (search_matches ql d) <->
  exists k c qa,
    In (k, c) (get_categories_dict d) /\ In qa (get_questions c)
    /\ (0 < search_score ql qa)%Z
    /\ m = {| m_question := question qa; m_answer := answer qa;
              m_category := name c;
              relevance_score := search_score ql qa |}.
Proof.
  unfold search_matches, search_category. rewrite in_flat_map. split.
  - intros ([k c] & Hkc & Hm). simpl in Hm. apply in_flat_map in Hm.
    destruct Hm as (qa & Hqa & Hm).
    destruct (0 <? search_score ql qa)%Z eqn:E; [|destruct Hm].
    destruct Hm as [<-|[]]. apply Z.ltb_lt in E.
    exists k, c, qa. auto.
  - intros (k & c & qa & Hkc & Hqa & Hpos & ->).
    exists (k, c). split; [exact Hkc|]. simpl. apply in_flat_map.
    exists qa. split; [exact Hqa|].
    apply Z.ltb_lt in Hpos. rewrite Hpos. left. reflexivity.
Qed.

Lemma search_matches_scores (ql : string) (d : FaqData) :
  Forall (fun m => relevance_score m = 1 \/ relevance_score m = 3
                   \/ relevance_score m = 4)%Z
    (search_matches ql d).
Proof.
  apply Forall_forall. intros m Hm. apply search_matches_in in Hm.
  destruct Hm as (k & c & qa & _ & _ & Hpos & ->). simpl.
  rewrite search_score_cases in *.
  destruct (Str.contains ql (Str.lower (question qa)));
    destruct (Str.contains ql (Str.lower (answer qa))); simpl in *; lia.
Qed.

Lemma insert_match_pass (x : SearchMatch) (a b : list SearchMatch) :
  Forall (fun y => relevance_score x < relevance_score y)%Z a ->
  insert_match x (a ++ b) = a ++ insert_match x b.
Proof.
  induction a as [|y a IH]; simpl; intro H; [reflexivity|].
  inversion H as [|? ? Hy Ha]; subst.
  apply Z.ltb_lt in Hy. rewrite Hy. f_equal. apply IH, Ha.
Qed.

Lemma insert_match_stop (x : SearchMatch) (b : list SearchMatch) :
  Forall (fun y => relevance_score y <= relevance_score x)%Z b ->
  insert_match x b = x :: b.
Proof.
  destruct b as [|y b]; simpl; intro H; [reflexivity|].
  inversion H as [|? ? Hy Hb]; subst.
  apply Z.ltb_ge in Hy. rewrite Hy. reflexivity.
Qed.

Lemma with_score_forall (k : Z) (l : list SearchMatch) :
  Forall (fun m => relevance_score m = k) (with_score k l).
Proof.
  apply Forall_forall. intros m Hm. apply filter_In in Hm.
  destruct Hm as [_ Hm]. apply Z.eqb_eq, Hm.
Qed.

(** A stable sort of keys 4, 3 and 1 in decreasing order lists the
    elements of key 4, then of key 3, then of key 1, each group in its
    original order. *)
Lemma sort_matches_groups (l : list SearchMatch) :
  Forall (fun m => relevance_score m = 1 \/ relevance_score m = 3
                   \/ relevance_score m = 4)%Z l ->
  sort_matches l = with_score 4 l ++ with_score 3 l ++ with_score 1 l.
Proof.
  induction l as [|x l IH]; intro H; [reflexivity|].
  inversion H as [|? ? Hx Hl]; subst. simpl. rewrite (IH Hl).
  pose proof (with_score_forall 4 l) as F4.
  pose proof (with_score_forall 3 l) as F3.
  pose proof (with_score_forall 1 l) as F1.
  unfold with_score at 4 5 6. simpl.
  destruct Hx as [Hx|[Hx|Hx]]; rewrite Hx; simpl.
  - rewrite app_assoc, insert_match_pass.
    + rewrite insert_match_stop; [rewrite <- app_assoc; reflexivity|].
      eapply Forall_impl; [|exact F1]. simpl. intros m Hm. lia.
    + apply Forall_app. split; (eapply Forall_impl; [|eassumption]);
        simpl; intros m Hm; lia.
  - rewrite insert_match_pass.
    + rewrite insert_match_stop; [reflexivity|].
      apply Forall_app. split; (eapply Forall_impl; [|eassumption]);
        simpl; intros m Hm; lia.
    + eapply Forall_impl; [|exact F4]. simpl. intros m Hm. lia.
  - rewrite insert_match_stop; [reflexivity|].
    repeat (apply Forall_app; split);
      (eapply Forall_impl; [|eassumption]); simpl; intros m Hm; lia.
Qed.

(** X8. [search_questions] returns first the entries whose question and answer
    both contain the lowercase query (relevance 4), then those whose
    question alone does (3), then those whose answer alone does (1); each
    group is in corpus order, and an entry that contains the query in
    neither is left out. *)
Theorem search_questions_groups (d : FaqData) (q : string) :
  let ms := search_matches (Str.lower q) d in
  search_questions d q = with_score 4 ms ++ with_score 3 ms ++ with_score 1 ms
  /\ forall m,
       In m (search_questions d q) <->
       exists k c qa,
         In (k, c) (get_categories_dict d) /\ In qa (get_questions c)
         /\ (Str.contains (Str.lower q) (Str.lower (question qa)) = true
             \/ Str.contains (Str.lower q) (Str.lower (answer qa)) = true)
         /\ m = {| m_question := question qa; m_answer := answer qa;
                   m_category := name c;
                   relevance_score :=
                     (if Str.contains (Str.lower q) (Str.lower (question qa))
                      then 3 else 0)
                     + (if Str.contains (Str.lower q) (Str.lower (answer qa))
                        then 1 else 0) |}.
Proof.
  intro ms.
  assert (Hg : search_questions d q
               = with_score 4 ms ++ with_score 3 ms ++ with_score 1 ms)
    by (apply sort_matches_groups, search_matches_scores).
  split; [exact Hg|]. intro m.
  assert (Hin : In m (search_questions d q) <-> In m ms).
  { rewrite Hg, !in_app_iff. unfold with_score. rewrite !filter_In.
    pose proof (search_matches_scores (Str.lower q) d) as Hs.
    rewrite Forall_forall in Hs. split.
    - intros [[H _]|[[H _]|[H _]]]; exact H.
    - intro H. destruct (Hs m H) as [E|[E|E]]; rewrite E; simpl; auto. }
  rewrite Hin. unfold ms. rewrite search_matches_in.
  split; intros (k & c & qa & Hkc & Hqa & Hpos & ->);
    exists k, c, qa; rewrite search_score_cases in *;
    (split; [exact Hkc|]); (split; [exact Hqa|]);
    destruct (Str.contains (Str.lower q) (Str.lower (question qa)));
    destruct (Str.contains (Str.lower q) (Str.lower (answer qa)));
    simpl in *; repeat split; auto; try lia;
    destruct Hpos; discriminate.
Qed.

Lemma contains_empty (s : string) : Str.contains "" s = true.
Proof. destruct s; reflexivity. Qed.

(** X9. The empty query matches everything: [search_questions] returns the
    whole corpus in corpus order, every entry with relevance 4. *)
Theorem search_questions_empty_query (d : FaqData) :
  map (fun m => {| question := m_question m; answer := m_answer m |})
    (search_questions d "")
  = get_all_questions d
  /\ Forall (fun m => relevance_score m = 4%Z) (search_questions d "").
Proof.
  assert (Hms : Forall (fun m => relevance_score m = 4%Z)
                  (search_matches "" d)).
  { apply Forall_forall. intros m Hm. apply search_matches_in in Hm.
    destruct Hm as (k & c & qa & _ & _ & _ & ->). simpl.
    rewrite search_score_cases, !contains_empty. reflexivity. }
  assert (Hkeep : forall l, Forall (fun m => relevance_score m = 4%Z) l ->
                    with_score 4 l = l /\ with_score 3 l = []
                    /\ with_score 1 l = []).
  { induction l as [|x l IH]; intro H; [auto|].
    inversion H as [|? ? Hx Hl]; subst. destruct (IH Hl) as (E4 & E3 & E1).
    unfold with_score in *. simpl. rewrite Hx, E4, E3, E1. auto. }
  assert (Hg : search_questions d ""
               = with_score 4 (search_matches "" d)
                 ++ with_score 3 (search_matches "" d)
                 ++ with_score 1 (search_matches "" d))
    by (apply sort_matches_groups, search_matches_scores).
  destruct (Hkeep _ Hms) as (E4 & E3 & E1).
  rewrite E4, E3, E1, !app_nil_r in Hg. rewrite Hg.
  split; [|exact Hms].
  unfold search_matches, search_category, get_all_questions.
  induction (get_categories_dict d) as [|[k c] cs IH]; simpl; [reflexivity|].
  rewrite map_app, IH. f_equal.
  induction (get_questions c) as [|qa qas IHq]; simpl; [reflexivity|].
  rewrite search_score_cases, !contains_empty. simpl.
  destruct qa. f_equal. exact IHq.
Qed.

(** ** Construction *)

Lemma encode_aligned (B : Backend) (texts : list string)
    (vs : list (Vec B)) :
  encode B texts = Ok vs ->
  Forall2 (fun t v => embed B t = Ok v) texts vs.
Proof.
  revert vs. induction texts as [|t rest IH]; intros vs H; simpl in H.
  - injection H as <-. constructor.
  - destruct (embed B t) as [v|e] eqn:Ev; simpl in H; [|discriminate].
    destruct (encode B rest) as [vs'|e]; simpl in H; [|discriminate].
    injection H as <-. constructor; [exact Ev | apply IH; reflexivity].
Qed.

Lemma encode_succeeds_iff (B : Backend) (texts : list string) :
  (exists vs, encode B texts = Ok vs)
  <-> forall t, In t texts -> exists v, embed B t = Ok v.
Proof.
  induction texts as [|t rest IH]; simpl.
  - split; [intros _ t [] | intros _; eexists; reflexivity].
  - split.
    + intros [vs H] t' [<-|Hin].
      * destruct (embed B t) as [v|e]; [eauto | discriminate].
      * apply IH; [|exact Hin].
        destruct (embed B t); simpl in H; [|discriminate].
        destruct (encode B rest); [eauto | discriminate].
    + intro H. destruct (H t (or_introl eq_refl)) as [v ->]. simpl.
      destruct (proj2 IH (fun t' Hin => H t' (or_intror Hin))) as [vs ->].
      simpl. eauto.
Qed.

(** X10. [__init__] always yields a handler, holding the corpus that
    [_load_faq_data] returned.  The handler has cached embeddings exactly
    when the model was constructed and every stored question could be
    embedded; the cache then has one row per corpus entry, row [i] the
    embedding of question [i], and [questions_list] is the list of
    questions.  Otherwise [questions_list] is empty, and without a model
    there is no cache. *)
Theorem init_modes (B : Backend) (fs : Storage)
    (loaded : result SentenceTransformer) :
  exists h,
    __init__ B fs loaded = Ok h
    /\ _load_faq_data fs = Ok (faq_data h)
    /\ ((exists cache, question_embeddings h = Some cache)
        <-> (exists m, loaded = Ok m)
            /\ forall qa, In qa (get_all_questions (faq_data h)) ->
                 exists v, embed B (question qa) = Ok v)
    /\ (forall cache, question_embeddings h = Some cache ->
          model h <> None
          /\ questions_list h = map question (get_all_questions (faq_data h))
          /\ Forall2 (fun qa v => embed B (question qa) = Ok v)
               (get_all_questions (faq_data h)) cache)
    /\ (question_embeddings h = None -> questions_list h = [])
    /\ (model h = None -> question_embeddings h = None).
Proof.
  assert (Hload : exists d, _load_faq_data fs = Ok d).
  { unfold _load_faq_data, file_exists, read_json.
    destruct (stored fs); simpl; eexists; reflexivity. }
  destruct Hload as [d Hd].
  unfold __init__. rewrite Hd. simpl.
  destruct loaded as [m|e].
  - unfold _initialize_embeddings. simpl.
    pose proof (encode_succeeds_iff B (map question (get_all_questions d)))
      as Hiff.
    destruct (encode B (map question (get_all_questions d))) as [vs|e] eqn:E.
    + eexists. split; [reflexivity|]. simpl. split; [reflexivity|].
      split; [|split; [|split]].
      * split; [intros _|eauto]. split; [eauto|].
        intros qa Hin. apply (proj1 Hiff); [eauto|]. apply in_map, Hin.
      * intros cache Hc. injection Hc as <-.
        split; [discriminate|]. split; [reflexivity|].
        apply encode_aligned in E. clear Hiff.
        revert vs E. induction (get_all_questions d) as [|qa l IH];
          intros vs E; inversion E; subst; constructor; auto.
      * discriminate.
      * discriminate.
    + eexists. split; [reflexivity|]. simpl. split; [reflexivity|].
      split; [|split; [|split]].
      * split; [intros [c Hc]; discriminate|].
        intros [_ Hall]. exfalso.
        assert (H : exists vs, @Raise (list (Vec B)) e = Ok vs).
        { apply (proj2 Hiff). intros t Ht. apply in_map_iff in Ht.
          destruct Ht as (qa & <- & Hin). apply Hall, Hin. }
        destruct H as [vs H]. discriminate.
      * discriminate.
      * reflexivity.
      * discriminate.
  - eexists. split; [reflexivity|]. simpl. split; [reflexivity|].
    split; [|split; [|split]].
    + split; [intros [c Hc]; discriminate | intros [[m Hm] _]; discriminate].
    + discriminate.
    + reflexivity.
    + reflexivity.
Qed.

(** ** Failures at query time *)

(** X11. When the query cannot be embedded, or the cache is the empty one of an
    empty corpus, [answer_question] returns what the lexical fallback
    returns and [get_similar_questions] returns the empty list. *)
Theorem query_failure_falls_back (B : Backend) (h : FAQHandler B)
    (q : string) (top_k : Z) :
  (exists e, embed B q = Raise e) \/ question_embeddings h = Some [] ->
  answer_question B h q = _fallback_answer_question (faq_data h) q
  /\ get_similar_questions B h q top_k = Ok [].
Proof.
  intro H.
  destruct (fallback_answer_cases (faq_data h) q) as (out & Hout & _).
  unfold answer_question, get_similar_questions, answer_with_embeddings.
  destruct (model h) as [m|]; [|rewrite Hout; auto].
  destruct H as [[e He]|Hc].
  - rewrite He.
    destruct (question_embeddings h); simpl; rewrite ?Hout; auto.
  - rewrite Hc. destruct (embed B q); simpl; auto.
Qed.

Lemma query_failure_falls_back_broken :
  let h := Sample.handler_of Sample.broken Sample.no_file
             (Ok all_MiniLM_L6_v2) in
  answer_question Sample.broken h "upload image"
  = _fallback_answer_question (faq_data h) "upload image"
  /\ get_similar_questions Sample.broken h "upload image" 3 = Ok [].
Proof.
  apply query_failure_falls_back. left. exists RuntimeError. reflexivity.
Defined.

(** ** Blank queries *)

Lemma lower_char_space (c : ascii) :
  Str.isspace c = true -> Str.lower_char c = c.
Proof.
  destruct c as [[] [] [] [] [] [] [] []]; vm_compute;
    intro H; try reflexivity; discriminate.
Qed.

Lemma lower_blank (s : string) : blank s = true -> blank (Str.lower s) = true.
Proof.
  induction s as [|c s IH]; simpl; [reflexivity|].
  intro H. apply andb_true_iff in H. destruct H as [Hc Hs].
  rewrite (lower_char_space c Hc), Hc. simpl. apply IH, Hs.
Qed.

Lemma split_blank (s : string) : blank s = true -> Str.split s = [].
Proof.
  unfold Str.split. induction s as [|c s IH]; simpl; [reflexivity|].
  intro H. apply andb_true_iff in H. destruct H as [Hc Hs].
  rewrite Hc. simpl. apply IH, Hs.
Qed.

Lemma starts_nonspace_append (cur : string) (c : ascii) :
  cur = EmptyString \/ starts_nonspace cur -> Str.isspace c = false ->
  starts_nonspace (cur ++ String c EmptyString)%string.
Proof.
  intros [->|H] Hc; [exact Hc|].
  destruct cur; [destruct H | exact H].
Qed.

(** Every token of [split] starts with a character that is no white
    space; in particular no token is empty. *)
Lemma split_from_tokens (s cur t : string) :
  cur = EmptyString \/ starts_nonspace cur ->
  In t (Str.split_from cur s) -> starts_nonspace t.
Proof.
  revert cur. induction s as [|c s IH]; intros cur Hcur Hin; simpl in Hin.
  - destruct cur; simpl in Hin; [destruct Hin|].
    destruct Hin as [<-|[]]. destruct Hcur as [Hc|Hc]; [discriminate | exact Hc].
  - destruct (Str.isspace c) eqn:Hc.
    + destruct cur; simpl in Hin.
      * apply (IH EmptyString); [left; reflexivity | exact Hin].
      * destruct Hin as [<-|Hin].
        -- destruct Hcur as [Hc'|Hc']; [discriminate | exact Hc'].
        -- apply (IH EmptyString); [left; reflexivity | exact Hin].
    + apply (IH (cur ++ String c EmptyString)%string); [|exact Hin].
      right. apply starts_nonspace_append; assumption.
Qed.

Lemma split_tokens (s t : string) : In t (Str.split s) -> starts_nonspace t.
Proof. apply split_from_tokens. left. reflexivity. Qed.

Lemma contains_blank (w s : string) :
  starts_nonspace w -> blank s = true -> Str.contains w s = false.
Proof.
  intros Hw. induction s as [|b s IH]; simpl; intro Hs.
  - destruct w; [destruct Hw | reflexivity].
  - apply andb_true_iff in Hs. destruct Hs as [Hb Hs].
    rewrite (IH Hs), orb_false_r.
    destruct w as [|c w]; [destruct Hw|]. simpl in *.
    destruct (Ascii.eqb c b) eqn:E; [|reflexivity].
    apply Ascii.eqb_eq in E. congruence.
Qed.

Lemma any_word_in_blank (text ql : string) :
  blank ql = true -> any_word_in (Str.split text) ql = false.
Proof.
  intro Hb. unfold any_word_in.
  destruct (existsb _ _) eqn:E; [|reflexivity].
  apply existsb_exists in E. destruct E as (w & Hin & Hc).
  rewrite (contains_blank w ql (split_tokens _ _ Hin) Hb) in Hc. discriminate.
Qed.

Lemma fallback_score_blank (q : string) (qa : QA) :
  blank q = true -> fallback_score (Str.lower q) qa = Ok F64.zero.
Proof.
  intro Hb. apply lower_blank in Hb. unfold fallback_score.
  rewrite (split_blank _ Hb). simpl.
  rewrite !(any_word_in_blank _ _ Hb). reflexivity.
Qed.

(** X12. A query that is empty or consists of white space only scores zero
    against every entry: the fallback returns the fixed message, whatever
    the corpus, and so does [answer_question] on a handler without model
    or without cache. *)
Theorem blank_query_is_uncertain (B : Backend) (h : FAQHandler B)
    (q : string) :
  blank q = true ->
  _fallback_answer_question (faq_data h) q = Ok uncertain_message
  /\ (model h = None \/ question_embeddings h = None ->
      answer_question B h q = Ok uncertain_message).
Proof.
  intro Hb.
  assert (Hf : _fallback_answer_question (faq_data h) q = Ok uncertain_message).
  { rewrite fallback_answer_fold.
    pose proof (fallback_loop_best (Str.lower q)
                  (get_all_questions (faq_data h))) as Hbest.
    set (best := fold_left _ _ _) in *. unfold best_of in Hbest.
    unfold fallback_select.
    destruct (fst best) as [a|]; [|reflexivity]. exfalso.
    destruct Hbest as (i & qa & _ & _ & Hs & Hp & _).
    rewrite Hs in Hp. unfold score_value in Hp.
    rewrite (fallback_score_blank q qa Hb) in Hp.
    discriminate Hp. }
  split; [exact Hf|].
  intro Hmode. unfold answer_question. destruct Hmode as [-> | Hq].
  - rewrite Hf. reflexivity.
  - rewrite Hq. destruct (model h); rewrite Hf; reflexivity.
Qed.

Lemma blank_query_is_uncertain_default :
  answer_question Sample.exact_low Sample.fallback_handler "  "
  = Ok uncertain_message.
Proof.
  apply (blank_query_is_uncertain Sample.exact_low Sample.fallback_handler "  ").
  - reflexivity.
  - left. reflexivity.
Defined.

(** ** The range of the lexical score *)

(** X13. The lexical score of an entry is a double that is neither NaN nor
    negative.  It is exactly zero when no token of the entry's question
    or answer occurs in the query text, and above 0.2 as soon as one does.
    The test [best_score > 0.2] can therefore never reject an entry that
    scored. *)
Theorem fallback_score_range (ql : string) (qa : QA) :
  exists s,
    fallback_score ql qa = Ok s
    /\ F64.nonneg s
    /\ (s = F64.zero \/ F64.ltb F64.one_fifth s = true)
    /\ (any_word_in (Str.split (Str.lower (question qa))) ql = true
        \/ any_word_in (Str.split (Str.lower (answer qa))) ql = true ->
        F64.ltb F64.one_fifth s = true).
Proof.
  exists (score_value ql qa). split; [apply fallback_score_ok|].
  split; [apply score_value_nonneg|].
  destruct (score_value_range ql qa) as [Hzero Hpass].
  split; [|exact Hpass].
  destruct (any_word_in (Str.split (Str.lower (question qa))) ql) eqn:E1;
    [right; apply Hpass; left; reflexivity|].
  destruct (any_word_in (Str.split (Str.lower (answer qa))) ql) eqn:E2;
    [right; apply Hpass; right; reflexivity|].
  left. apply Hzero; reflexivity.
Qed.

Lemma truthy_nonempty (s : string) : s <> "" -> Str.truthy s = true.
Proof. destruct s; [congruence | reflexivity]. Qed.

(** X14. One shared token is enough.  When a token of some entry's question or
    answer occurs anywhere in the lowercase query, even inside a longer
    word, and no stored answer is empty, the fallback returns the answer of
    a corpus entry and not the fixed message for lack of a match. *)
Theorem fallback_answers_on_any_token (d : FaqData) (q : string) (qa : QA) :
  In qa (get_all_questions d) ->
  LexicalSpec.token_occurs (question qa) q = true
  \/ LexicalSpec.token_occurs (answer qa) q = true ->
  (forall qa', In qa' (get_all_questions d) -> answer qa' <> "") ->
  exists i winner,
    nth_error (get_all_questions d) i = Some winner
    /\ _fallback_answer_question d q = Ok (answer winner)
    /\ F64.ltb (LexicalSpec.score q winner) (LexicalSpec.score q qa) = false.
Proof.
  intros Hin Htok Hne. rewrite fallback_answer_fold.
  pose proof (fallback_loop_best (Str.lower q) (get_all_questions d)) as Hb.
  set (best := fold_left _ _ _) in *. unfold best_of in Hb.
  destruct (score_value_range (Str.lower q) qa) as [_ Hqa].
  specialize (Hqa Htok).
  pose proof (score_value_nonneg (Str.lower q) qa) as Hnq.
  unfold fallback_select.
  destruct (fst best) as [a|].
  - destruct Hb as (i & w & Hnth & Ha & Hs & Hp & Hmax & _).
    exists i, w. split; [exact Hnth|].
    assert (Hc : F64.ltb F64.one_fifth (snd best) = true).
    { apply (ltb_le_trans _ (score_value (Str.lower q) qa));
        [exact I | exact Hnq | rewrite Hs; apply score_value_nonneg
        | exact Hqa | apply Hmax, Hin]. }
    rewrite Hc, andb_true_r. subst a.
    rewrite truthy_nonempty by (apply Hne; eapply nth_error_In, Hnth).
    split; [reflexivity|].
    rewrite <- !score_value_spec, <- Hs. apply Hmax, Hin.
  - exfalso. destruct Hb as [_ Hle]. specialize (Hle qa Hin).
    assert (H : F64.ltb F64.zero (score_value (Str.lower q) qa) = true).
    { apply (ltb_trans _ F64.one_fifth);
        [exact I | exact I | exact Hnq | reflexivity | exact Hqa]. }
    congruence.
Qed.

(** On the default corpus the query "completely unrelated xyz" gets the
    answer of "How do I upload a photo?": the token "a" of that question
    occurs inside "unrelated". *)
Lemma fallback_answers_on_any_token_default :
  exists i winner,
    nth_error (get_all_questions _get_default_faq_data) i = Some winner
    /\ _fallback_answer_question _get_default_faq_data
         "completely unrelated xyz" = Ok (answer winner).
Proof.
  destruct (fallback_answers_on_any_token _get_default_faq_data
              "completely unrelated xyz"
              {| question := "How do I upload a photo?";
                 answer := "You can upload photos through the web interface by clicking the upload button and selecting an image file from your device." |})
    as (i & w & Hnth & Hrun & _).
  - right. left. reflexivity.
  - left. vm_compute. reflexivity.
  - apply Forall_forall. unfold get_all_questions.
    cbn [get_categories_dict categories _get_default_faq_data flat_map
         get_questions questions snd app].
    repeat constructor; discriminate.
  - exists i, w. split; assumption.
Defined.

(** ** The answer selector on a handler as constructed *)

Lemma encode_nth (B : Backend) (texts : list string) (vs : list (Vec B))
    (i : nat) (t : string) :
  encode B texts = Ok vs -> nth_error texts i = Some t ->
  exists v, nth_error vs i = Some v /\ embed B t = Ok v.
Proof.
  revert vs i. induction texts as [|t0 rest IH]; intros vs i H Hn.
  - destruct i; discriminate.
  - simpl in H.
    destruct (embed B t0) as [v0|e] eqn:E0; simpl in H; [|discriminate].
    destruct (encode B rest) as [vs'|e] eqn:E; simpl in H; [|discriminate].
    injection H as <-. destruct i as [|i]; simpl in *.
    + injection Hn as <-. exists v0. auto.
    + apply (IH vs' i eq_refl Hn).
Qed.

(** What the constructor leaves in the cache is the embedding of every
    question of the corpus, in corpus order. *)
Lemma init_encoded (B : Backend) (fs : Storage)
    (loaded : result SentenceTransformer) (h : FAQHandler B)
    (cache : list (Vec B)) :
  __init__ B fs loaded = Ok h ->
  question_embeddings h = Some cache ->
  encode B (map question (get_all_questions (faq_data h))) = Ok cache
  /\ questions_list h = map question (get_all_questions (faq_data h))
  /\ exists m, model h = Some m.
Proof.
  unfold __init__. destruct (_load_faq_data fs) as [d|e]; simpl;
    [|discriminate].
  destruct loaded as [m|e]; intro H; injection H as <-; [|discriminate].
  unfold _initialize_embeddings. simpl.
  destruct (encode B (map question (get_all_questions d))) as [vs|e] eqn:E;
    simpl; [|discriminate].
  intro Hc. injection Hc as <-. split; [exact E|].
  split; [reflexivity|]. exists m. reflexivity.
Qed.

Lemma score_at_map (B : Backend) (qe : Vec B) (cache : list (Vec B))
    (i : nat) (v : Vec B) :
  nth_error cache i = Some v ->
  score_at (map (cos B qe) cache) i = cos B qe v.
Proof.
  intro H. unfold score_at.
  apply nth_error_nth. apply map_nth_error. exact H.
Qed.

(** The constructor never raises: the sample handlers are what it
    returns. *)
Lemma init_handler_of (B : Backend) (fs : Storage)
    (loaded : result SentenceTransformer) :
  __init__ B fs loaded = Ok (Sample.handler_of B fs loaded).
Proof.
  unfold Sample.handler_of.
  destruct (__init__ B fs loaded) as [h|e] eqn:E; [reflexivity|].
  exfalso. revert E. unfold __init__, _load_faq_data, file_exists, read_json.
  destruct (stored fs), loaded; simpl; discriminate.
Qed.

(** X23. On a handler as the constructor leaves it, with embeddings cached
    for a non-empty corpus, [answer_question] for a query that the model
    embeds picks the entry whose question is most similar to the query,
    the first such entry in corpus order; it returns that entry's answer
    when the similarity is at least 0.3 and the fixed message when it is
    below 0.3. *)
Theorem answer_selector_threshold (B : Backend) (fs : Storage)
    (loaded : result SentenceTransformer) (h : FAQHandler B)
    (cache : list (Vec B)) (q : string) (qe : Vec B) :
  __init__ B fs loaded = Ok h ->
  question_embeddings h = Some cache ->
  cache <> [] ->
  embed B q = Ok qe ->
  exists idx qa v,
    nth_error (get_all_questions (faq_data h)) idx = Some qa
    /\ embed B (question qa) = Ok v
    /\ (forall j qa' v',
          nth_error (get_all_questions (faq_data h)) j = Some qa' ->
          embed B (question qa') = Ok v' ->
          (cos B qe v' <= cos B qe v)%Q
          /\ (j < idx -> (cos B qe v' < cos B qe v)%Q))
    /\ ((3 # 10 <= cos B qe v)%Q ->
        answer_question B h q = Ok (answer qa))
    /\ ((cos B qe v < 3 # 10)%Q ->
        answer_question B h q = Ok uncertain_message).
Proof.
  intros Hinit He Hne Hq.
  destruct (init_encoded B fs loaded h cache Hinit He)
    as (Henc & _ & m & Hm).
  set (all := get_all_questions (faq_data h)) in *.
  assert (Hlen : length cache = length all).
  { rewrite (encode_length _ _ _ Henc). apply length_map. }
  assert (Hfit : cache_fits h).
  { unfold cache_fits. rewrite He. fold all. lia. }
  destruct (answer_with_cache_run B h m cache q qe Hm He Hne Hfit Hq)
    as (idx & qa & _ & Hidx & Hnth & Hmax & Hfirst & Hans).
  cbv zeta in Hmax, Hfirst, Hans. fold all in Hnth.
  set (sims := map (cos B qe) cache) in *.
  assert (Hrow : forall j qa',
             nth_error all j = Some qa' ->
             exists v', nth_error cache j = Some v'
                        /\ embed B (question qa') = Ok v'
                        /\ score_at sims j = cos B qe v').
  { intros j qa' Hj.
    destruct (encode_nth B _ cache j (question qa') Henc
                (map_nth_error question j all Hj)) as (v' & Hv' & Hemb).
    exists v'. split; [exact Hv'|]. split; [exact Hemb|].
    apply score_at_map, Hv'. }
  destruct (Hrow idx qa Hnth) as (v & Hv & Hemb & Hscore).
  exists idx, qa, v. split; [exact Hnth|]. split; [exact Hemb|].
  rewrite Hscore in Hans. split; [|split].
  - intros j qa' v' Hj Hemb'.
    destruct (Hrow j qa' Hj) as (v'' & Hv'' & Hemb'' & Hscore').
    assert (v'' = v') by congruence. subst v''.
    assert (Hjl : j < length cache).
    { rewrite Hlen. apply nth_error_Some. congruence. }
    rewrite <- Hscore', <- Hscore. split.
    + apply Hmax, Hjl.
    + apply Hfirst.
  - intro Hs. rewrite Hans. apply Qltb_false in Hs. rewrite Hs. reflexivity.
  - intro Hs. rewrite Hans. apply Qltb_true in Hs. rewrite Hs. reflexivity.
Qed.

(** The threshold at work on the default handler: a stored question asked
    verbatim scores 1 and gets its answer. *)
Lemma answer_selector_threshold_default :
  answer_question Sample.exact_low Sample.default_handler
    "How do I upload a photo?"
  = Ok "You can upload photos through the web interface by clicking the upload button and selecting an image file from your device.".
Proof.
  pose (q := "How do I upload a photo?").
  pose (cache := map Str.lower
                   (map question (get_all_questions _get_default_faq_data))).
  assert (H0 : __init__ Sample.exact_low Sample.no_file (Ok all_MiniLM_L6_v2)
               = Ok Sample.default_handler) by apply init_handler_of.
  assert (H2 : question_embeddings Sample.default_handler = Some cache)
    by (vm_compute; reflexivity).
  assert (H3 : cache <> []) by (vm_compute; discriminate).
  assert (H5 : embed Sample.exact_low q = Ok (Str.lower q)) by reflexivity.
  destruct (answer_selector_threshold Sample.exact_low Sample.no_file
              (Ok all_MiniLM_L6_v2) Sample.default_handler cache q
              (Str.lower q) H0 H2 H3 H5)
    as (idx & qa & v & Hnth & Hemb & Hbest & Hge & _).
  pose (upload := {| question := "How do I upload a photo?";
                     answer := "You can upload photos through the web interface by clicking the upload button and selecting an image file from your device." |}).
  assert (E1 : nth_error (get_all_questions (faq_data Sample.default_handler)) 1
               = Some upload) by (vm_compute; reflexivity).
  destruct (Hbest 1 upload (Str.lower (question upload)) E1 eq_refl)
    as [Hle Hlt].
  assert (Hone : (1 <= cos Sample.exact_low (Str.lower q) v)%Q).
  { assert (E : cos Sample.exact_low (Str.lower q) (Str.lower (question upload))
                = 1%Q) by (vm_compute; reflexivity).
    rewrite E in Hle. exact Hle. }
  assert (Hidx : idx = 1).
  { destruct (Nat.lt_trichotomy idx 1) as [Hl|[Hq|Hg]]; [|exact Hq|].
    - assert (idx = 0) by lia. subst idx.
      assert (E0 : nth_error (get_all_questions (faq_data Sample.default_handler)) 0
                   = Some {| question := "What can this photo assistant do?";
                             answer := "This photo assistant can analyze images to detect objects, extract text, identify scenes, and answer questions about photos using AI-powered vision and language models." |})
        by (vm_compute; reflexivity).
      rewrite E0 in Hnth. injection Hnth as <-.
      simpl in Hemb. injection Hemb as <-.
      exfalso. revert Hone. vm_compute. intro H. apply H. reflexivity.
    - specialize (Hlt Hg).
      assert (E : cos Sample.exact_low (Str.lower q) (Str.lower (question upload))
                  = 1%Q) by (vm_compute; reflexivity).
      rewrite E in Hlt.
      assert (Hv : (cos Sample.exact_low (Str.lower q) v <= 1)%Q).
      { change (cos Sample.exact_low (Str.lower q) v)
          with (Sample.exact_cos (Str.lower q) v).
        unfold Sample.exact_cos.
        destruct (String.eqb _ _); vm_compute; discriminate. }
      exfalso. exact (Qlt_not_le _ _ Hlt Hv). }
  subst idx. rewrite E1 in Hnth. injection Hnth as <-.
  apply Hge. eapply Qle_trans; [|exact Hone]. vm_compute. discriminate.
Defined.

(** ** The shortlist on a handler with a cache *)

Lemma filter_all {A : Type} (f : A -> bool) (l : list A) :
  (forall x, In x l -> f x = true) -> filter f l = l.
Proof.
  induction l as [|x l IH]; simpl; intro H; [reflexivity|].
  rewrite (H x (or_introl eq_refl)). f_equal.
  apply IH. intros y Hy. apply H. right. exact Hy.
Qed.

Section Shortlist.

Context (B : Backend).
Hypothesis topk_ok : topk_contract (topk_indices B).

Variable h : FAQHandler B.
Variable m : SentenceTransformer.
Variable cache : list (Vec B).
Variable q : string.
Variable qe : Vec B.
Variable top_k : Z.

Hypothesis has_model : model h = Some m.
Hypothesis has_cache : question_embeddings h = Some cache.
Hypothesis cache_nonempty : cache <> [].
Hypothesis fits : cache_fits h.
Hypothesis embedded : embed B q = Ok qe.
Hypothesis k_nonneg : (0 <= top_k)%Z.

Let sims : list Q := map (cos B qe) cache.
Let k : nat := Z.to_nat (Z.min top_k (Z.of_nat (length cache))).
Let all : list QA := get_all_questions (faq_data h).

Lemma shortlist_run :
  k <= length sims
  /\ get_similar_questions B h q top_k
     = Ok (map (similar_entry all sims) (topk_indices B sims k)).
Proof.
  assert (Hlen : length sims = length cache) by apply length_map.
  assert (Hk : k <= length sims) by (unfold k; lia).
  split; [exact Hk|].
  unfold get_similar_questions. rewrite has_model, has_cache, embedded.
  cbn [bind]. rewrite (cosine_similarity_ok B qe cache cache_nonempty).
  fold sims. cbn [bind]. unfold torch_topk. rewrite Hlen.
  assert (Hin : ((Z.min top_k (Z.of_nat (length cache)) <? 0)%Z
                 || (Z.of_nat (length cache)
                     <? Z.min top_k (Z.of_nat (length cache)))%Z) = false).
  { apply orb_false_iff. split; apply Z.ltb_ge; lia. }
  rewrite Hin. cbn [bind]. fold k.
  rewrite (collect_similar_ok (get_all_questions (faq_data h)) sims
             (topk_indices B sims k)
             (fun i Hi => topk_range _ topk_ok sims k i Hk Hi)).
  fold all. rewrite filter_all; [reflexivity|].
  intros i Hi. apply Nat.ltb_lt.
  pose proof (topk_range _ topk_ok sims k i Hk Hi) as Hr.
  unfold cache_fits in fits. rewrite has_cache in fits. fold all in fits. lia.
Qed.

(** X15. With a model, a cache that fits the corpus and a query that embeds,
    [get_similar_questions] returns exactly min(top_k, number of cached
    rows) triples, and they are the highest scores: a cached position
    that is not listed scores no higher than any triple listed. *)
Theorem shortlist_exact_count :
  exists idxs,
    get_similar_questions B h q top_k
    = Ok (map (similar_entry all sims) idxs)
    /\ length idxs
       = Z.to_nat (Z.min top_k (Z.of_nat (length cache)))
    /\ NoDup idxs
    /\ (forall i, In i idxs -> i < length cache)
    /\ (forall i j, In i idxs -> j < length cache -> ~ In j idxs ->
          (score_at sims j <= score_at sims i)%Q).
Proof.
  destruct shortlist_run as [Hk Hrun].
  assert (Hlen : length sims = length cache) by apply length_map.
  exists (topk_indices B sims k). split; [exact Hrun|].
  split; [apply (topk_length _ topk_ok), Hk|].
  split; [apply (topk_nodup _ topk_ok), Hk|].
  split.
  - intros i Hi. rewrite <- Hlen. apply (topk_range _ topk_ok sims k i Hk Hi).
  - intros i j Hi Hj Hnj. rewrite <- Hlen in Hj.
    apply (topk_largest _ topk_ok sims k i j Hk Hi Hj Hnj).
Qed.

(** X16. The first triple of the shortlist carries the score that
    [answer_question] compares with 0.3: when [top_k] is at least 1 the
    shortlist is not empty, its first score is the highest similarity, and
    [answer_question] returns the fixed message exactly when that score is
    below 0.3 (a stored answer otherwise). *)
Theorem shortlist_head_is_best :
  (1 <= top_k)%Z ->
  exists r rest,
    get_similar_questions B h q top_k = Ok (r :: rest)
    /\ (forall j, j < length cache -> (score_at sims j <= snd r)%Q)
    /\ ((snd r < 3 # 10)%Q -> answer_question B h q = Ok uncertain_message)
    /\ ((3 # 10 <= snd r)%Q ->
        exists qa, In qa all /\ answer_question B h q = Ok (answer qa)).
Proof.
  intro Hk1.
  destruct shortlist_run as [Hk Hrun].
  assert (Hlen : length sims = length cache) by apply length_map.
  assert (Hcpos : 0 < length cache)
    by (destruct cache; [congruence | simpl; lia]).
  assert (Hkpos : 1 <= k) by (unfold k; lia).
  pose proof (topk_length _ topk_ok sims k Hk) as Hl.
  pose proof (topk_sorted _ topk_ok sims k Hk) as Hs.
  destruct (topk_indices B sims k) as [|i0 idxs] eqn:E;
    [simpl in Hl; lia|].
  assert (Hhead : forall j, j < length cache ->
                    (score_at sims j <= score_at sims i0)%Q).
  { intros j Hj.
    destruct (in_dec Nat.eq_dec j (i0 :: idxs)) as [[<-|Hin]|Hout].
    - apply Qle_refl.
    - inversion Hs as [|? ? _ Hall]; subst.
      rewrite Forall_forall in Hall. apply Hall, Hin.
    - rewrite <- Hlen in Hj.
      apply (topk_largest _ topk_ok sims k i0 j Hk);
        [rewrite E; left; reflexivity | exact Hj | rewrite E; exact Hout]. }
  exists (similar_entry all sims i0), (map (similar_entry all sims) idxs).
  split; [exact Hrun|]. split; [exact Hhead|].
  destruct (answer_with_cache_run B h m cache q qe has_model has_cache
              cache_nonempty fits embedded)
    as (idx & qa & _ & Hidx & Hnth & Hmax & _ & Hans).
  cbv zeta in Hmax, Hans. fold sims in Hmax, Hans. fold all in Hnth.
  assert (Hi0 : i0 < length cache).
  { rewrite <- Hlen.
    apply (topk_range _ topk_ok sims k i0 Hk). rewrite E. left. reflexivity. }
  assert (Heq : (score_at sims i0 == score_at sims idx)%Q).
  { apply Qle_antisym; [apply Hmax, Hi0 | apply Hhead, Hidx]. }
  simpl. split.
  - intro H. rewrite Hans.
    assert (Hc : Qltb (score_at sims idx) (3 # 10) = true)
      by (apply Qltb_true; rewrite <- Heq; exact H).
    rewrite Hc. reflexivity.
  - intro H. exists qa. split; [eapply nth_error_In, Hnth|].
    rewrite Hans.
    assert (Hc : Qltb (score_at sims idx) (3 # 10) = false)
      by (apply Qltb_false; rewrite <- Heq; exact H).
    rewrite Hc. reflexivity.
Qed.

End Shortlist.

Lemma default_handler_setup :
  let q := "How do I upload a photo?" in
  let cache := map Str.lower
                 (map question (get_all_questions _get_default_faq_data)) in
  model Sample.default_handler = Some all_MiniLM_L6_v2
  /\ question_embeddings Sample.default_handler = Some cache
  /\ cache <> []
  /\ cache_fits Sample.default_handler
  /\ embed Sample.exact_low q = Ok (Str.lower q).
Proof.
  intros q cache.
  assert (H2 : question_embeddings Sample.default_handler = Some cache)
    by (vm_compute; reflexivity).
  split; [vm_compute; reflexivity|]. split; [exact H2|].
  split; [vm_compute; discriminate|]. split; [|reflexivity].
  unfold cache_fits. rewrite H2. vm_compute. repeat constructor.
Qed.

Lemma shortlist_exact_count_default :
  exists results,
    get_similar_questions Sample.exact_low Sample.default_handler
      "How do I upload a photo?" 3 = Ok results
    /\ length results = 3.
Proof.
  destruct default_handler_setup as (H1 & H2 & H3 & H4 & H5).
  destruct (shortlist_exact_count Sample.exact_low (select_contract true)
              Sample.default_handler all_MiniLM_L6_v2 _
              "How do I upload a photo?" _ 3 H1 H2 H3 H4 H5)
    as (idxs & Hrun & Hlen & _); [lia|].
  eexists. split; [exact Hrun|].
  rewrite length_map, Hlen. reflexivity.
Defined.

Lemma shortlist_head_is_best_default :
  exists r rest,
    get_similar_questions Sample.exact_low Sample.default_handler
      "How do I upload a photo?" 3 = Ok (r :: rest).
Proof.
  destruct default_handler_setup as (H1 & H2 & H3 & H4 & H5).
  destruct (shortlist_head_is_best Sample.exact_low (select_contract true)
              Sample.default_handler all_MiniLM_L6_v2 _
              "How do I upload a photo?" _ 3 H1 H2 H3 H4 H5)
    as (r & rest & Hrun & _); [lia | lia |].
  exists r, rest. exact Hrun.
Defined.

(** ** Invariants of the reachable handlers *)

Lemma add_question_keeps_cache (B : Backend) (h : FAQHandler B)
    (fs : Storage) (category q a : string) :
  let h' := snd (fst (add_question B h fs category q a)) in
  model h' = model h
  /\ question_embeddings h' = question_embeddings h
  /\ questions_list h' = questions_list h.
Proof.
  unfold add_question.
  destruct (add_question_data (faq_data h) fs category q a) as [[ok d'] fs'].
  simpl. auto.
Qed.

Lemma init_lists (B : Backend) (fs : Storage)
    (loaded : result SentenceTransformer) (h : FAQHandler B) :
  __init__ B fs loaded = Ok h ->
  (model h = None -> question_embeddings h = None)
  /\ (forall cache, question_embeddings h = Some cache ->
        length (questions_list h) = length cache)
  /\ (question_embeddings h = None -> questions_list h = []).
Proof.
  unfold __init__. destruct (_load_faq_data fs) as [d|e]; simpl;
    [|discriminate].
  destruct loaded as [m|e]; intro H; injection H as <-.
  - unfold _initialize_embeddings. simpl.
    destruct (encode B (map question (get_all_questions d))) as [vs|e] eqn:E;
      simpl.
    + split; [discriminate|]. split; [|discriminate].
      intros cache Hc. injection Hc as <-.
      rewrite (encode_length _ _ _ E). reflexivity.
    + split; [reflexivity|]. split; [discriminate | reflexivity].
  - simpl. split; [reflexivity|]. split; [discriminate | reflexivity].
Qed.

(** X17. Every handler a program can reach, by construction and any number of
    [add_question] calls, keeps these: the cache has no more rows than the
    corpus has entries, so the position found by [argmax] always addresses
    an entry; there is a cache only with a model; [questions_list] has one
    text per cached row, and is empty without a cache. *)
Theorem reachable_invariants (B : Backend) (h : FAQHandler B) :
  reachable B h ->
  cache_fits h
  /\ (model h = None -> question_embeddings h = None)
  /\ (forall cache, question_embeddings h = Some cache ->
        length (questions_list h) = length cache
        /\ forall idx, idx < length cache ->
             exists qa, nth_error (get_all_questions (faq_data h)) idx
                        = Some qa)
  /\ (question_embeddings h = None -> questions_list h = []).
Proof.
  intro Hr.
  assert (Hinv : cache_fits h
                 /\ (model h = None -> question_embeddings h = None)
                 /\ (forall cache, question_embeddings h = Some cache ->
                       length (questions_list h) = length cache)
                 /\ (question_embeddings h = None -> questions_list h = [])).
  { induction Hr as [fs loaded h Hinit | h fs category q a Hr IH].
    - split; [eapply init_cache_fits, Hinit|].
      eapply init_lists, Hinit.
    - destruct IH as (I1 & I2 & I3 & I4).
      destruct (add_question_keeps_cache B h fs category q a)
        as (Em & Ee & El).
      cbv zeta in Em, Ee, El.
      split; [apply add_question_cache_fits, I1|].
      rewrite Em, Ee, El. auto. }
  destruct Hinv as (I1 & I2 & I3 & I4).
  split; [exact I1|]. split; [exact I2|]. split; [|exact I4].
  intros cache Hc. split; [apply I3, Hc|].
  intros idx Hidx. unfold cache_fits in I1. rewrite Hc in I1.
  destruct (nth_error (get_all_questions (faq_data h)) idx) as [qa|] eqn:E;
    [eauto|]. apply nth_error_None in E. lia.
Qed.

Lemma reachable_invariants_stale :
  cache_fits Sample.stale_handler.
Proof.
  apply (reachable_invariants Sample.exact_low Sample.stale_handler).
  unfold Sample.stale_handler. apply reach_add.
  apply (reach_init _ Sample.no_file (Ok all_MiniLM_L6_v2)).
  reflexivity.
Defined.

(** ** The HTTP resources *)

Lemma list_entries_cases (l : list QA) :
  list_entries l = match l with [] => Ok [] | _ => Raise KeyError end.
Proof. destruct l; reflexivity. Qed.

(** X18. [FAQList.get] subscripts each entry with 0 and 1, which are no keys of
    an entry: it responds with the empty list for an empty corpus and
    aborts with status 500 for every other corpus. *)
Theorem faq_list_aborts_unless_empty (d : FaqData) :
  FAQList_get d
  = match get_all_questions d with
    | [] => Respond []
    | _ => Abort 500
    end.
Proof.
  unfold FAQList_get. rewrite list_entries_cases.
  destruct (get_all_questions d); reflexivity.
Qed.

Lemma answer_question_stored (B : Backend) (h : FAQHandler B) (q : string) :
  exists out,
    answer_question B h q = Ok out
    /\ (out = uncertain_message
        \/ In out (map answer (get_all_questions (faq_data h)))).
Proof.
  destruct (answer_question_cases B h q) as [E|(idx & qa & Hnth & [E|E])].
  - destruct (fallback_answer_cases (faq_data h) q) as (out & Hout & _ & Hc).
    exists out. rewrite E. auto.
  - exists uncertain_message. auto.
  - exists (answer qa). split; [exact E|]. right.
    apply in_map. eapply nth_error_In, Hnth.
Qed.

Lemma similar_questions_length_le (B : Backend) (h : FAQHandler B)
    (q : string) (top_k : Z) :
  topk_contract (topk_indices B) ->
  exists results,
    get_similar_questions B h q top_k = Ok results
    /\ length results <= Z.to_nat top_k.
Proof.
  intro Hc.
  assert (Hstop : exists results : list (string * string * Q),
             @Ok (list (string * string * Q)) [] = Ok results
             /\ length results <= Z.to_nat top_k)
    by (exists []; split; [reflexivity | simpl; lia]).
  unfold get_similar_questions.
  destruct (model h) as [m|]; [|exact Hstop].
  destruct (question_embeddings h) as [cache|]; [|exact Hstop].
  destruct (embed B q) as [qe|e]; [|exact Hstop]. cbn [bind].
  destruct (cosine_similarity B qe cache) as [sims|e]; [|exact Hstop].
  cbn [bind]. unfold torch_topk.
  set (k := Z.min top_k (Z.of_nat (length sims))).
  destruct ((k <? 0)%Z || (Z.of_nat (length sims) <? k)%Z) eqn:Hk;
    [exact Hstop|]. cbn [bind].
  apply orb_false_iff in Hk. destruct Hk as [Hk0 Hk1].
  apply Z.ltb_ge in Hk0. apply Z.ltb_ge in Hk1.
  assert (Hle : Z.to_nat k <= length sims) by lia.
  rewrite (collect_similar_ok (get_all_questions (faq_data h)) sims _
             (fun i Hi => topk_range _ Hc sims (Z.to_nat k) i Hle Hi)).
  eexists. split; [reflexivity|].
  rewrite length_map.
  pose proof (filter_length_le
                (fun i => Nat.ltb i (length (get_all_questions (faq_data h))))
                (topk_indices B sims (Z.to_nat k))) as H1.
  rewrite (topk_length _ Hc sims (Z.to_nat k) Hle) in H1. lia.
Qed.

Lemma abort_500_never_400 {A : Type} (body : outcome A) :
  abort_500_on_error body <> Abort 400.
Proof. destruct body; discriminate. Qed.

(** The shortlist never raises, whatever the question is. *)
Lemma similar_questions_of_ok (B : Backend)
    (encode_value : JValue -> result (Vec B)) (h : FAQHandler B)
    (v : JValue) (top_k : Z) :
  exists results,
    get_similar_questions_of B encode_value h v top_k = Ok results.
Proof.
  unfold get_similar_questions_of, get_similar_questions.
  destruct v;
    match goal with
    | |- exists r, try_except ?b _ = _ =>
        destruct b; simpl; eexists; reflexivity
    end.
Qed.

(** A question that is not a string: [answer_question] raises, unless the
    library embeds the value and the match is found in the corpus. *)
Lemma answer_question_of_other (B : Backend)
    (encode_value : JValue -> result (Vec B)) (h : FAQHandler B)
    (v : JValue) :
  (forall s, v <> JString s) ->
  (answer_question_of B encode_value h v = Raise AttributeError
   \/ exists out,
        answer_question_of B encode_value h v = Ok out
        /\ (out = uncertain_message
            \/ In out (map answer (get_all_questions (faq_data h)))))
  /\ (model h = None \/ question_embeddings h = None
      \/ (exists e, encode_value v = Raise e) ->
      answer_question_of B encode_value h v = Raise AttributeError).
Proof.
  intro Hv.
  assert (E : answer_question_of B encode_value h v
              = try_except
                  (match model h, question_embeddings h with
                   | Some _, Some cache =>
                       answer_with_embeddings_value B encode_value h cache v
                   | _, _ => Raise AttributeError
                   end)
                  (fun _ => Raise AttributeError)).
  { destruct v; try reflexivity. exfalso. exact (Hv _ eq_refl). }
  rewrite E. clear E.
  destruct (model h) as [m|];
    [|split; [left; reflexivity | intros _; reflexivity]].
  destruct (question_embeddings h) as [cache|];
    [|split; [left; reflexivity | intros _; reflexivity]].
  unfold answer_with_embeddings_value.
  destruct (encode_value v) as [qe|e]; cbn [bind try_except];
    [|split; [left; reflexivity | intros _; reflexivity]].
  split.
  - destruct (cosine_similarity B qe cache) as [sims|e]; cbn [bind try_except];
      [|left; reflexivity].
    destruct (argmax sims) as [idx|e]; cbn [bind try_except];
      [|left; reflexivity].
    destruct (item sims idx) as [s|e]; cbn [bind try_except];
      [|left; reflexivity].
    destruct (nth_error (get_all_questions (faq_data h)) idx) as [qa|] eqn:Hn;
      [|left; reflexivity].
    right. destruct (Qltb s (3 # 10)); cbn [try_except].
    + exists uncertain_message. split; [reflexivity | left; reflexivity].
    + exists (answer qa). split; [reflexivity|]. right.
      apply in_map. eapply nth_error_In, Hn.
  - intros [H|[H|[e H]]]; discriminate.
Qed.

Lemma respond_with_ok (B : Backend)
    (encode_value : JValue -> result (Vec B)) (h : FAQHandler B)
    (question : string) (top_k : Z) (conf : Q) :
  topk_contract (topk_indices B) ->
  exists resp,
    respond_with B encode_value h (JString question) top_k conf = Respond resp
    /\ success resp = true
    /\ confidence resp = conf
    /\ answer_question B h question = Ok (r_answer resp)
    /\ (r_answer resp = uncertain_message
        \/ In (r_answer resp) (map answer (get_all_questions (faq_data h))))
    /\ length (similar_questions resp) <= Z.to_nat top_k.
Proof.
  intro Hc. unfold respond_with. cbn [answer_question_of get_similar_questions_of].
  destruct (answer_question_stored B h question) as (out & Hout & Hcase).
  destruct (similar_questions_length_le B h question top_k Hc)
    as (results & Hrun & Hlen).
  rewrite Hout, Hrun. simpl. eexists. split; [reflexivity|]. simpl.
  repeat split; auto. rewrite length_map. exact Hlen.
Qed.

(** What a request whose question is a truthy value other than a string
    ends in: status 500, or a response built from the embedding path. *)
Lemma respond_with_other (B : Backend)
    (encode_value : JValue -> result (Vec B)) (h : FAQHandler B)
    (v : JValue) (top_k : Z) (conf : Q) :
  (forall s, v <> JString s) ->
  let post := abort_500_on_error (respond_with B encode_value h v top_k conf) in
  (post = Abort 500
   \/ exists resp,
        post = Respond resp
        /\ success resp = true
        /\ confidence resp = conf
        /\ (r_answer resp = uncertain_message
            \/ In (r_answer resp)
                 (map answer (get_all_questions (faq_data h)))))
  /\ (model h = None \/ question_embeddings h = None
      \/ (exists e, encode_value v = Raise e) ->
      post = Abort 500).
Proof.
  intros Hv post. subst post. unfold respond_with.
  destruct (answer_question_of_other B encode_value h v Hv) as [Hcase Hmode].
  destruct (similar_questions_of_ok B encode_value h v top_k)
    as (results & Hrun).
  split.
  - destruct Hcase as [E|(out & E & Hout)]; rewrite E; cbn [call];
      [left; reflexivity|].
    rewrite Hrun. cbn [call abort_500_on_error]. right.
    eexists. split; [reflexivity|]. cbn [success confidence r_answer]. auto.
  - intro H. rewrite (Hmode H). reflexivity.
Qed.

(** X19. [FAQSearch.post] never answers with status 400.  A request whose
    body is missing or is no JSON object, or whose question is missing or
    falsy (the empty string, null, 0, false, an empty list or object),
    ends in status 500: the abort with status 400 is raised inside the
    [try] and replaced.  A question that is a non-empty string gets a
    response with [success] true, confidence 0.9, the string
    [answer_question] returns (a stored answer or the fixed message) and at
    most five similar questions.  A truthy question that is not a string
    ends in status 500 when the handler has no model or no cache or the
    library cannot embed the value, because the fallback calls
    [question.lower()]; otherwise in status 500 or a response of the same
    form. *)
Theorem faq_search_outcomes (B : Backend)
    (encode_value : JValue -> result (Vec B)) (h : FAQHandler B)
    (payload : Payload) :
  topk_contract (topk_indices B) ->
  let post := FAQSearch_post B encode_value h payload in
  post <> Abort 400
  /\ match payload_get payload "question" with
     | Raise _ => post = Abort 500
     | Ok question =>
         if negb (py_truthy question) then post = Abort 500
         else
           match question with
           | JString s =>
               exists resp,
                 post = Respond resp
                 /\ success resp = true
                 /\ confidence resp = (9 # 10)%Q
                 /\ answer_question B h s = Ok (r_answer resp)
                 /\ (r_answer resp = uncertain_message
                     \/ In (r_answer resp)
                          (map answer (get_all_questions (faq_data h))))
                 /\ length (similar_questions resp) <= 5
           | _ =>
               (post = Abort 500
                \/ exists resp,
                     post = Respond resp
                     /\ success resp = true
                     /\ confidence resp = (9 # 10)%Q
                     /\ (r_answer resp = uncertain_message
                         \/ In (r_answer resp)
                              (map answer (get_all_questions (faq_data h)))))
               /\ (model h = None \/ question_embeddings h = None
                   \/ (exists e, encode_value question = Raise e) ->
                   post = Abort 500)
           end
     end.
Proof.
  intros Hc post. subst post.
  split; [apply abort_500_never_400|].
  unfold FAQSearch_post.
  destruct (payload_get payload "question") as [question|e]; cbn [call];
    [|reflexivity].
  destruct (py_truthy question) eqn:Ht; cbn [negb]; [|reflexivity].
  destruct question;
    try (apply (respond_with_other B encode_value h _ 5 (9 # 10)%Q);
         intros s0; discriminate).
  destruct (respond_with_ok B encode_value h s 5 (9 # 10)%Q Hc)
    as (resp & Hrun & H1 & H2 & H3 & H4 & H5).
  rewrite Hrun. exists resp. simpl. repeat split; auto.
Qed.

(** Four requests to the default handler and to the handler without a
    model: an empty question, no body, a body that is a list, and the
    number 5 as the question. *)
Lemma faq_search_outcomes_bad_requests :
  let no_embedding : JValue -> result (Vec Sample.exact_low) :=
    fun _ => Raise TypeError in
  FAQSearch_post Sample.exact_low no_embedding Sample.default_handler
    (JObject [("question", JString "")]) = Abort 500
  /\ FAQSearch_post Sample.exact_low no_embedding Sample.default_handler
       JNull = Abort 500
  /\ FAQSearch_post Sample.exact_low no_embedding Sample.default_handler
       (JArray [JString "question"]) = Abort 500
  /\ FAQSearch_post Sample.exact_low no_embedding Sample.fallback_handler
       (JObject [("question", JInt 5)]) = Abort 500.
Proof.
  cbv zeta.
  pose (no_embedding := fun _ : JValue =>
                          @Raise (Vec Sample.exact_low) TypeError).
  split; [|split; [|split]].
  - exact (proj2 (faq_search_outcomes Sample.exact_low no_embedding
                    Sample.default_handler
                    (JObject [("question", JString "")])
                    (select_contract true))).
  - exact (proj2 (faq_search_outcomes Sample.exact_low no_embedding
                    Sample.default_handler JNull (select_contract true))).
  - exact (proj2 (faq_search_outcomes Sample.exact_low no_embedding
                    Sample.default_handler (JArray [JString "question"])
                    (select_contract true))).
  - apply (proj2 (faq_search_outcomes Sample.exact_low no_embedding
                    Sample.fallback_handler
                    (JObject [("question", JInt 5)])
                    (select_contract true))).
    left. reflexivity.
Defined.

(** X20. [ImageQuestion.post] likewise never answers with status 400.  A
    request whose body is missing or is no JSON object, or whose question
    or filename is missing or falsy, ends in status 500.  With a truthy
    filename, a question that is a non-empty string gets a response with
    [success] true, confidence 0.85, the string [answer_question] returns
    and at most three similar questions; a truthy question that is not a
    string ends in status 500 when the handler has no model or no cache or
    the library cannot embed the value, and otherwise in status 500 or a
    response of the same form. *)
Theorem image_question_outcomes (B : Backend)
    (encode_value : JValue -> result (Vec B)) (h : FAQHandler B)
    (payload : Payload) :
  topk_contract (topk_indices B) ->
  let post := ImageQuestion_post B encode_value h payload in
  post <> Abort 400
  /\ match payload_get payload "question", payload_get payload "filename" with
     | Ok question, Ok filename =>
         if negb (py_truthy question) || negb (py_truthy filename)
         then post = Abort 500
         else
           match question with
           | JString s =>
               exists resp,
                 post = Respond resp
                 /\ success resp = true
                 /\ confidence resp = (85 # 100)%Q
                 /\ answer_question B h s = Ok (r_answer resp)
                 /\ (r_answer resp = uncertain_message
                     \/ In (r_answer resp)
                          (map answer (get_all_questions (faq_data h))))
                 /\ length (similar_questions resp) <= 3
           | _ =>
               (post = Abort 500
                \/ exists resp,
                     post = Respond resp
                     /\ success resp = true
                     /\ confidence resp = (85 # 100)%Q
                     /\ (r_answer resp = uncertain_message
                         \/ In (r_answer resp)
                              (map answer (get_all_questions (faq_data h)))))
               /\ (model h = None \/ question_embeddings h = None
                   \/ (exists e, encode_value question = Raise e) ->
                   post = Abort 500)
           end
     | _, _ => post = Abort 500
     end.
Proof.
  intros Hc post. subst post.
  split; [apply abort_500_never_400|].
  unfold ImageQuestion_post.
  destruct (payload_get payload "question") as [question|e]; cbn [call];
    [|reflexivity].
  destruct (payload_get payload "filename") as [filename|e]; cbn [call];
    [|reflexivity].
  destruct (negb (py_truthy question) || negb (py_truthy filename)) eqn:Ht;
    [reflexivity|].
  destruct question;
    try (apply (respond_with_other B encode_value h _ 3 (85 # 100)%Q);
         intros s0; discriminate).
  destruct (respond_with_ok B encode_value h s 3 (85 # 100)%Q Hc)
    as (resp & Hrun & H1 & H2 & H3 & H4 & H5).
  rewrite Hrun. exists resp. simpl. repeat split; auto.
Qed.

(** Two requests to the default handler: no filename, and a filename
    that is the number 0. *)
Lemma image_question_outcomes_no_filename :
  let no_embedding : JValue -> result (Vec Sample.exact_low) :=
    fun _ => Raise TypeError in
  ImageQuestion_post Sample.exact_low no_embedding Sample.default_handler
    (JObject [("question", JString "What is this?")]) = Abort 500
  /\ ImageQuestion_post Sample.exact_low no_embedding Sample.default_handler
       (JObject [("question", JString "What is this?");
                 ("filename", JInt 0)]) = Abort 500.
Proof.
  cbv zeta.
  pose (no_embedding := fun _ : JValue =>
                          @Raise (Vec Sample.exact_low) TypeError).
  split.
  - exact (proj2 (image_question_outcomes Sample.exact_low no_embedding
                    Sample.default_handler
                    (JObject [("question", JString "What is this?")])
                    (select_contract true))).
  - exact (proj2 (image_question_outcomes Sample.exact_low no_embedding
                    Sample.default_handler
                    (JObject [("question", JString "What is this?");
                              ("filename", JInt 0)])
                    (select_contract true))).
Defined.
